(** * CarbonFootCal: the carbon accounting, streak and statistics core of app.py

    A shallow embedding of the functions of [src/app.py] that compute the
    emissions total, write footprint entries, maintain the per-user streak
    record and derive the dashboard statistics, followed by the properties
    proved about them.

    Conventions of the embedding.
    - Numbers.  The calculator is written once over an interface [PyNum] of
      the arithmetic it uses, and run at two instances: exact rationals [Q]
      (the real-number reading of the formulas) and IEEE 754 binary64
      ([spec_float] with 53 bits of precision), which is what a Python
      [float] is.  Python [int] quantities are embedded into the same number
      type.
    - Dates.  A [datetime.date], and the ISO string SQLite keeps for it, is
      its day number, an integer; subtraction of dates is subtraction of
      day numbers.
    - Dictionaries.  The [data] dictionary of raw quantities is a finite map
      from field names to numbers; its ['date'] key is kept beside it.
    - Tables.  A table is the list of its rows in insertion order, since
      [user_streaks] has no uniqueness constraint and the code reads the
      first row of a result.
    - Effects.  Database code runs in a state monad over the three tables,
      as the cached connection reads them, and a list of fault flags, one
      consumed by every [cursor.execute] and every [conn.commit()]; an
      exception is an outcome of its own, caught where the source has
      [try]/[except]. *)

From Stdlib Require Import ZArith QArith Lqa SpecFloat.
From stdpp Require Import base option list strings gmap sorting.

Local Open Scope Z_scope.

(** ** Numbers *)

(** The arithmetic [app.py] performs on raw quantities and totals. *)
Class PyNum (A : Type) := {
  (** an integer value or literal, such as [0], [25], [500] *)
  of_Z : Z -> A;
  (** the decimal literal [n/d], such as [0.4] = [lit 4 10] *)
  lit : Z -> positive -> A;
  add : A -> A -> A;
  mul : A -> A -> A;
  div : A -> A -> A;
  (** [bool(x)]: a number is falsy exactly when it is zero *)
  truthy : A -> bool;
  (** [x < y] *)
  ltb : A -> A -> bool;
  (** [bool(0)] is [False] *)
  truthy_zero : truthy (of_Z 0) = false
}.

(** Exact rational arithmetic. *)
#[export] Instance Q_num : PyNum Q := {|
  of_Z := inject_Z;
  lit n d := Qmake n d;
  add := Qplus;
  mul := Qmult;
  div := Qdiv;
  truthy x := negb (Qeq_bool x 0);
  ltb x y := negb (Qle_bool y x);
  truthy_zero := eq_refl
|}.

(** IEEE 754 binary64, round to nearest even: Python's [float]. *)
Module F64.
Definition prec : Z := 53.
Definition emax : Z := 1024.

Definition of_int (z : Z) : spec_float := binary_normalize prec emax z 0 false.

(** A decimal literal is read as the double nearest to it; for [n/d] with
    [n] and [d] below 2^53 that is the correctly rounded quotient. *)
Definition of_decimal (n : Z) (d : positive) : spec_float :=
  SFdiv prec emax (of_int n) (of_int (Z.pos d)).

Definition is_nonzero (x : spec_float) : bool :=
  match x with
  | S754_zero _ => false
  | _ => true
  end.
End F64.

#[export] Instance F64_num : PyNum spec_float := {|
  of_Z := F64.of_int;
  lit := F64.of_decimal;
  add := SFadd F64.prec F64.emax;
  mul := SFmul F64.prec F64.emax;
  div := SFdiv F64.prec F64.emax;
  truthy := F64.is_nonzero;
  ltb := SFltb;
  truthy_zero := eq_refl
|}.

(** ** Emission factor calculator *)

Section Calculator.
Context {A : Type} `{PyNum A}.

Definition calculate_electricity_carbon (kwh : A) : A :=
  mul kwh (lit 4 10).

Definition calculate_natural_gas_carbon (therms : A) : A :=
  mul therms (lit 53 10).

Definition calculate_water_carbon (gallons : A) : A :=
  mul gallons (lit 2 10000).

Definition calculate_car_carbon (miles : A) (efficiency : A) : A :=
  let gallons := div miles efficiency in
  mul gallons (lit 8887 1000).

Definition calculate_public_transit_carbon (miles : A) : A :=
  mul miles (lit 17 100).

Definition calculate_flight_carbon (short_flights long_flights : A) : A :=
  add (mul short_flights (of_Z 500)) (mul long_flights (of_Z 1600)).

Definition calculate_food_carbon (meat_servings dairy_servings veg_servings : A) : A :=
  let meat_carbon := mul meat_servings (lit 30 10) in
  let dairy_carbon := mul dairy_servings (lit 7 10) in
  let veg_carbon := mul veg_servings (lit 2 10) in
  add (add meat_carbon dairy_carbon) veg_carbon.

(** [bool(data.get(k))]: a missing key gives [None], which is falsy. *)
Definition get_truthy (data : gmap string A) (k : string) : bool :=
  match data !! k with
  | Some v => truthy v
  | None => false
  end.

(** [data.get(k, 0)], also the value of [data[k]] behind a truthy guard. *)
Definition get_or_0 (data : gmap string A) (k : string) : A :=
  default (of_Z 0) (data !! k).

Definition calculate_total_carbon (data : gmap string A) : A :=
  let total := of_Z 0 in
  let total :=
    if get_truthy data "electricity_kwh"
    then add total (calculate_electricity_carbon (get_or_0 data "electricity_kwh"))
    else total in
  let total :=
    if get_truthy data "natural_gas_therms"
    then add total (calculate_natural_gas_carbon (get_or_0 data "natural_gas_therms"))
    else total in
  let total :=
    if get_truthy data "water_gallons"
    then add total (calculate_water_carbon (get_or_0 data "water_gallons"))
    else total in
  let total :=
    if get_truthy data "car_miles"
    then add total (calculate_car_carbon (get_or_0 data "car_miles") (of_Z 25))
    else total in
  let total :=
    if get_truthy data "public_transit_miles"
    then add total (calculate_public_transit_carbon (get_or_0 data "public_transit_miles"))
    else total in
  let total :=
    if get_truthy data "flights_short_haul" || get_truthy data "flights_long_haul"
    then add total (calculate_flight_carbon
                      (get_or_0 data "flights_short_haul")
                      (get_or_0 data "flights_long_haul"))
    else total in
  let total :=
    if get_truthy data "meat_servings" || get_truthy data "dairy_servings"
       || get_truthy data "veg_servings"
    then add total (calculate_food_carbon
                      (get_or_0 data "meat_servings")
                      (get_or_0 data "dairy_servings")
                      (get_or_0 data "veg_servings"))
    else total in
  total.
End Calculator.

(** ** Tables

    The three relations created by [init_database].  Columns the modelled
    code never reads back (the autoincrement [id] of [carbon_footprint] and
    [user_streaks], [profile_picture] and the timestamp columns) are left
    out. *)

Record user_row := {
  users_id : Z;
  username : string;
  password : string;
  email : string;
  first_name : string;
  last_name : string;
  bio : string;
  location : string;
  is_admin : bool
}.

Record streak_row := {
  streak_user_id : Z;
  current_streak : Z;
  longest_streak : Z;
  last_entry_date : option Z;
  total_entries : Z
}.

Record footprint_row (A : Type) := {
  cf_user_id : Z;
  cf_date : Z;
  electricity_kwh : A;
  natural_gas_therms : A;
  water_gallons : A;
  car_miles : A;
  public_transit_miles : A;
  flights_short_haul : A;
  flights_long_haul : A;
  meat_servings : A;
  dairy_servings : A;
  veg_servings : A;
  total_carbon : A
}.
Arguments cf_user_id {A} _.
Arguments cf_date {A} _.
Arguments electricity_kwh {A} _.
Arguments natural_gas_therms {A} _.
Arguments water_gallons {A} _.
Arguments car_miles {A} _.
Arguments public_transit_miles {A} _.
Arguments flights_short_haul {A} _.
Arguments flights_long_haul {A} _.
Arguments meat_servings {A} _.
Arguments dairy_servings {A} _.
Arguments veg_servings {A} _.
Arguments total_carbon {A} _.

Record database (A : Type) := {
  users : list user_row;
  carbon_footprint : list (footprint_row A);
  user_streaks : list streak_row
}.
Arguments users {A} _.
Arguments carbon_footprint {A} _.
Arguments user_streaks {A} _.

Definition empty_database {A} : database A :=
  {| users := []; carbon_footprint := []; user_streaks := [] |}.

(** The row [INSERT INTO user_streaks (user_id) VALUES (?)] creates: every
    other column takes its declared default. *)
Definition default_streak (user_id : Z) : streak_row :=
  {| streak_user_id := user_id;
     current_streak := 0;
     longest_streak := 0;
     last_entry_date := None;
     total_entries := 0 |}.

(** ** SQL statements

    A statement maps the database to its result and the new database, or
    to [None] when SQLite refuses it (a violated [UNIQUE] constraint). *)

Definition statement (A R : Type) : Type := database A -> option (R * database A).

Section Statements.
Context {A : Type}.

Definition set_users (us : list user_row) (d : database A) : database A :=
  {| users := us; carbon_footprint := carbon_footprint d; user_streaks := user_streaks d |}.

Definition set_carbon_footprint (cf : list (footprint_row A)) (d : database A) : database A :=
  {| users := users d; carbon_footprint := cf; user_streaks := user_streaks d |}.

Definition set_user_streaks (ss : list streak_row) (d : database A) : database A :=
  {| users := users d; carbon_footprint := carbon_footprint d; user_streaks := ss |}.

Definition query (R : Type) (f : database A -> R) : statement A R :=
  fun d => Some (f d, d).

(** [SELECT * FROM user_streaks WHERE user_id = ?] *)
Definition select_streaks (user_id : Z) : statement A (list streak_row) :=
  query _ (fun d => filter (fun r => streak_user_id r = user_id) (user_streaks d)).

(** [INSERT INTO user_streaks (...) VALUES (...)] *)
Definition insert_streak (r : streak_row) : statement A unit :=
  fun d => Some (tt, set_user_streaks (user_streaks d ++ [r]) d).

(** [UPDATE user_streaks SET current_streak = ?, longest_streak = ?,
    last_entry_date = ?, total_entries = ? WHERE user_id = ?] *)
Definition update_streaks (current longest : Z) (entry_date : Z) (total : Z)
    (user_id : Z) : statement A unit :=
  fun d =>
    let upd r :=
      if decide (streak_user_id r = user_id)
      then {| streak_user_id := streak_user_id r;
              current_streak := current;
              longest_streak := longest;
              last_entry_date := Some entry_date;
              total_entries := total |}
      else r in
    Some (tt, set_user_streaks (upd <$> user_streaks d) d).

(** [INSERT INTO carbon_footprint (...) VALUES (...)] *)
Definition insert_footprint (r : footprint_row A) : statement A unit :=
  fun d => Some (tt, set_carbon_footprint (carbon_footprint d ++ [r]) d).

(** The order [ORDER BY date DESC] asks for. *)
Definition date_desc (r1 r2 : footprint_row A) : Prop := cf_date r2 <= cf_date r1.

#[export] Instance date_desc_dec r1 r2 : Decision (date_desc r1 r2).
Proof. unfold date_desc. apply _. Defined.

(** [SELECT * FROM carbon_footprint WHERE user_id = ? ORDER BY date DESC] *)
Definition select_footprint (user_id : Z) : statement A (list (footprint_row A)) :=
  query _ (fun d =>
    merge_sort date_desc (filter (fun r => cf_user_id r = user_id) (carbon_footprint d))).

(** [SELECT COUNT( * ) as count FROM users WHERE username = ? OR email = ?] *)
Definition count_users (name mail : string) : statement A Z :=
  query _ (fun d =>
    Z.of_nat (length (filter (fun u => username u = name \/ email u = mail) (users d)))).

(** [SELECT id FROM users WHERE username = ?] *)
Definition select_user_id (name : string) : statement A (list Z) :=
  query _ (fun d => users_id <$> filter (fun u => username u = name) (users d)).

(** [SELECT COUNT( * ) as count FROM users WHERE id = ? AND password = ?] *)
Definition count_credentials (user_id : Z) (hashed : string) : statement A Z :=
  query _ (fun d =>
    Z.of_nat (length (filter (fun u => users_id u = user_id /\ password u = hashed) (users d)))).

(** The id an [AUTOINCREMENT] key gives the next row: one more than the
    largest id in use (rows are never deleted). *)
Definition next_user_id (d : database A) : Z :=
  1 + foldr Z.max 0 (users_id <$> users d).

(** [INSERT INTO users (username, password, email, first_name, last_name)
    VALUES (...)], refused when the name or the email is taken. *)
Definition insert_user (name hashed mail first last : string) (admin : bool)
    : statement A Z :=
  fun d =>
    if decide (Exists (fun u => username u = name \/ email u = mail) (users d))
    then None
    else
      let uid := next_user_id d in
      Some (uid, set_users (users d ++ [
        {| users_id := uid; username := name; password := hashed; email := mail;
           first_name := first; last_name := last; bio := ""; location := "";
           is_admin := admin |}]) d).

(** [UPDATE users SET password = ? WHERE id = ?] *)
Definition update_password (hashed : string) (user_id : Z) : statement A unit :=
  fun d =>
    let upd u :=
      if decide (users_id u = user_id)
      then {| users_id := users_id u; username := username u; password := hashed;
              email := email u; first_name := first_name u; last_name := last_name u;
              bio := bio u; location := location u; is_admin := is_admin u |}
      else u in
    Some (tt, set_users (upd <$> users d) d).

(** [UPDATE users SET first_name = ?, last_name = ?, bio = ?, location = ?,
    email = ? WHERE id = ?], refused when another user has the email. *)
Definition update_profile (first last about place mail : string) (user_id : Z)
    : statement A unit :=
  fun d =>
    if decide (Exists (fun u => users_id u = user_id) (users d) /\
               Exists (fun u => users_id u <> user_id /\ email u = mail) (users d))
    then None
    else
      let upd u :=
        if decide (users_id u = user_id)
        then {| users_id := users_id u; username := username u; password := password u;
                email := mail; first_name := first; last_name := last;
                bio := about; location := place; is_admin := is_admin u |}
        else u in
      Some (tt, set_users (upd <$> users d) d).
End Statements.

(** ** The database monad

    The world is the database as the cached connection reads it, and the
    fault flags still to come.  Each call made to SQLite, a
    [cursor.execute] or a [conn.commit()], consumes one flag, and a [true]
    flag makes that call raise (an unreachable or locked store).  A
    [cursor.execute] that raises leaves the tables as they were.  A
    [conn.commit()] that raises undoes nothing: [run_query] has no
    rollback, so the rows written by the statement before it stay on the
    connection, where every later statement reads them and where the next
    commit that succeeds stores them.  A failure after which SQLite itself
    undoes the statement leaves the tables as a raising [cursor.execute]
    does. *)

Record world (A : Type) := {
  db : database A;
  faults : list bool
}.
Arguments db {A} _.
Arguments faults {A} _.

Inductive outcome (R : Type) : Type :=
  | Ret (r : R)
  | Raise.
Arguments Ret {R} _.
Arguments Raise {R}.

Definition M (A R : Type) : Type := world A -> outcome R * world A.

#[export] Instance M_ret {A} : MRet (M A) :=
  fun R r w => (Ret r, w).

#[export] Instance M_bind {A} : MBind (M A) :=
  fun R1 R2 k c w =>
    match c w with
    | (Ret r, w') => k r w'
    | (Raise, w') => (Raise, w')
    end.

Section Monad.
Context {A : Type}.

(** [try: body  except Exception: handler] *)
Definition try_except {R} (body handler : M A R) : M A R :=
  fun w =>
    match body w with
    | (Ret r, w') => (Ret r, w')
    | (Raise, w') => handler w'
    end.

(** [cursor.execute(query, params)], with the [fetchall] of a query. *)
Definition execute {R} (stmt : statement A R) : M A R :=
  fun w =>
    let rest := tail (faults w) in
    match head (faults w) with
    | Some true => (Raise, {| db := db w; faults := rest |})
    | _ =>
        match stmt (db w) with
        | Some (r, d) => (Ret r, {| db := d; faults := rest |})
        | None => (Raise, {| db := db w; faults := rest |})
        end
    end.

(** [conn.commit()] *)
Definition commit : M A unit :=
  fun w =>
    let rest := tail (faults w) in
    match head (faults w) with
    | Some true => (Raise, {| db := db w; faults := rest |})
    | _ => (Ret tt, {| db := db w; faults := rest |})
    end.

(** [run_query]: with [fetch] the rows are returned; without it the
    statement is committed and the result is [None].  Every exception, of
    the statement or of the commit, is caught, reported on the page and
    turned into the result [None]. *)
Definition run_query {R} (stmt : statement A R) (fetch : bool) : M A (option R) :=
  try_except
    (r ← execute stmt;
     if fetch then mret (Some r)
     else (_ ← commit; mret None))
    (mret None).
End Monad.

(** ** Streak tracker *)

Section Streaks.
Context {A : Type}.

Definition update_user_streak (user_id : Z) (entry_date : Z) : M A unit :=
  streak_result ← run_query (select_streaks user_id) true;
  match streak_result with
  | None | Some [] =>
      (* Create new streak record *)
      _ ← run_query (insert_streak
             {| streak_user_id := user_id; current_streak := 1; longest_streak := 1;
                last_entry_date := Some entry_date; total_entries := 1 |}) false;
      mret tt
  | Some (streak_data :: _) =>
      let current_streak0 := current_streak streak_data in
      let longest_streak0 := longest_streak streak_data in
      let total_entries0 := total_entries streak_data in
      (* Calculate new streak; [None] is the early [return] *)
      let new_streak : option Z :=
        match last_entry_date streak_data with
        | Some last =>
            let days_diff := entry_date - last in
            if days_diff =? 1 then Some (current_streak0 + 1)
            else if days_diff =? 0 then None
            else Some 1
        | None => Some 1
        end in
      match new_streak with
      | None => mret tt
      | Some current_streak1 =>
          let longest_streak1 := Z.max longest_streak0 current_streak1 in
          let total_entries1 := total_entries0 + 1 in
          _ ← run_query (update_streaks current_streak1 longest_streak1 entry_date
                           total_entries1 user_id) false;
          mret tt
      end
  end.

Definition get_user_streak (user_id : Z) : M A (option streak_row) :=
  result ← run_query (select_streaks user_id) true;
  mret (match result with
        | Some (r :: _) => Some r
        | _ => None
        end).
End Streaks.

(** ** Footprint entry store *)

(** The argument of [save_carbon_footprint]: the ['date'] key of the
    dictionary, when present, and its numeric keys. *)
Record footprint_data (A : Type) := {
  data_date : option Z;
  data_raw : gmap string A
}.
Arguments data_date {A} _.
Arguments data_raw {A} _.

Section Entries.
Context {A : Type} `{PyNum A}.

(** The tuple of parameters bound to the [INSERT]. *)
Definition entry_row (user_id : Z) (today : Z) (data : footprint_data A) : footprint_row A :=
  let raw := data_raw data in
  {| cf_user_id := user_id;
     cf_date := default today (data_date data);
     electricity_kwh := get_or_0 raw "electricity_kwh";
     natural_gas_therms := get_or_0 raw "natural_gas_therms";
     water_gallons := get_or_0 raw "water_gallons";
     car_miles := get_or_0 raw "car_miles";
     public_transit_miles := get_or_0 raw "public_transit_miles";
     flights_short_haul := get_or_0 raw "flights_short_haul";
     flights_long_haul := get_or_0 raw "flights_long_haul";
     meat_servings := get_or_0 raw "meat_servings";
     dairy_servings := get_or_0 raw "dairy_servings";
     veg_servings := get_or_0 raw "veg_servings";
     total_carbon := calculate_total_carbon raw |}.

(** [today] is the value of [datetime.date.today()]. *)
Definition save_carbon_footprint (today : Z) (user_id : Z) (data : footprint_data A)
    : M A bool :=
  try_except
    (_ ← run_query (insert_footprint (entry_row user_id today data)) false;
     (* Update user streak *)
     _ ← update_user_streak user_id (default today (data_date data));
     mret true)
    (mret false).

(** The rows of the returned frame, empty when the query gave nothing. *)
Definition get_user_footprint_history (user_id : Z) : M A (list (footprint_row A)) :=
  results ← run_query (select_footprint user_id) true;
  mret (default [] results).

(** The raw columns of a stored row, as a dictionary again. *)
Definition row_raw (r : footprint_row A) : gmap string A :=
  {[ "electricity_kwh" := electricity_kwh r;
     "natural_gas_therms" := natural_gas_therms r;
     "water_gallons" := water_gallons r;
     "car_miles" := car_miles r;
     "public_transit_miles" := public_transit_miles r;
     "flights_short_haul" := flights_short_haul r;
     "flights_long_haul" := flights_long_haul r;
     "meat_servings" := meat_servings r;
     "dairy_servings" := dairy_servings r;
     "veg_servings" := veg_servings r ]}.
End Entries.

(** ** Statistics aggregator *)

(** The entries of the [stats] dictionary that concern totals and the period
    comparison ([min_carbon], [max_carbon] and the category breakdown are
    separate folds over the same frame). *)
Record stats (A : Type) := {
  stats_total_entries : Z;
  stats_total_carbon : A;
  stats_avg_carbon : A;
  stats_recent_avg : A;
  stats_previous_avg : A;
  stats_trend : string
}.
Arguments stats_total_entries {A} _.
Arguments stats_total_carbon {A} _.
Arguments stats_avg_carbon {A} _.
Arguments stats_recent_avg {A} _.
Arguments stats_previous_avg {A} _.
Arguments stats_trend {A} _.

Section Aggregator.
Context {A : Type} `{PyNum A}.

(** [frame['total_carbon'].sum()] *)
Definition column_sum (xs : list A) : A := foldl add (of_Z 0) xs.

(** [frame['total_carbon'].mean()] of a frame that is not empty *)
Definition column_mean (xs : list A) : A :=
  div (column_sum xs) (of_Z (Z.of_nat (length xs))).

(** [history_df[history_df['date'] >= str(last_30_days)]] *)
Definition recent_data (today : Z) (history : list (footprint_row A)) : list (footprint_row A) :=
  let last_30_days := today - 30 in
  filter (fun r => last_30_days <= cf_date r) history.

(** [history_df[(history_df['date'] >= str(prev_30_days)) &
                (history_df['date'] < str(last_30_days))]] *)
Definition previous_data (today : Z) (history : list (footprint_row A)) : list (footprint_row A) :=
  let last_30_days := today - 30 in
  let prev_30_days := today - 60 in
  filter (fun r => prev_30_days <= cf_date r /\ cf_date r < last_30_days) history.

(** [data['total_carbon'].mean() if not data.empty else 0] *)
Definition mean_or_0 (rows : list (footprint_row A)) : A :=
  match rows with
  | [] => of_Z 0
  | _ => column_mean (total_carbon <$> rows)
  end.

Definition trend_of (recent_avg previous_avg : A) : string :=
  if ltb recent_avg previous_avg then "improving"
  else if ltb previous_avg recent_avg then "worsening"
  else "stable".

(** The statistics computed from a frame that is not empty. *)
Definition dashboard_stats (today : Z) (history : list (footprint_row A)) : stats A :=
  let totals := total_carbon <$> history in
  let recent_avg := mean_or_0 (recent_data today history) in
  let previous_avg := mean_or_0 (previous_data today history) in
  {| stats_total_entries := Z.of_nat (length history);
     stats_total_carbon := column_sum totals;
     stats_avg_carbon := column_mean totals;
     stats_recent_avg := recent_avg;
     stats_previous_avg := previous_avg;
     stats_trend := trend_of recent_avg previous_avg |}.

Definition get_dashboard_stats (today : Z) (user_id : Z) : M A (option (stats A)) :=
  history_df ← get_user_footprint_history user_id;
  match history_df with
  | [] => mret None
  | _ => mret (Some (dashboard_stats today history_df))
  end.
End Aggregator.

(** ** Accounts *)

Section Accounts.
Context {A : Type}.
(** [hash_password]: the SHA-256 digest of the password, in hexadecimal. *)
Variable hash_password : string -> string.

(** [init_database], on its own connection: the tables exist from the
    first call on; the administrator and their streak record are created
    when missing.  Nothing catches a refused [INSERT] here: the script
    stops before the commit and the database stays as it was.  Faults of
    that connection are not modelled: a call that raises writes nothing,
    and the run is the run without it. *)
Definition init_database (d : database A) : database A :=
  if decide (Exists (fun u => username u = "admin") (users d))
  then d
  else
    match insert_user "admin" (hash_password "admin123") "admin@carbontracker.com"
            "System" "Administrator" true d with
    | Some (admin_id, d1) =>
        set_user_streaks (user_streaks d1 ++ [default_streak admin_id]) d1
    | None => d
    end.

(** The messages of the [except] branches carry the text of the exception
    in the source; only their fixed part is kept. *)
Definition register_user (name pass mail first last : string) : M A (bool * string) :=
  (* Check if username or email already exists *)
  result ← run_query (count_users name mail) true;
  if match result with Some count => 0 <? count | None => false end
  then mret (false, "Username or email already exists")
  else
    let hashed_password := hash_password pass in
    try_except
      (_ ← run_query (insert_user name hashed_password mail first last false) false;
       (* Get the new user ID and create streak record *)
       user_result ← run_query (select_user_id name) true;
       match user_result with
       | Some (user_id :: _) =>
           _ ← run_query (insert_streak (default_streak user_id)) false;
           mret (true, "Registration successful")
       | _ => mret (true, "Registration successful")
       end)
      (mret (false, "Registration error")).

Definition change_password (user_id : Z) (old_password new_password : string)
    : M A (bool * string) :=
  let old_hashed := hash_password old_password in
  result ← run_query (count_credentials user_id old_hashed) true;
  if match result with Some count => count =? 0 | None => true end
  then mret (false, "Current password is incorrect")
  else
    let new_hashed := hash_password new_password in
    try_except
      (_ ← run_query (update_password new_hashed user_id) false;
       mret (true, "Password updated successfully"))
      (mret (false, "Error updating password")).

Definition update_user_profile (user_id : Z) (first last about place mail : string)
    : M A (bool * string) :=
  try_except
    (_ ← run_query (update_profile first last about place mail user_id) false;
     mret (true, "Profile updated successfully"))
    (mret (false, "Error updating profile")).
End Accounts.

(** ** Runs of the application

    The calls that write to the database, as the pages issue them.  A run
    starts from the empty database; [main] calls [init_database] first and
    on every rerun of the script. *)

Inductive call (A : Type) : Type :=
  | CInit
  | CRegister (name pass mail first last : string)
  | CChangePassword (user_id : Z) (old_password new_password : string)
  | CUpdateProfile (user_id : Z) (first last about place mail : string)
  | CSave (today : Z) (user_id : Z) (data : footprint_data A)
  | CRecordEntry (user_id : Z) (entry_date : Z)
  | CHistory (user_id : Z)
  | CStats (today : Z) (user_id : Z)
  | CGetStreak (user_id : Z).
Arguments CInit {A}.
Arguments CRegister {A} _ _ _ _ _.
Arguments CChangePassword {A} _ _ _.
Arguments CUpdateProfile {A} _ _ _ _ _ _.
Arguments CSave {A} _ _ _.
Arguments CRecordEntry {A} _ _.
Arguments CHistory {A} _.
Arguments CStats {A} _ _.
Arguments CGetStreak {A} _.

Section Runs.
Context {A : Type} `{PyNum A}.
Variable hash_password : string -> string.

Definition run_call (c : call A) (w : world A) : world A :=
  match c with
  | CInit => {| db := init_database hash_password (db w); faults := faults w |}
  | CRegister name pass mail first last =>
      snd (register_user hash_password name pass mail first last w)
  | CChangePassword user_id old new =>
      snd (change_password hash_password user_id old new w)
  | CUpdateProfile user_id first last about place mail =>
      snd (update_user_profile user_id first last about place mail w)
  | CSave today user_id data => snd (save_carbon_footprint today user_id data w)
  | CRecordEntry user_id entry_date => snd (update_user_streak user_id entry_date w)
  | CHistory user_id => snd (get_user_footprint_history user_id w)
  | CStats today user_id => snd (get_dashboard_stats today user_id w)
  | CGetStreak user_id => snd (get_user_streak user_id w)
  end.

Definition run_calls (cs : list (call A)) (w : world A) : world A :=
  foldl (fun w c => run_call c w) w cs.

(** The databases a run can reach, whatever faults occur on the way. *)
Definition reachable (d : database A) : Prop :=
  exists cs fs, db (run_calls cs {| db := empty_database; faults := fs |}) = d.
End Runs.

(** ** Reading accounts *)

Section AccountReads.
Context {A : Type}.
Variable hash_password : string -> string.

(** [SELECT * FROM users WHERE username = ? AND password = ?] *)
Definition select_login (name hashed : string) : statement A (list user_row) :=
  query _ (fun d => filter (fun u => username u = name /\ password u = hashed) (users d)).

(** [SELECT * FROM users WHERE id = ?] *)
Definition select_user (user_id : Z) : statement A (list user_row) :=
  query _ (fun d => filter (fun u => users_id u = user_id) (users d)).

Definition login_user (name pass : string) : M A (bool * option user_row) :=
  let hashed_password := hash_password pass in
  found ← run_query (select_login name hashed_password) true;
  match found with
  | Some (u :: _) => mret (true, Some u)
  | _ => mret (false, None)
  end.

Definition get_user_profile (user_id : Z) : M A (option user_row) :=
  result ← run_query (select_user user_id) true;
  mret (match result with
        | Some (u :: _) => Some u
        | _ => None
        end).

(** [update_user_profile] as it is called, with the dictionary
    [profile_data]: the five subscripts are evaluated inside the [try], so a
    missing key is a [KeyError] that the [except] turns into a failure
    before any statement is sent. *)
Definition update_user_profile_data (user_id : Z) (profile_data : gmap string string)
    : M A (bool * string) :=
  match profile_data !! "first_name", profile_data !! "last_name",
        profile_data !! "bio", profile_data !! "location", profile_data !! "email" with
  | Some first, Some last, Some about, Some place, Some mail =>
      update_user_profile user_id first last about place mail
  | _, _, _, _, _ => mret (false, "Error updating profile")
  end.
End AccountReads.

(** ** The administrator's view of the entries *)

Section AdminReads.
Context {A : Type}.

(** The order [ORDER BY cf.date DESC] asks for, on joined rows. *)
Definition joined_date_desc (x y : footprint_row A * string) : Prop :=
  cf_date (fst y) <= cf_date (fst x).

#[export] Instance joined_date_desc_dec x y : Decision (joined_date_desc x y).
Proof. unfold joined_date_desc. apply _. Defined.

(** [SELECT cf.*, u.username FROM carbon_footprint cf
     JOIN users u ON cf.user_id = u.id ORDER BY cf.date DESC] *)
Definition select_all_entries : statement A (list (footprint_row A * string)) :=
  query _ (fun d =>
    merge_sort joined_date_desc
      (r ← carbon_footprint d;
       u ← filter (fun u => users_id u = cf_user_id r) (users d);
       [(r, username u)])).

Definition get_all_carbon_entries : M A (list (footprint_row A * string)) :=
  results ← run_query select_all_entries true;
  mret (default [] results).
End AdminReads.

(** ** The remaining statistics *)

Section MoreStatistics.
Context {A : Type} `{PyNum A}.

(** [frame['total_carbon'].min()] and [.max()]; there is no number to
    return for an empty column. *)
Definition column_min (xs : list A) : option A :=
  match xs with
  | [] => None
  | x :: rest => Some (foldl (fun m y => if ltb y m then y else m) x rest)
  end.

Definition column_max (xs : list A) : option A :=
  match xs with
  | [] => None
  | x :: rest => Some (foldl (fun m y => if ltb m y then y else m) x rest)
  end.

(** [stats['min_carbon']] and [stats['max_carbon']] *)
Definition stats_min_carbon (history : list (footprint_row A)) : option A :=
  column_min (total_carbon <$> history).

Definition stats_max_carbon (history : list (footprint_row A)) : option A :=
  column_max (total_carbon <$> history).

(** [stats['category_breakdown']]: the dictionary [category_totals], in the
    order its keys are written. *)
Definition category_totals (history : list (footprint_row A)) : list (string * A) :=
  let sum_of (column : footprint_row A -> A) := column_sum (column <$> history) in
  [ ("electricity", mul (sum_of electricity_kwh) (lit 4 10));
    ("natural_gas", mul (sum_of natural_gas_therms) (lit 53 10));
    ("water", mul (sum_of water_gallons) (lit 2 10000));
    ("car", mul (div (sum_of car_miles) (of_Z 25)) (lit 8887 1000));
    ("transit", mul (sum_of public_transit_miles) (lit 17 100));
    ("flights", add (mul (sum_of flights_short_haul) (of_Z 500))
                    (mul (sum_of flights_long_haul) (of_Z 1600)));
    ("food", add (add (mul (sum_of meat_servings) (lit 30 10))
                      (mul (sum_of dairy_servings) (lit 7 10)))
                 (mul (sum_of veg_servings) (lit 2 10))) ].

(** [{k: v for k, v in category_data.items() if v > 0}], the slices of the
    pie chart of [dashboard_page]. *)
Definition filtered_categories (category_data : list (string * A)) : list (string * A) :=
  filter (fun kv => ltb (of_Z 0) (snd kv) = true) category_data.
End MoreStatistics.

(** * Vocabulary of the properties *)

(** No call to SQLite still to come is made to fail. *)
Definition no_fault (fs : list bool) : bool := forallb negb fs.

(** The statement [run_query] sends without [fetch] fails in the world [w]:
    its [cursor.execute] or the [conn.commit()] after it raises, which
    [run_query] reports on the page. *)
Definition write_raises {A R} (stmt : statement A R) (w : world A) : Prop :=
  fst ((_ ← execute stmt; commit) w) = Raise.

Section StreakVocabulary.
Context {A : Type}.

(** The rows [SELECT * FROM user_streaks WHERE user_id = ?] returns. *)
Definition streaks_of (d : database A) (user_id : Z) : list streak_row :=
  filter (fun r => streak_user_id r = user_id) (user_streaks d).

(** The record the code works on: the first of them. *)
Definition streak_of (d : database A) (user_id : Z) : option streak_row :=
  head (streaks_of d user_id).

(** The record after an entry on [entry_date] was counted. *)
Definition counted (r : streak_row) (current : Z) (entry_date : Z) : streak_row :=
  {| streak_user_id := streak_user_id r;
     current_streak := current;
     longest_streak := Z.max (longest_streak r) current;
     last_entry_date := Some entry_date;
     total_entries := total_entries r + 1 |}.

Definition first_streak (user_id entry_date : Z) : streak_row :=
  {| streak_user_id := user_id; current_streak := 1; longest_streak := 1;
     last_entry_date := Some entry_date; total_entries := 1 |}.

(** The streak record after [update_user_streak], as a function of the
    record before it. *)
Definition next_streak (user_id entry_date : Z) (o : option streak_row) : option streak_row :=
  match o with
  | None => Some (first_streak user_id entry_date)
  | Some r =>
      match last_entry_date r with
      | Some last =>
          if entry_date - last =? 1 then Some (counted r (current_streak r + 1) entry_date)
          else if entry_date - last =? 0 then Some r
          else Some (counted r 1 entry_date)
      | None => Some (counted r 1 entry_date)
      end
  end.

(** Entries recorded one after the other. *)
Definition record_entries (user_id : Z) (dates : list Z) (w : world A) : world A :=
  foldl (fun w e => snd (update_user_streak user_id e w)) w dates.

End StreakVocabulary.

(** Properties of whole runs are stated through a relation between the
    database before and after: a computation respects [Rel] when every one
    of its executions, with any faults, relates the two. *)
Definition statement_respects {A R} (Rel : relation (database A)) (s : statement A R) : Prop :=
  forall d r d', s d = Some (r, d') -> Rel d d'.

Definition respects {A R} (Rel : relation (database A)) (m : M A R) : Prop :=
  forall w, Rel (db w) (db (snd (m w))).

(** The invariant of the streak table. *)
Definition streak_ok (r : streak_row) : Prop := current_streak r <= longest_streak r.

Definition streaks_ok {A} (d : database A) : Prop := Forall streak_ok (user_streaks d).

Definition keeps_streaks_ok {A} : relation (database A) :=
  fun d d' => streaks_ok d -> streaks_ok d'.

(** Footprint rows are only ever appended. *)
Definition appends_entries {A} : relation (database A) :=
  fun d d' => carbon_footprint d `prefix_of` carbon_footprint d'.

(** The seven category results of a dictionary, added up without looking
    at any guard. *)
Definition category_results {A} `{PyNum A} (data : gmap string A) : list A :=
  [ calculate_electricity_carbon (get_or_0 data "electricity_kwh");
    calculate_natural_gas_carbon (get_or_0 data "natural_gas_therms");
    calculate_water_carbon (get_or_0 data "water_gallons");
    calculate_car_carbon (get_or_0 data "car_miles") (of_Z 25);
    calculate_public_transit_carbon (get_or_0 data "public_transit_miles");
    calculate_flight_carbon (get_or_0 data "flights_short_haul")
                            (get_or_0 data "flights_long_haul");
    calculate_food_carbon (get_or_0 data "meat_servings")
                          (get_or_0 data "dairy_servings")
                          (get_or_0 data "veg_servings") ].

Definition sum_of_categories {A} `{PyNum A} (data : gmap string A) : A :=
  foldl add (of_Z 0) (category_results data).

(** Classes of binary64 values used to follow signs through the sum.
    [F64_nonneg x] is Python's [x >= 0]. *)
Definition F64_nonneg (x : spec_float) : bool := SFleb (F64.of_int 0) x.

Definition F64_is_zero (x : spec_float) : Prop :=
  match x with
  | S754_zero _ => True
  | _ => False
  end.

(** Not negative: a zero of either sign, a positive number, [+inf] or NaN. *)
Definition F64_unsigned (x : spec_float) : Prop :=
  match x with
  | S754_zero _ | S754_nan => True
  | S754_infinity s | S754_finite s _ _ => s = false
  end.

(** The same, without the negative zero. *)
Definition F64_strict (x : spec_float) : Prop :=
  match x with
  | S754_nan => True
  | S754_zero s | S754_infinity s | S754_finite s _ _ => s = false
  end.

(** A positive finite number, as every emission factor is. *)
Definition F64_factor (x : spec_float) : Prop :=
  match x with
  | S754_finite false _ _ => True
  | _ => False
  end.

(** The guarded additions of [calculate_total_carbon], as a fold over the
    guards and the category results. *)
Definition guarded_sum {A} `{PyNum A} (t : A) (l : list (bool * A)) : A :=
  foldl (fun (t : A) (bx : bool * A) => if fst bx then add t (snd bx) else t) t l.

(** Only the streak table may differ. *)
Definition only_streaks {A} : relation (database A) :=
  fun d d' => users d' = users d /\ carbon_footprint d' = carbon_footprint d.

(** The windows of the period comparison as the specification words them:
    the closed intervals [[asOfDate - 29, asOfDate]] and
    [[asOfDate - 59, asOfDate - 30]]. *)
Definition spec_recent_window {A} (as_of : Z) (history : list (footprint_row A))
    : list (footprint_row A) :=
  filter (fun r => as_of - 29 <= cf_date r /\ cf_date r <= as_of) history.

Definition spec_previous_window {A} (as_of : Z) (history : list (footprint_row A))
    : list (footprint_row A) :=
  filter (fun r => as_of - 59 <= cf_date r /\ cf_date r <= as_of - 30) history.

(** The mean of a window as the specification words it: the sum of the
    totals of its entries over their number, and 0 for a window without
    entries. *)
Definition spec_window_mean (rows : list (footprint_row Q)) : Q :=
  match rows with
  | [] => 0%Q
  | _ => (foldr Qplus 0 (total_carbon <$> rows)
          / inject_Z (Z.of_nat (length rows)))%Q
  end.

(** A database to try the properties on: user 7 with a streak of two
    days, last entry on day 10. *)
Definition sample_streak : streak_row :=
  {| streak_user_id := 7; current_streak := 2; longest_streak := 4;
     last_entry_date := Some 10; total_entries := 5 |}.

Definition sample_db : database Q :=
  {| users := []; carbon_footprint := []; user_streaks := [sample_streak] |}.

(** An entry of day 5 with a negative quantity. *)
Definition negative_data : footprint_data Q :=
  {| data_date := Some 5; data_raw := {[ "electricity_kwh" := (-100)%Q ]} |}.

(** A stored row of user 1 with nothing but a date and a total. *)
Definition sample_row (date : Z) (total : Q) : footprint_row Q :=
  {| cf_user_id := 1; cf_date := date;
     electricity_kwh := 0%Q; natural_gas_therms := 0%Q; water_gallons := 0%Q;
     car_miles := 0%Q; public_transit_miles := 0%Q; flights_short_haul := 0%Q;
     flights_long_haul := 0%Q; meat_servings := 0%Q; dairy_servings := 0%Q;
     veg_servings := 0%Q; total_carbon := total |}.

(** A plain entry of day 5. *)
Definition sample_data : footprint_data Q :=
  {| data_date := Some 5; data_raw := {[ "electricity_kwh" := 100%Q ]} |}.

(** The ten keys [calculate_total_carbon] reads. *)
Definition raw_keys : list string :=
  [ "electricity_kwh"; "natural_gas_therms"; "water_gallons"; "car_miles";
    "public_transit_miles"; "flights_short_haul"; "flights_long_haul";
    "meat_servings"; "dairy_servings"; "veg_servings" ].

(** Two dictionaries added key by key. *)
Definition data_plus (d1 d2 : gmap string Q) : gmap string Q :=
  union_with (fun x y => Some (x + y)%Q) d1 d2.

(** A computation that ends without an exception in every world. *)
Definition returns {A R} (m : M A R) : Prop :=
  forall w, exists r, fst (m w) = Ret r.

(** A property of the [users] table that a step keeps. *)
Definition keeps_users {A} (P : list user_row -> Prop) : relation (database A) :=
  fun d d' => P (users d) -> P (users d').

(** Ids, user names and emails identify an account. *)
Definition users_distinct (us : list user_row) : Prop :=
  NoDup (users_id <$> us) /\ NoDup (username <$> us) /\ NoDup (email <$> us).

(** Only the account named [admin] is an administrator, and every stored
    password is a digest. *)
Definition accounts_safe (hash_password : string -> string) (us : list user_row) : Prop :=
  Forall (fun u => (is_admin u = true -> username u = "admin") /\
                   exists p, password u = hash_password p) us.

(** A property of the [user_streaks] table that a step keeps. *)
Definition keeps_streaks {A} (P : list streak_row -> Prop) : relation (database A) :=
  fun d d' => P (user_streaks d) -> P (user_streaks d').

(** The counters of a streak record fit together: nothing is negative, the
    current streak is at most the longest, the longest at most the number of
    entries; a record without a date has counted nothing, one with a date
    has a current streak of at least one day. *)
Definition streak_counts_ok (r : streak_row) : Prop :=
  0 <= current_streak r /\ current_streak r <= longest_streak r /\
  longest_streak r <= total_entries r /\
  match last_entry_date r with
  | None => total_entries r = 0
  | Some _ => 1 <= current_streak r
  end.

(** The rows of [user_id] rewritten by the [UPDATE] of [update_user_streak],
    from the record [r] it read and the new current streak. *)
Definition rewritten (user_id : Z) (r : streak_row) (current entry_date : Z)
    (rows : list streak_row) : list streak_row :=
  (fun x => if decide (streak_user_id x = user_id)
            then {| streak_user_id := streak_user_id x;
                    current_streak := current;
                    longest_streak := Z.max (longest_streak r) current;
                    last_entry_date := Some entry_date;
                    total_entries := total_entries r + 1 |}
            else x) <$> rows.

(** [k] days in a row, from day [n] on. *)
Definition days_from (n : Z) (k : nat) : list Z :=
  (fun i => n + Z.of_nat i) <$> seq 0 k.

(** A stored row none of whose ten quantities is negative. *)
Definition row_nonneg (r : footprint_row Q) : Prop :=
  (0 <= electricity_kwh r /\ 0 <= natural_gas_therms r /\ 0 <= water_gallons r /\
   0 <= car_miles r /\ 0 <= public_transit_miles r /\ 0 <= flights_short_haul r /\
   0 <= flights_long_haul r /\ 0 <= meat_servings r /\ 0 <= dairy_servings r /\
   0 <= veg_servings r)%Q.

(** * Properties *)

(** ** Worlds without faults *)

Lemma no_fault_tail fs : no_fault fs = true -> no_fault (tail fs) = true.
Proof. destruct fs as [|b fs]; simpl; [done|]. by intros [_ ?]%andb_prop. Qed.

Lemma no_fault_head fs : no_fault fs = true -> head fs <> Some true.
Proof. destruct fs as [|[] fs]; simpl; congruence. Qed.

(** Closes the side conditions of a step of a run without faults. *)
Local Ltac fault_free :=
  first [done | by apply no_fault_head; repeat apply no_fault_tail].

Section MonadFacts.
Context {A : Type}.

Lemma run_query_ok {R} (stmt : statement A R) (d d' : database A) (r : R) fs :
  head fs <> Some true ->
  stmt d = Some (r, d') ->
  run_query stmt true {| db := d; faults := fs |}
  = (Ret (Some r), {| db := d'; faults := tail fs |}).
Proof.
  intros Hh Hs. unfold run_query, try_except, mbind, M_bind, execute; simpl.
  destruct (head fs) as [[]|]; [congruence| |]; by rewrite Hs.
Qed.

(** A statement that runs: what it wrote is there whether its commit goes
    through or raises. *)
Lemma run_query_commit_ok {R} (stmt : statement A R) (d d' : database A) (r : R) fs :
  head fs <> Some true ->
  stmt d = Some (r, d') ->
  run_query stmt false {| db := d; faults := fs |}
  = (Ret None, {| db := d'; faults := tail (tail fs) |}).
Proof.
  intros Hh Hs. unfold run_query, try_except, mbind, M_bind, execute, commit; simpl.
  destruct (head fs) as [[]|]; [congruence| |]; rewrite Hs; simpl;
    by destruct (head (tail fs)) as [[]|].
Qed.

Lemma run_query_fault {R} (stmt : statement A R) fetch (d : database A) fs :
  run_query stmt fetch {| db := d; faults := true :: fs |}
  = (Ret None, {| db := d; faults := fs |}).
Proof. reflexivity. Qed.

(** A statement the database refuses, with or without a commit after it. *)
Lemma run_query_refused {R} (stmt : statement A R) fetch (d : database A) fs :
  stmt d = None ->
  run_query stmt fetch {| db := d; faults := fs |}
  = (Ret None, {| db := d; faults := tail fs |}).
Proof.
  intros Hs. unfold run_query, try_except, mbind, M_bind, execute; simpl.
  destruct (head fs) as [[]|]; [done| |]; by rewrite Hs.
Qed.

(** [run_query] never raises, and it changes the tables only as its
    statement does. *)
Lemma run_query_cases {R} (stmt : statement A R) (w : world A) :
  (exists r d', stmt (db w) = Some (r, d') /\
      run_query stmt true w = (Ret (Some r), {| db := d'; faults := tail (faults w) |})) \/
  run_query stmt true w = (Ret None, {| db := db w; faults := tail (faults w) |}).
Proof.
  unfold run_query, try_except, mbind, M_bind, execute; simpl.
  destruct (head (faults w)) as [[]|]; [by right| |];
    (destruct (stmt (db w)) as [[r d']|]; [left; by exists r, d' | by right]).
Qed.

(** Without [fetch] the result is [None] in every case, and what the
    statement wrote is there whether or not its commit went through. *)
Lemma run_query_commit_cases {R} (stmt : statement A R) (w : world A) :
  (exists r d', stmt (db w) = Some (r, d') /\ head (faults w) <> Some true /\
      run_query stmt false w = (Ret None, {| db := d'; faults := tail (tail (faults w)) |})) \/
  ((head (faults w) = Some true \/ stmt (db w) = None) /\
   run_query stmt false w = (Ret None, {| db := db w; faults := tail (faults w) |})).
Proof.
  unfold run_query, try_except, mbind, M_bind, execute, commit; simpl.
  destruct (head (faults w)) as [[]|] eqn:Hh; [right; split; [by left|done]| |];
    (destruct (stmt (db w)) as [[r d']|]; simpl;
     [left; exists r, d'; split; [done|split; [done|]];
      by destruct (head (tail (faults w))) as [[]|]
     |right; split; [by right|done]]).
Qed.

(** Either way [run_query] returns, and leaves the tables as they were or
    as its statement makes them. *)
Lemma run_query_any {R} (stmt : statement A R) fetch (w : world A) :
  exists o fs',
    run_query stmt fetch w = (Ret o, {| db := db w; faults := fs' |}) \/
    exists r d', stmt (db w) = Some (r, d') /\
      run_query stmt fetch w = (Ret o, {| db := d'; faults := fs' |}).
Proof.
  destruct fetch.
  - destruct (run_query_cases stmt w) as [(r & d' & Hs & ->) | ->].
    + eexists _, _. right. by exists r, d'.
    + eexists _, _. by left.
  - destruct (run_query_commit_cases stmt w) as [(r & d' & Hs & _ & ->) | [_ ->]].
    + eexists _, _. right. by exists r, d'.
    + eexists _, _. by left.
Qed.
End MonadFacts.

(** ** The streak record of a user *)

Section StreakFacts.
Context {A : Type}.

Lemma streak_of_user (d : database A) u r : streak_of d u = Some r -> streak_user_id r = u.
Proof.
  unfold streak_of, streaks_of. intros Hr.
  assert (r ∈ filter (fun r => streak_user_id r = u) (user_streaks d)) as Hin.
  { destruct (filter _ _) as [|x l]; simplify_eq/=. left. }
  by apply list_elem_of_filter in Hin as [? _].
Qed.

(** What rewriting the rows of one user does to the rows a [SELECT]
    returns, for that user and for another. *)
Lemma filter_replace_same (l : list streak_row) u r' :
  streak_user_id r' = u ->
  filter (fun r => streak_user_id r = u)
    ((fun x => if decide (streak_user_id x = u) then r' else x) <$> l)
  = (fun _ => r') <$> filter (fun r => streak_user_id r = u) l.
Proof.
  intros Hr'. induction l as [|x xs IH]; [done|].
  rewrite fmap_cons, !filter_cons. destruct (decide (streak_user_id x = u)) as [Hx|Hx].
  - rewrite decide_True by done. by rewrite fmap_cons, IH.
  - by rewrite decide_False by done.
Qed.

Lemma filter_replace_other (l : list streak_row) u v r' :
  v <> u ->
  streak_user_id r' = u ->
  filter (fun r => streak_user_id r = v)
    ((fun x => if decide (streak_user_id x = u) then r' else x) <$> l)
  = filter (fun r => streak_user_id r = v) l.
Proof.
  intros Hv Hr'. induction l as [|x xs IH]; [done|].
  rewrite fmap_cons, !filter_cons. destruct (decide (streak_user_id x = u)) as [Hx|Hx].
  - rewrite !decide_False by congruence. apply IH.
  - by rewrite IH.
Qed.

(** The effect of [update_user_streak] when no statement fails, case by
    case on the record found. *)
Lemma update_user_streak_create (d : database A) u e fs :
  no_fault fs = true ->
  streak_of d u = None ->
  exists fs', no_fault fs' = true /\
    update_user_streak u e {| db := d; faults := fs |}
    = (Ret tt, {| db := set_user_streaks (user_streaks d ++ [first_streak u e]) d;
                  faults := fs' |}).
Proof.
  intros Hfs Hnone. exists (tail (tail (tail fs))). split; [by do 3 apply no_fault_tail|].
  unfold update_user_streak, mbind, M_bind.
  rewrite (run_query_ok _ d d (streaks_of d u)) by (by apply no_fault_head || done).
  unfold streak_of in Hnone. destruct (streaks_of d u); [|done].
  by rewrite (run_query_commit_ok _ d _ tt) by fault_free.
Qed.

Lemma update_user_streak_same_day (d : database A) u e r fs :
  no_fault fs = true ->
  streak_of d u = Some r ->
  last_entry_date r = Some e ->
  update_user_streak u e {| db := d; faults := fs |}
  = (Ret tt, {| db := d; faults := tail fs |}).
Proof.
  intros Hfs Hr Hlast.
  unfold update_user_streak, mbind, M_bind.
  rewrite (run_query_ok _ d d (streaks_of d u)) by (by apply no_fault_head || done).
  unfold streak_of in Hr. destruct (streaks_of d u) as [|r0 rs]; simplify_eq/=.
  rewrite Hlast, Z.sub_diag. done.
Qed.

Lemma update_user_streak_count (d : database A) u e r fs :
  no_fault fs = true ->
  streak_of d u = Some r ->
  last_entry_date r <> Some e ->
  let current :=
    match last_entry_date r with
    | Some last => if e - last =? 1 then current_streak r + 1 else 1
    | None => 1
    end in
  exists d' fs', no_fault fs' = true /\
    update_user_streak u e {| db := d; faults := fs |} = (Ret tt, {| db := d'; faults := fs' |}) /\
    users d' = users d /\ carbon_footprint d' = carbon_footprint d /\
    streaks_of d' u = (fun _ => counted r current e) <$> streaks_of d u /\
    (forall v, v <> u -> streaks_of d' v = streaks_of d v).
Proof.
  intros Hfs Hr Hlast current.
  pose proof (streak_of_user _ _ _ Hr) as Hu.
  set (d' := set_user_streaks
    ((fun x => if decide (streak_user_id x = u) then counted r current e else x)
       <$> user_streaks d) d).
  exists d', (tail (tail (tail fs))). split; [by do 3 apply no_fault_tail|].
  assert (Hupd : update_streaks current (Z.max (longest_streak r) current) e
                   (total_entries r + 1) u d = Some (tt, d')).
  { unfold update_streaks, d'. do 3 f_equal. apply list_fmap_ext. intros _ x _.
    destruct (decide _) as [Hx|]; [|done]. unfold counted. by rewrite Hu, Hx. }
  split; [|split; [done|split; [done|split]]].
  - unfold update_user_streak, mbind, M_bind.
    rewrite (run_query_ok _ d d (streaks_of d u)) by (by apply no_fault_head || done).
    unfold streak_of in Hr. destruct (streaks_of d u) as [|r0 rs]; simplify_eq/=.
    fold current. destruct (last_entry_date r) as [last|] eqn:Hl.
    + destruct (e - last =? 1) eqn:H1.
      * by rewrite (run_query_commit_ok _ d d' tt) by fault_free.
      * destruct (e - last =? 0) eqn:H0.
        { apply Z.eqb_eq in H0. exfalso. apply Hlast. f_equal. lia. }
        by rewrite (run_query_commit_ok _ d d' tt) by fault_free.
    + by rewrite (run_query_commit_ok _ d d' tt) by fault_free.
  - apply filter_replace_same. by simpl.
  - intros v Hv. apply filter_replace_other; by simpl.
Qed.

Lemma update_user_streak_next (d : database A) u e fs :
  no_fault fs = true ->
  exists d' fs', no_fault fs' = true /\
    update_user_streak u e {| db := d; faults := fs |} = (Ret tt, {| db := d'; faults := fs' |}) /\
    streak_of d' u = next_streak u e (streak_of d u).
Proof.
  intros Hfs. destruct (streak_of d u) as [r|] eqn:Hr.
  - destruct (decide (last_entry_date r = Some e)) as [Hl|Hl].
    + exists d, (tail fs). split; [by apply no_fault_tail|].
      split; [by eapply update_user_streak_same_day|].
      rewrite Hr. simpl. by rewrite Hl, Z.sub_diag.
    + destruct (update_user_streak_count d u e r fs Hfs Hr Hl)
        as (d' & fs' & Hfs' & Hrun & _ & _ & Hsame & _).
      exists d', fs'. split; [done|]. split; [done|].
      unfold streak_of in *. rewrite Hsame. simpl.
      destruct (streaks_of d u) as [|r0 rs]; simplify_eq/=.
      destruct (last_entry_date r) as [last|]; [|done].
      destruct (e - last =? 1); [done|].
      destruct (e - last =? 0) eqn:H0; [|done].
      apply Z.eqb_eq in H0. exfalso. apply Hl. f_equal. lia.
  - destruct (update_user_streak_create d u e fs Hfs Hr) as (fs' & Hfs' & Hrun).
    eexists _, fs'. split; [done|]. split; [done|].
    unfold streak_of, streaks_of in *. simpl. rewrite filter_app.
    destruct (filter _ (user_streaks d)); [|done].
    simpl. rewrite filter_cons, decide_True by done. done.
Qed.

Lemma record_entries_next u dates : forall (d : database A) fs,
  no_fault fs = true ->
  streak_of (db (record_entries u dates {| db := d; faults := fs |})) u
  = foldl (fun o e => next_streak u e o) (streak_of d u) dates.
Proof.
  induction dates as [|e es IH]; intros d fs Hfs; [done|].
  destruct (update_user_streak_next d u e fs Hfs) as (d' & fs' & Hfs' & Hrun & Hnext).
  simpl. rewrite Hrun. simpl. rewrite (IH d' fs' Hfs'). by rewrite Hnext.
Qed.
End StreakFacts.

Lemma next_streak_last_date u e o :
  exists r, next_streak u e o = Some r /\ last_entry_date r = Some e.
Proof.
  destruct o as [r|]; simpl; [|by eexists].
  destruct (last_entry_date r) as [last|] eqn:Hl; [|by eexists].
  destruct (e - last =? 1); [by eexists|].
  destruct (e - last =? 0) eqn:H0; [|by eexists].
  exists r. split; [done|]. rewrite Hl. f_equal. apply Z.eqb_eq in H0. lia.
Qed.

(** ** Streak transitions *)

(** C1.  For a user whose streak record [r] has last entry date [last], and
    with no failing statement, [update_user_streak u e] makes the record
    [current_streak r + 1] (with the longest streak raised to it if needed,
    one more total entry and last date [e]) when [e - last = 1]; leaves the
    whole database as it was when [e - last = 0]; and makes the current
    streak 1, again with one more total entry and last date [e], for every
    other difference, negative ones included.  So entries on three
    consecutive days, for a user without a record or with the record made at
    registration, give current 3, longest 3 and 3 entries, and entries on
    days [n], [n+1], [n+4] give current 1, longest 2. *)
Theorem update_user_streak_transitions {A} :
  (forall (d : database A) (u e last : Z) (r : streak_row) (fs : list bool),
     no_fault fs = true ->
     streak_of d u = Some r ->
     last_entry_date r = Some last ->
     let d' := db (snd (update_user_streak u e {| db := d; faults := fs |})) in
     (e - last = 1 ->
        streak_of d' u =
          Some {| streak_user_id := u;
                  current_streak := current_streak r + 1;
                  longest_streak := Z.max (longest_streak r) (current_streak r + 1);
                  last_entry_date := Some e;
                  total_entries := total_entries r + 1 |}) /\
     (e - last = 0 -> d' = d) /\
     (e - last <> 1 -> e - last <> 0 ->
        streak_of d' u =
          Some {| streak_user_id := u;
                  current_streak := 1;
                  longest_streak := Z.max (longest_streak r) 1;
                  last_entry_date := Some e;
                  total_entries := total_entries r + 1 |})) /\
  (forall (d : database A) (u n : Z) (fs : list bool),
     no_fault fs = true ->
     streak_of d u = None \/ streak_of d u = Some (default_streak u) ->
     streak_of (db (record_entries u [n; n + 1; n + 2] {| db := d; faults := fs |})) u =
       Some {| streak_user_id := u; current_streak := 3; longest_streak := 3;
               last_entry_date := Some (n + 2); total_entries := 3 |} /\
     streak_of (db (record_entries u [n; n + 1; n + 4] {| db := d; faults := fs |})) u =
       Some {| streak_user_id := u; current_streak := 1; longest_streak := 2;
               last_entry_date := Some (n + 4); total_entries := 3 |}).
Proof.
  split.
  - intros d u e last r fs Hfs Hr Hl d'.
    destruct (update_user_streak_next d u e fs Hfs) as (d1 & fs1 & _ & Hrun & Hnext).
    assert (d' = d1) as -> by (subst d'; by rewrite Hrun).
    pose proof (streak_of_user _ _ _ Hr) as Hu.
    rewrite Hr in Hnext. simpl in Hnext. rewrite Hl in Hnext.
    split; [|split].
    + intros H1. rewrite Hnext. apply Z.eqb_eq in H1. rewrite H1.
      unfold counted. by rewrite Hu.
    + intros H0.
      rewrite (update_user_streak_same_day d u e r fs Hfs Hr) in Hrun; [by simplify_eq|].
      rewrite Hl. f_equal. lia.
    + intros H1 H0. rewrite Hnext.
      apply Z.eqb_neq in H1, H0. rewrite H1, H0. unfold counted. by rewrite Hu.
  - intros d u n fs Hfs Hstart.
    rewrite !record_entries_next by done.
    assert (Hd1 : (n + 1 - n =? 1) = true) by (apply Z.eqb_eq; lia).
    assert (Hd2 : (n + 2 - (n + 1) =? 1) = true) by (apply Z.eqb_eq; lia).
    assert (Hd3 : (n + 4 - (n + 1) =? 1) = false) by (apply Z.eqb_neq; lia).
    assert (Hd4 : (n + 4 - (n + 1) =? 0) = false) by (apply Z.eqb_neq; lia).
    destruct Hstart as [-> | ->]; simpl; rewrite Hd1; simpl; rewrite ?Hd2, ?Hd3, ?Hd4; done.
Qed.

Lemma update_user_streak_transitions_witness :
  streak_of (db (snd (update_user_streak 7 11 {| db := sample_db; faults := [false; false] |}))) 7
  = Some {| streak_user_id := 7; current_streak := 3; longest_streak := 4;
            last_entry_date := Some 11; total_entries := 6 |}.
Proof.
  apply (proj1 (proj1 update_user_streak_transitions sample_db 7 11 10 sample_streak
                  [false; false] eq_refl eq_refl eq_refl)).
  reflexivity.
Defined.

(** C6.  Without failing statements, a second [update_user_streak u e] right
    after a first one changes nothing in the database, whatever the record
    was before; and when [e] already is the record's last entry date the
    first call changes nothing either. *)
Theorem update_user_streak_idempotent {A} (d : database A) (u e : Z) (fs : list bool) :
  no_fault fs = true ->
  let w1 := snd (update_user_streak u e {| db := d; faults := fs |}) in
  let w2 := snd (update_user_streak u e w1) in
  db w2 = db w1 /\
  streak_of (db w2) u = streak_of (db w1) u /\
  (forall r, streak_of d u = Some r -> last_entry_date r = Some e ->
     db w1 = d /\ db w2 = d).
Proof.
  intros Hfs w1 w2.
  destruct (update_user_streak_next d u e fs Hfs) as (d1 & fs1 & Hfs1 & Hrun & Hnext).
  destruct (next_streak_last_date u e (streak_of d u)) as (r1 & Hr1 & Hl1).
  rewrite Hr1 in Hnext.
  assert (Hw1 : w1 = {| db := d1; faults := fs1 |}) by (subst w1; by rewrite Hrun).
  assert (Hw2 : db w2 = d1).
  { subst w2. rewrite Hw1.
    by rewrite (update_user_streak_same_day d1 u e r1 fs1 Hfs1 Hnext Hl1). }
  rewrite Hw2, Hw1. simpl. split; [done|]. split; [done|].
  intros r Hr Hl.
  rewrite (update_user_streak_same_day d u e r fs Hfs Hr Hl) in Hrun. by simplify_eq.
Qed.

Lemma update_user_streak_idempotent_witness :
  let w1 := snd (update_user_streak 7 10 {| db := sample_db; faults := [] |}) in
  let w2 := snd (update_user_streak 7 10 w1) in
  db w2 = db w1 /\
  streak_of (db w2) 7 = streak_of (db w1) 7 /\
  (forall r, streak_of sample_db 7 = Some r -> last_entry_date r = Some 10 ->
     db w1 = sample_db /\ db w2 = sample_db).
Proof.
  apply (update_user_streak_idempotent sample_db 7 10 []). reflexivity.
Defined.

(** ** Relations kept by every computation *)

Section Respect.
Context {A : Type} (Rel : relation (database A)) `{!PreOrder Rel}.

Lemma respects_ret {R} (r : R) : respects Rel (mret r : M A R).
Proof. intros w. simpl. reflexivity. Qed.

Lemma respects_bind {R1 R2} (c : M A R1) (k : R1 -> M A R2) :
  respects Rel c -> (forall r, respects Rel (k r)) -> respects Rel (c ≫= k).
Proof.
  intros Hc Hk w. unfold mbind, M_bind. specialize (Hc w).
  destruct (c w) as [[r|] w1]; simpl in *; [|done].
  etrans; [exact Hc|]. apply Hk.
Qed.

Lemma respects_try_except {R} (body handler : M A R) :
  respects Rel body -> respects Rel handler -> respects Rel (try_except body handler).
Proof.
  intros Hb Hh w. unfold try_except. specialize (Hb w).
  destruct (body w) as [[r|] w1]; simpl in *; [done|].
  etrans; [exact Hb|]. apply Hh.
Qed.

Lemma respects_run_query {R} (s : statement A R) fetch :
  statement_respects Rel s -> respects Rel (run_query s fetch).
Proof.
  intros Hs w.
  destruct (run_query_any s fetch w) as (o & fs' & [-> | (r & d' & Hd & ->)]); simpl.
  - reflexivity.
  - by eapply Hs.
Qed.

Lemma query_respects {R} (f : database A -> R) : statement_respects Rel (query R f).
Proof. intros d r d' [= _ <-]. reflexivity. Qed.
End Respect.

#[export] Instance keeps_streaks_ok_preorder {A} : PreOrder (@keeps_streaks_ok A).
Proof.
  split.
  - intros d Hd. exact Hd.
  - intros d1 d2 d3 H12 H23 H1. apply H23, H12, H1.
Qed.

#[export] Instance appends_entries_preorder {A} : PreOrder (@appends_entries A).
Proof.
  split.
  - intros d. unfold appends_entries. reflexivity.
  - intros d1 d2 d3 H12 H23. unfold appends_entries in *. by etrans.
Qed.

(** A relation kept by the statements that write is kept by every function
    built from them, and so by every run. *)
Section FunctionsRespect.
Context {A : Type} `{PyNum A} (Rel : relation (database A)) `{!PreOrder Rel}.
Variable hash_password : string -> string.
Hypothesis insert_streak_ok :
  forall r, streak_ok r -> statement_respects Rel (insert_streak (A := A) r).
Hypothesis update_streaks_ok :
  forall c l e t u, c <= l -> statement_respects Rel (update_streaks (A := A) c l e t u).
Hypothesis insert_footprint_ok :
  forall r, statement_respects Rel (insert_footprint (A := A) r).
Hypothesis insert_user_ok :
  forall n p m f l a, statement_respects Rel (insert_user (A := A) n p m f l a).
Hypothesis update_password_ok :
  forall p u, statement_respects Rel (update_password (A := A) p u).
Hypothesis update_profile_ok :
  forall f l b p m u, statement_respects Rel (update_profile (A := A) f l b p m u).
Hypothesis init_database_ok :
  forall d, Rel d (init_database hash_password d).

Lemma update_user_streak_respects u e : respects Rel (update_user_streak (A := A) u e).
Proof.
  unfold update_user_streak.
  apply respects_bind; [done | apply respects_run_query, query_respects; done |].
  intros [[|r rs]|].
  - apply respects_bind; [done| |intros; by apply respects_ret].
    apply respects_run_query; [done|]. apply insert_streak_ok. unfold streak_ok. simpl. lia.
  - destruct (last_entry_date r) as [last|].
    + destruct (e - last =? 1).
      * apply respects_bind; [done| |intros; by apply respects_ret].
        apply respects_run_query; [done|]. apply update_streaks_ok. lia.
      * destruct (e - last =? 0); [by apply respects_ret|].
        apply respects_bind; [done| |intros; by apply respects_ret].
        apply respects_run_query; [done|]. apply update_streaks_ok. lia.
    + apply respects_bind; [done| |intros; by apply respects_ret].
      apply respects_run_query; [done|]. apply update_streaks_ok. lia.
  - apply respects_bind; [done| |intros; by apply respects_ret].
    apply respects_run_query; [done|]. apply insert_streak_ok. unfold streak_ok. simpl. lia.
Qed.

Lemma save_carbon_footprint_respects today u data :
  respects Rel (save_carbon_footprint today u data).
Proof.
  unfold save_carbon_footprint.
  apply respects_try_except; [done| |by apply respects_ret].
  apply respects_bind; [done|by apply respects_run_query|intros _].
  apply respects_bind; [done|apply update_user_streak_respects|intros _].
  by apply respects_ret.
Qed.

Lemma get_user_footprint_history_respects u :
  respects Rel (get_user_footprint_history (A := A) u).
Proof.
  unfold get_user_footprint_history.
  apply respects_bind; [done|apply respects_run_query, query_respects; done|intros r].
  by apply respects_ret.
Qed.

Lemma get_dashboard_stats_respects today u : respects Rel (get_dashboard_stats today u).
Proof.
  unfold get_dashboard_stats.
  apply respects_bind; [done|apply get_user_footprint_history_respects|intros [|r rs]];
    by apply respects_ret.
Qed.

Lemma get_user_streak_respects u : respects Rel (get_user_streak (A := A) u).
Proof.
  unfold get_user_streak.
  apply respects_bind; [done|apply respects_run_query, query_respects; done|intros r].
  by apply respects_ret.
Qed.

Lemma register_user_respects n p m f l :
  respects Rel (register_user (A := A) hash_password n p m f l).
Proof.
  unfold register_user.
  apply respects_bind; [done|apply respects_run_query, query_respects; done|intros r].
  destruct (match r with Some count => 0 <? count | None => false end);
    [by apply respects_ret|].
  apply respects_try_except; [done| |by apply respects_ret].
  apply respects_bind; [done|by apply respects_run_query|intros _].
  apply respects_bind; [done|apply respects_run_query, query_respects; done|].
  intros [[|uid ids]|]; try by apply respects_ret.
  apply respects_bind; [done| |intros; by apply respects_ret].
  apply respects_run_query; [done|]. apply insert_streak_ok. unfold streak_ok. simpl. lia.
Qed.

Lemma change_password_respects u old new :
  respects Rel (change_password (A := A) hash_password u old new).
Proof.
  unfold change_password.
  apply respects_bind; [done|apply respects_run_query, query_respects; done|intros r].
  destruct (match r with Some count => count =? 0 | None => true end);
    [by apply respects_ret|].
  apply respects_try_except; [done| |by apply respects_ret].
  apply respects_bind; [done|by apply respects_run_query|intros _].
  by apply respects_ret.
Qed.

Lemma update_user_profile_respects u f l b p m :
  respects Rel (update_user_profile (A := A) u f l b p m).
Proof.
  unfold update_user_profile.
  apply respects_try_except; [done| |by apply respects_ret].
  apply respects_bind; [done|by apply respects_run_query|intros _].
  by apply respects_ret.
Qed.

Lemma run_call_respects c w : Rel (db w) (db (run_call hash_password c w)).
Proof.
  destruct c; simpl.
  - apply init_database_ok.
  - apply register_user_respects.
  - apply change_password_respects.
  - apply update_user_profile_respects.
  - apply save_carbon_footprint_respects.
  - apply update_user_streak_respects.
  - apply get_user_footprint_history_respects.
  - apply get_dashboard_stats_respects.
  - apply get_user_streak_respects.
Qed.

Lemma run_calls_respects cs : forall w, Rel (db w) (db (run_calls hash_password cs w)).
Proof.
  induction cs as [|c cs IH]; intros w; simpl; [reflexivity|].
  etrans; [apply (run_call_respects c)|]. apply IH.
Qed.
End FunctionsRespect.

(** ** The streak invariant *)

Section StreakInvariant.
Context {A : Type}.

Lemma insert_streak_keeps r :
  streak_ok r -> statement_respects keeps_streaks_ok (insert_streak (A := A) r).
Proof.
  intros Hr d x d' [= _ <-] Hd. unfold streaks_ok in *. simpl.
  apply Forall_app. split; [done|]. by apply Forall_singleton.
Qed.

Lemma update_streaks_keeps c l e t u :
  c <= l -> statement_respects keeps_streaks_ok (update_streaks (A := A) c l e t u).
Proof.
  intros Hcl d x d' [= _ <-] Hd. unfold streaks_ok in *. simpl.
  apply Forall_fmap. eapply Forall_impl; [exact Hd|].
  intros r Hr. simpl. by destruct (decide _).
Qed.

Lemma insert_footprint_keeps r :
  statement_respects keeps_streaks_ok (insert_footprint (A := A) r).
Proof. by intros d x d' [= _ <-] Hd. Qed.

Lemma insert_user_keeps n p m f l a :
  statement_respects keeps_streaks_ok (insert_user (A := A) n p m f l a).
Proof.
  intros d x d' Hs Hd. unfold insert_user in Hs.
  destruct (decide _); [done|]. by simplify_eq.
Qed.

Lemma update_password_keeps p u :
  statement_respects keeps_streaks_ok (update_password (A := A) p u).
Proof. by intros d x d' [= _ <-] Hd. Qed.

Lemma update_profile_keeps f l b p m u :
  statement_respects keeps_streaks_ok (update_profile (A := A) f l b p m u).
Proof.
  intros d x d' Hs Hd. unfold update_profile in Hs.
  destruct (decide _); [done|]. by simplify_eq.
Qed.

Lemma init_database_keeps hash (d : database A) :
  keeps_streaks_ok d (init_database hash d).
Proof.
  intros Hd. unfold init_database. destruct (decide _); [done|].
  destruct (insert_user _ _ _ _ _ _ d) as [[uid d1]|] eqn:Hi; [|done].
  apply insert_user_keeps in Hi. specialize (Hi Hd).
  unfold streaks_ok in *. simpl. apply Forall_app. split; [done|].
  apply Forall_singleton. unfold streak_ok. simpl. lia.
Qed.
End StreakInvariant.

(** C7.  [current_streak <= longest_streak] holds for every row of
    [user_streaks] in every database a run can reach, whatever statements
    fail on the way: the rows made at registration and at the first entry
    satisfy it, and [update_user_streak] keeps it for any entry date. *)
Theorem longest_streak_invariant {A} `{PyNum A} (hash_password : string -> string) :
  (forall (d : database A),
     reachable hash_password d ->
     forall r, r ∈ user_streaks d -> current_streak r <= longest_streak r) /\
  (forall u e, current_streak (default_streak u) <= longest_streak (default_streak u) /\
               current_streak (first_streak u e) <= longest_streak (first_streak u e)) /\
  (forall (d : database A) (u e : Z) (fs : list bool),
     (forall r, r ∈ user_streaks d -> current_streak r <= longest_streak r) ->
     forall r, r ∈ user_streaks (db (snd (update_user_streak u e {| db := d; faults := fs |}))) ->
     current_streak r <= longest_streak r).
Proof.
  split; [|split].
  - intros d (cs & fs & <-) r Hr.
    pose proof (run_calls_respects keeps_streaks_ok hash_password
      insert_streak_keeps update_streaks_keeps insert_footprint_keeps insert_user_keeps
      update_password_keeps update_profile_keeps (init_database_keeps hash_password)
      cs {| db := empty_database; faults := fs |}) as Hrun.
    assert (Hall : streaks_ok (db (run_calls hash_password cs
                      {| db := empty_database; faults := fs |}))).
    { apply Hrun. unfold streaks_ok. simpl. constructor. }
    unfold streaks_ok in Hall. rewrite Forall_forall in Hall. by apply Hall.
  - intros u e. simpl. lia.
  - intros d u e fs Hd r Hr.
    pose proof (update_user_streak_respects keeps_streaks_ok
      insert_streak_keeps update_streaks_keeps u e {| db := d; faults := fs |}) as Hrun.
    assert (Hall : streaks_ok (db (snd (update_user_streak u e {| db := d; faults := fs |})))).
    { apply Hrun. unfold streaks_ok. simpl. by rewrite Forall_forall. }
    unfold streaks_ok in Hall. rewrite Forall_forall in Hall. by apply Hall.
Qed.

Lemma longest_streak_invariant_witness :
  let r := {| streak_user_id := 1; current_streak := 1; longest_streak := 1;
              last_entry_date := Some 6; total_entries := 1 |} in
  let d := db (run_calls (fun s => s)
                 [CInit; CRecordEntry 1 5; CRecordEntry 1 6]
                 {| db := empty_database (A := Q); faults := [true; false] |}) in
  reachable (fun s => s) d /\ r ∈ user_streaks d /\ current_streak r <= longest_streak r.
Proof.
  intros r d.
  assert (Hd : reachable (fun s => s) d).
  { by exists [CInit; CRecordEntry 1 5; CRecordEntry 1 6], [true; false]. }
  assert (Hr : r ∈ user_streaks d).
  { vm_compute. apply list_elem_of_here. }
  split; [exact Hd|]. split; [exact Hr|].
  exact (proj1 (longest_streak_invariant (fun s => s)) d Hd r Hr).
Defined.

(** ** Registration and the first entry *)

Lemma filter_none {B} (P : B -> Prop) `{!forall x, Decision (P x)} (l : list B) :
  ~ Exists P l -> filter P l = [].
Proof.
  induction l as [|x xs IH]; intros Hn; [done|].
  rewrite filter_cons. destruct (decide (P x)) as [Hx|Hx].
  - exfalso. apply Hn. by left.
  - apply IH. intros Hxs. apply Hn. by right.
Qed.

Lemma register_user_fresh {A} (hash_password : string -> string) (d : database A)
    (name pass mail first last : string) (fs : list bool) :
  no_fault fs = true ->
  ~ Exists (fun u => username u = name \/ email u = mail) (users d) ->
  exists fs',
    no_fault fs' = true /\
    register_user hash_password name pass mail first last {| db := d; faults := fs |}
    = (Ret (true, "Registration successful"),
       {| db :=
            {| users := users d ++ [
                 {| users_id := next_user_id d; username := name;
                    password := hash_password pass; email := mail;
                    first_name := first; last_name := last; bio := ""; location := "";
                    is_admin := false |}];
               carbon_footprint := carbon_footprint d;
               user_streaks := user_streaks d ++ [default_streak (next_user_id d)] |};
          faults := fs' |}).
Proof.
  intros Hfs Hfresh.
  exists (tail (tail (tail (tail (tail (tail fs)))))).
  split; [by do 6 apply no_fault_tail|].
  unfold register_user, mbind, M_bind.
  rewrite (run_query_ok _ d d 0); [|fault_free|];
    [|unfold count_users, query; by rewrite (filter_none _ _ Hfresh)].
  simpl. unfold try_except, mbind, M_bind.
  erewrite (run_query_commit_ok _ d _ (next_user_id d)); [|fault_free|];
    [|unfold insert_user; by rewrite decide_False by done].
  erewrite (run_query_ok _ _ _ [next_user_id d]); [|fault_free|]; last first.
  { unfold select_user_id, query. simpl. rewrite filter_app.
    rewrite (filter_none (fun u => username u = name)).
    - simpl. rewrite filter_cons, decide_True by done. done.
    - intros Hex. apply Hfresh. eapply Exists_impl; [exact Hex|]. intros u Hu. by left. }
  erewrite (run_query_commit_ok _ _ _ tt); [|fault_free|reflexivity].
  reflexivity.
Qed.

(** C10.  Registering a user whose name and email are free, with no failing
    statement, appends to [user_streaks] a record for the new user with
    current streak 0, longest streak 0, no last entry date and 0 entries.
    For a record without last entry date, the next [update_user_streak u e]
    sets the current streak to 1, the longest streak to the larger of its
    old value and 1, adds one to the total entries and sets the last entry
    date to [e]. *)
Theorem registration_then_first_entry {A} (hash_password : string -> string) :
  (forall (d : database A) (name pass mail first last : string) (fs : list bool),
     no_fault fs = true ->
     ~ Exists (fun u => username u = name \/ email u = mail) (users d) ->
     let res := register_user hash_password name pass mail first last
                  {| db := d; faults := fs |} in
     fst res = Ret (true, "Registration successful") /\
     Exists (fun u => users_id u = next_user_id d /\ username u = name)
       (users (db (snd res))) /\
     user_streaks (db (snd res)) =
       user_streaks d ++ [ {| streak_user_id := next_user_id d;
                              current_streak := 0;
                              longest_streak := 0;
                              last_entry_date := None;
                              total_entries := 0 |} ]) /\
  (forall (d : database A) (u e : Z) (r : streak_row) (fs : list bool),
     no_fault fs = true ->
     streak_of d u = Some r ->
     last_entry_date r = None ->
     streak_of (db (snd (update_user_streak u e {| db := d; faults := fs |}))) u =
       Some {| streak_user_id := u;
               current_streak := 1;
               longest_streak := Z.max (longest_streak r) 1;
               last_entry_date := Some e;
               total_entries := total_entries r + 1 |}).
Proof.
  split.
  - intros d name pass mail first last fs Hfs Hfresh res.
    destruct (register_user_fresh hash_password d name pass mail first last fs Hfs Hfresh)
      as (fs' & _ & Hrun).
    subst res. rewrite Hrun. simpl. split; [done|]. split; [|done].
    apply Exists_app. right. by left.
  - intros d u e r fs Hfs Hr Hl.
    destruct (update_user_streak_next d u e fs Hfs) as (d1 & fs1 & _ & Hrun & Hnext).
    rewrite Hrun. simpl. rewrite Hnext, Hr. simpl. rewrite Hl.
    unfold counted. by rewrite (streak_of_user _ _ _ Hr).
Qed.

Lemma registration_then_first_entry_witness :
  let res := register_user (fun s => s) "ada" "secret" "ada@example.org" "Ada" "L"
               {| db := empty_database (A := Q); faults := [] |} in
  let w2 := snd (update_user_streak 1 20 (snd res)) in
  user_streaks (db (snd res)) = [default_streak 1] /\
  streak_of (db w2) 1 =
    Some {| streak_user_id := 1; current_streak := 1; longest_streak := 1;
            last_entry_date := Some 20; total_entries := 1 |}.
Proof.
  intros res w2. split.
  - apply (proj1 (registration_then_first_entry (fun s => s)) empty_database
             "ada" "secret" "ada@example.org" "Ada" "L" [] eq_refl).
    by intros Hex%Exists_nil.
  - apply (proj2 (registration_then_first_entry (fun s => s)) (db (snd res)) 1 20
             (default_streak 1) (faults (snd res)) eq_refl eq_refl eq_refl).
Defined.

(** ** The calculator over exact arithmetic *)

Section CalculatorQ.
Local Open Scope Q_scope.

Lemma get_truthy_false_Q (data : gmap string Q) k :
  get_truthy data k = false -> get_or_0 data k == 0.
Proof.
  unfold get_truthy, get_or_0. destruct (data !! k) as [v|]; simpl; [|reflexivity].
  intros Hv. apply negb_false_iff in Hv. by apply Qeq_bool_eq.
Qed.

Lemma get_or_0_nonneg (data : gmap string Q) k :
  (forall k v, data !! k = Some v -> 0 <= v) -> 0 <= get_or_0 data k.
Proof.
  intros Hpos. unfold get_or_0. destruct (data !! k) as [v|] eqn:Hk; simpl.
  - by eapply Hpos.
  - apply Qle_refl.
Qed.

(** A guarded addition adds the category result whenever a falsy guard
    means a zero result. *)
Lemma guarded_add_Q (b : bool) (t x : Q) :
  (b = false -> x == 0) -> (if b then t + x else t) == t + x.
Proof. destruct b; intros Hx; [reflexivity|]. rewrite Hx by done. lra. Qed.

Lemma calculate_total_carbon_Q (data : gmap string Q) :
  calculate_total_carbon data == sum_of_categories data.
Proof.
  unfold calculate_total_carbon, sum_of_categories, category_results.
  cbn [foldl add mul div of_Z lit Q_num].
  set (e := get_or_0 data "electricity_kwh").
  set (g := get_or_0 data "natural_gas_therms").
  set (w := get_or_0 data "water_gallons").
  set (c := get_or_0 data "car_miles").
  set (p := get_or_0 data "public_transit_miles").
  set (fs := get_or_0 data "flights_short_haul").
  set (fl := get_or_0 data "flights_long_haul").
  set (m := get_or_0 data "meat_servings").
  set (dy := get_or_0 data "dairy_servings").
  set (v := get_or_0 data "veg_servings").
  assert (He : get_truthy data "electricity_kwh" = false ->
               calculate_electricity_carbon e == 0).
  { intros Hz%get_truthy_false_Q. unfold calculate_electricity_carbon. fold e in Hz.
    cbn [mul lit Q_num]. rewrite Hz. reflexivity. }
  assert (Hg : get_truthy data "natural_gas_therms" = false ->
               calculate_natural_gas_carbon g == 0).
  { intros Hz%get_truthy_false_Q. unfold calculate_natural_gas_carbon. fold g in Hz.
    cbn [mul lit Q_num]. rewrite Hz. reflexivity. }
  assert (Hw : get_truthy data "water_gallons" = false ->
               calculate_water_carbon w == 0).
  { intros Hz%get_truthy_false_Q. unfold calculate_water_carbon. fold w in Hz.
    cbn [mul lit Q_num]. rewrite Hz. reflexivity. }
  assert (Hc : get_truthy data "car_miles" = false ->
               calculate_car_carbon c (inject_Z 25) == 0).
  { intros Hz%get_truthy_false_Q. unfold calculate_car_carbon. fold c in Hz.
    cbn [mul div lit Q_num]. rewrite Hz. reflexivity. }
  assert (Hp : get_truthy data "public_transit_miles" = false ->
               calculate_public_transit_carbon p == 0).
  { intros Hz%get_truthy_false_Q. unfold calculate_public_transit_carbon. fold p in Hz.
    cbn [mul lit Q_num]. rewrite Hz. reflexivity. }
  assert (Hf : get_truthy data "flights_short_haul" || get_truthy data "flights_long_haul"
               = false -> calculate_flight_carbon fs fl == 0).
  { intros [H1%get_truthy_false_Q H2%get_truthy_false_Q]%orb_false_elim.
    unfold calculate_flight_carbon. fold fs in H1. fold fl in H2.
    cbn [add mul of_Z Q_num]. rewrite H1, H2. reflexivity. }
  assert (Hm : get_truthy data "meat_servings" || get_truthy data "dairy_servings"
               || get_truthy data "veg_servings" = false ->
               calculate_food_carbon m dy v == 0).
  { intros [[H1%get_truthy_false_Q H2%get_truthy_false_Q]%orb_false_elim
             H3%get_truthy_false_Q]%orb_false_elim.
    unfold calculate_food_carbon. fold m in H1. fold dy in H2. fold v in H3.
    cbn [add mul lit Q_num]. rewrite H1, H2, H3. reflexivity. }
  cbv zeta.
  rewrite (guarded_add_Q _ _ _ Hm), (guarded_add_Q _ _ _ Hf), (guarded_add_Q _ _ _ Hp),
    (guarded_add_Q _ _ _ Hc), (guarded_add_Q _ _ _ Hw), (guarded_add_Q _ _ _ Hg),
    (guarded_add_Q _ _ _ He).
  reflexivity.
Qed.

(** The sum of the category results, with the factors written out. *)
Lemma sum_of_categories_Q (data : gmap string Q) :
  sum_of_categories data ==
    get_or_0 data "electricity_kwh" * 0.4
    + get_or_0 data "natural_gas_therms" * 5.3
    + get_or_0 data "water_gallons" * 0.0002
    + get_or_0 data "car_miles" / 25 * 8.887
    + get_or_0 data "public_transit_miles" * 0.17
    + (get_or_0 data "flights_short_haul" * 500 + get_or_0 data "flights_long_haul" * 1600)
    + (get_or_0 data "meat_servings" * 3.0 + get_or_0 data "dairy_servings" * 0.7
       + get_or_0 data "veg_servings" * 0.2).
Proof.
  unfold sum_of_categories, category_results, calculate_electricity_carbon,
    calculate_natural_gas_carbon, calculate_water_carbon, calculate_car_carbon,
    calculate_public_transit_carbon, calculate_flight_carbon, calculate_food_carbon.
  cbn [foldl add mul div of_Z lit Q_num]. cbv zeta.
  rewrite Qplus_0_l. reflexivity.
Qed.

Lemma calculate_total_carbon_Q_nonneg (data : gmap string Q) :
  (forall k v, data !! k = Some v -> 0 <= v) -> 0 <= calculate_total_carbon data.
Proof.
  intros Hpos. rewrite calculate_total_carbon_Q, sum_of_categories_Q.
  pose proof (get_or_0_nonneg data "electricity_kwh" Hpos).
  pose proof (get_or_0_nonneg data "natural_gas_therms" Hpos).
  pose proof (get_or_0_nonneg data "water_gallons" Hpos).
  pose proof (get_or_0_nonneg data "car_miles" Hpos).
  pose proof (get_or_0_nonneg data "public_transit_miles" Hpos).
  pose proof (get_or_0_nonneg data "flights_short_haul" Hpos).
  pose proof (get_or_0_nonneg data "flights_long_haul" Hpos).
  pose proof (get_or_0_nonneg data "meat_servings" Hpos).
  pose proof (get_or_0_nonneg data "dairy_servings" Hpos).
  pose proof (get_or_0_nonneg data "veg_servings" Hpos).
  unfold Qdiv. change (/ 25) with (1 # 25). lra.
Qed.

(** A key holding zero counts as a missing key. *)
Lemma get_or_0_insert_zero (data : gmap string Q) k v k' :
  v == 0 -> get_or_0 (<[k := v]> data) k' == get_or_0 (delete k data) k'.
Proof.
  intros Hv. unfold get_or_0. destruct (decide (k = k')) as [->|Hk].
  - by rewrite lookup_insert_eq, lookup_delete_eq.
  - by rewrite lookup_insert_ne, lookup_delete_ne by done.
Qed.

Lemma calculate_total_carbon_zero_key (data : gmap string Q) k v :
  v == 0 ->
  calculate_total_carbon (<[k := v]> data) == calculate_total_carbon (delete k data).
Proof.
  intros Hv. rewrite !calculate_total_carbon_Q, !sum_of_categories_Q.
  by rewrite !(get_or_0_insert_zero data k v _ Hv).
Qed.

Lemma calculate_total_carbon_all_zero (data : gmap string Q) :
  (forall k v, data !! k = Some v -> v == 0) -> calculate_total_carbon data == 0.
Proof.
  intros Hz. rewrite calculate_total_carbon_Q, sum_of_categories_Q.
  assert (H0 : forall k, get_or_0 data k == 0).
  { intros k. unfold get_or_0. destruct (data !! k) as [v|] eqn:Hk; simpl; [|reflexivity].
    by eapply Hz. }
  rewrite !H0. reflexivity.
Qed.
End CalculatorQ.

(** ** The calculator over binary64 *)

Section CalculatorF64.
Local Abbreviation fadd := (SFadd F64.prec F64.emax).
Local Abbreviation fmul := (SFmul F64.prec F64.emax).
Local Abbreviation fdiv := (SFdiv F64.prec F64.emax).

(** Rounding keeps the sign it is given. *)
Lemma binary_round_aux_sign sx mx ex lx :
  match binary_round_aux F64.prec F64.emax sx mx ex lx with
  | S754_zero s | S754_infinity s | S754_finite s _ _ => s = sx
  | S754_nan => True
  end.
Proof.
  unfold binary_round_aux.
  destruct (shr_fexp _ _ mx ex lx) as [mrs' e'].
  destruct (shr_fexp _ _ _ e' loc_Exact) as [mrs'' e''].
  destruct (shr_m mrs''); [done| |done].
  by destruct (Z.leb _ _).
Qed.

Lemma round_false_unsigned mx ex lx :
  F64_strict (binary_round_aux F64.prec F64.emax false mx ex lx).
Proof.
  pose proof (binary_round_aux_sign false mx ex lx) as Hs.
  by destruct (binary_round_aux _ _ _ _ _ _).
Qed.

Lemma strict_unsigned x : F64_strict x -> F64_unsigned x.
Proof. by destruct x. Qed.

Lemma nonneg_unsigned x : F64_nonneg x = true -> F64_unsigned x.
Proof. by destruct x as [s|[]| |[] m e]. Qed.

Lemma fmul_factor x c : F64_unsigned x -> F64_factor c -> F64_unsigned (fmul x c).
Proof.
  destruct c as [| | |[] mc ec]; try done. intros Hx _.
  destruct x as [s|s| |s m e]; simpl in *; subst; try done.
  apply strict_unsigned, round_false_unsigned.
Qed.

Lemma fdiv_factor x c : F64_unsigned x -> F64_factor c -> F64_unsigned (fdiv x c).
Proof.
  destruct c as [| | |[] mc ec]; try done. intros Hx _.
  destruct x as [s|s| |s m e]; simpl in *; subst; try done.
  destruct (SFdiv_core_binary _ _ _ _ _ _) as [[mz ez] lz].
  apply strict_unsigned, round_false_unsigned.
Qed.

Lemma fmul_zero x c : F64_is_zero x -> F64_factor c -> F64_is_zero (fmul x c).
Proof. by destruct x, c as [| | |[] mc ec]. Qed.

Lemma fdiv_zero x c : F64_is_zero x -> F64_factor c -> F64_is_zero (fdiv x c).
Proof. by destruct x, c as [| | |[] mc ec]. Qed.

Lemma fadd_zero_zero x y : F64_is_zero x -> F64_is_zero y -> F64_is_zero (fadd x y).
Proof. by destruct x as [[]| | |], y as [[]| | |]. Qed.

Lemma fadd_finite_strict mx ex my ey :
  F64_strict (fadd (S754_finite false mx ex) (S754_finite false my ey)).
Proof.
  unfold SFadd, cond_Zopp, binary_normalize. rewrite <- Pos2Z.inj_add.
  unfold binary_round.
  match goal with
  | |- F64_strict (let '(_, _) := ?p in _) => destruct p as [mz ez]
  end.
  apply round_false_unsigned.
Qed.

Lemma fadd_unsigned x y : F64_unsigned x -> F64_unsigned y -> F64_unsigned (fadd x y).
Proof.
  destruct x as [sx|sx| |sx mx ex], y as [sy|sy| |sy my ey];
    intros Hx Hy; simpl in Hx, Hy; subst; try done.
  - by destruct sx, sy.
  - apply strict_unsigned, fadd_finite_strict.
Qed.

Lemma fadd_strict t x : F64_strict t -> F64_unsigned x -> F64_strict (fadd t x).
Proof.
  destruct t as [st|st| |st mt et], x as [sx|sx| |sx mx ex];
    intros Ht Hx; simpl in Ht, Hx; subst; try done.
  - by destruct sx.
  - apply fadd_finite_strict.
Qed.

(** Adding a zero of either sign to a total that is not [-0.0] leaves it. *)
Lemma fadd_zero_r t x : F64_strict t -> F64_is_zero x -> fadd t x = t.
Proof.
  destruct t as [st|st| |st mt et], x as [sx| | |]; intros Ht Hx; simpl in Ht; subst; try done.
  by destruct sx.
Qed.

Lemma zero_unsigned x : F64_is_zero x -> F64_unsigned x.
Proof. by destruct x. Qed.

Lemma guarded_sum_F64 (l : list (bool * spec_float)) : forall t,
  F64_strict t ->
  Forall (fun bx => F64_unsigned (snd bx) /\ (fst bx = false -> F64_is_zero (snd bx))) l ->
  guarded_sum t l = foldl fadd t (snd <$> l).
Proof.
  induction l as [|[b x] l IH]; intros t Ht Hl; [done|].
  apply Forall_cons in Hl as [[Hx Hb] Hl]. simpl in *.
  destruct b.
  - apply IH; [|done]. by apply fadd_strict.
  - rewrite (fadd_zero_r t x) by auto. by apply IH.
Qed.

Lemma get_or_0_unsigned (data : gmap string spec_float) k :
  (forall k v, data !! k = Some v -> F64_nonneg v = true) ->
  F64_unsigned (get_or_0 data k).
Proof.
  intros Hpos. unfold get_or_0. destruct (data !! k) as [v|] eqn:Hk; simpl; [|done].
  apply nonneg_unsigned. by eapply Hpos.
Qed.

Lemma get_truthy_false_F64 (data : gmap string spec_float) k :
  get_truthy data k = false -> F64_is_zero (get_or_0 data k).
Proof.
  unfold get_truthy, get_or_0. destruct (data !! k) as [v|]; simpl; [|done].
  by destruct v.
Qed.

Lemma calculate_total_carbon_F64 (data : gmap string spec_float) :
  (forall k v, data !! k = Some v -> F64_nonneg v = true) ->
  calculate_total_carbon data = sum_of_categories data.
Proof.
  intros Hpos.
  change (calculate_total_carbon data) with
    (guarded_sum (of_Z 0)
       (zip [ get_truthy data "electricity_kwh";
              get_truthy data "natural_gas_therms";
              get_truthy data "water_gallons";
              get_truthy data "car_miles";
              get_truthy data "public_transit_miles";
              get_truthy data "flights_short_haul" || get_truthy data "flights_long_haul";
              get_truthy data "meat_servings" || get_truthy data "dairy_servings"
                || get_truthy data "veg_servings" ]
            (category_results data))).
  rewrite guarded_sum_F64; [done|done|].
  pose proof (get_or_0_unsigned data) as Hu.
  pose proof (get_truthy_false_F64 data) as Hz.
  repeat apply Forall_cons_2; [..|apply Forall_nil_2]; simpl; (split; [|intros Hg]).
  - apply fmul_factor; [by apply Hu | by vm_compute].
  - apply fmul_zero; [by apply Hz | by vm_compute].
  - apply fmul_factor; [by apply Hu | by vm_compute].
  - apply fmul_zero; [by apply Hz | by vm_compute].
  - apply fmul_factor; [by apply Hu | by vm_compute].
  - apply fmul_zero; [by apply Hz | by vm_compute].
  - apply fmul_factor; [|by vm_compute]. apply fdiv_factor; [by apply Hu | by vm_compute].
  - apply fmul_zero; [|by vm_compute]. apply fdiv_zero; [by apply Hz | by vm_compute].
  - apply fmul_factor; [by apply Hu | by vm_compute].
  - apply fmul_zero; [by apply Hz | by vm_compute].
  - apply fadd_unsigned; (apply fmul_factor; [by apply Hu | by vm_compute]).
  - apply orb_false_elim in Hg as [H1 H2].
    apply fadd_zero_zero; (apply fmul_zero; [by apply Hz | by vm_compute]).
  - repeat apply fadd_unsigned; (apply fmul_factor; [by apply Hu | by vm_compute]).
  - apply orb_false_elim in Hg as [[H1 H2]%orb_false_elim H3].
    repeat apply fadd_zero_zero; (apply fmul_zero; [by apply Hz | by vm_compute]).
Qed.
(** Rounding a non-negative mantissa gives a number, never NaN. *)
Lemma shr_1_nonneg mrs : 0 <= shr_m mrs -> 0 <= shr_m (shr_1 mrs).
Proof. destruct mrs as [[|[p|p|]|p] r t]; simpl; lia. Qed.

Lemma iter_shr_1_nonneg p : forall mrs,
  0 <= shr_m mrs -> 0 <= shr_m (SpecFloat.iter_pos shr_1 p mrs).
Proof.
  induction p as [p IH|p IH|]; intros mrs Hm; simpl.
  - by apply IH, IH, shr_1_nonneg.
  - by apply IH, IH.
  - by apply shr_1_nonneg.
Qed.

Lemma shr_fexp_nonneg m e l :
  0 <= m -> 0 <= shr_m (fst (shr_fexp F64.prec F64.emax m e l)).
Proof.
  intros Hm. unfold shr_fexp, shr.
  assert (H0 : 0 <= shr_m (shr_record_of_loc m l)) by (by destruct l as [|[]]).
  destruct (_ - e) as [|p|p]; simpl; [done| |done].
  by apply iter_shr_1_nonneg.
Qed.

Lemma round_nearest_even_nonneg m l : 0 <= m -> 0 <= round_nearest_even m l.
Proof.
  intros Hm. destruct l as [|[]]; simpl; try lia.
  destruct (Z.even m); lia.
Qed.

Lemma binary_round_aux_number sx mx ex lx :
  0 <= mx -> binary_round_aux F64.prec F64.emax sx mx ex lx <> S754_nan.
Proof.
  intros Hm. unfold binary_round_aux.
  pose proof (shr_fexp_nonneg mx ex lx Hm) as H1.
  destruct (shr_fexp _ _ mx ex lx) as [mrs' e']. simpl in H1.
  pose proof (shr_fexp_nonneg _ e' loc_Exact
    (round_nearest_even_nonneg _ (loc_of_shr_record mrs') H1)) as H2.
  destruct (shr_fexp _ _ _ e' loc_Exact) as [mrs'' e'']. simpl in H2.
  destruct (shr_m mrs''); [done| |lia].
  by destruct (Z.leb _ _).
Qed.

Lemma round_false_nonneg mx ex lx :
  0 <= mx -> F64_nonneg (binary_round_aux F64.prec F64.emax false mx ex lx) = true.
Proof.
  intros Hm.
  pose proof (binary_round_aux_sign false mx ex lx) as Hs.
  pose proof (binary_round_aux_number false mx ex lx Hm) as Hn.
  destruct (binary_round_aux _ _ _ _ _ _); by subst.
Qed.

Lemma fmul_nonneg x c : F64_nonneg x = true -> F64_factor c -> F64_nonneg (fmul x c) = true.
Proof.
  destruct c as [| | |[] mc ec]; try done. intros Hx _.
  destruct x as [s|[]| |[] m e]; try done.
  by apply round_false_nonneg.
Qed.

Lemma fdiv_nonneg x c : F64_nonneg x = true -> F64_factor c -> F64_nonneg (fdiv x c) = true.
Proof.
  destruct c as [| | |[] mc ec]; try done. intros Hx _.
  destruct x as [s|[]| |[] m e]; try done.
  unfold SFdiv, SFdiv_core_binary. cbv zeta.
  match goal with
  | |- context [Z.div_eucl ?a ?b] =>
      assert (Ha : 0 <= a) by (destruct (_ - _ - _); [done| apply Z.shiftl_nonneg; lia |done]);
      pose proof (Z.div_pos a b Ha ltac:(done)) as Hq;
      unfold Z.div in Hq; destruct (Z.div_eucl a b) as [q r]
  end.
  simpl in Hq. by apply round_false_nonneg.
Qed.

Lemma fadd_nonneg x y : F64_nonneg x = true -> F64_nonneg y = true -> F64_nonneg (fadd x y) = true.
Proof.
  destruct x as [sx|[]| |[] mx ex], y as [sy|[]| |[] my ey]; try done.
  - by destruct sx, sy.
  - intros _ _. unfold SFadd, cond_Zopp, binary_normalize. rewrite <- Pos2Z.inj_add.
    unfold binary_round.
    match goal with
    | |- F64_nonneg (let '(_, _) := ?p in _) = true => destruct p as [mz ez]
    end.
    by apply round_false_nonneg.
Qed.

Lemma get_or_0_F64_nonneg (data : gmap string spec_float) k :
  (forall k v, data !! k = Some v -> F64_nonneg v = true) ->
  F64_nonneg (get_or_0 data k) = true.
Proof.
  intros Hpos. unfold get_or_0. destruct (data !! k) as [v|] eqn:Hk; simpl; [|done].
  by eapply Hpos.
Qed.

Lemma calculate_total_carbon_F64_nonneg (data : gmap string spec_float) :
  (forall k v, data !! k = Some v -> F64_nonneg v = true) ->
  F64_nonneg (calculate_total_carbon data) = true.
Proof.
  intros Hpos. rewrite calculate_total_carbon_F64 by done.
  pose proof (get_or_0_F64_nonneg data) as Hn.
  unfold sum_of_categories, category_results. cbn [foldl].
  repeat apply fadd_nonneg; try done;
    repeat first [ apply fmul_nonneg | apply fdiv_nonneg | by apply Hn | by vm_compute ].
Qed.
End CalculatorF64.

(** ** The total as the sum of the category results *)

(** C2.  For a dictionary of non-negative quantities [calculate_total_carbon]
    returns the sum of the seven category results: electricity kWh x 0.4,
    natural gas therms x 5.3, water gallons x 0.0002, car (miles / 25) x
    8.887, transit miles x 0.17, flights short x 500 + long x 1600, food meat
    x 3.0 + dairy x 0.7 + veg x 0.2, a missing quantity counting as 0.  A
    quantity that is zero contributes what a missing one does, each category
    function gives 0 on zero inputs, and the total of an all-zero dictionary
    is 0.  All of this holds over exact arithmetic; over binary64 the total
    of non-negative quantities is the left-to-right floating-point sum of
    the seven category results, and the three sample totals are 40.0, 88.87
    and 2100 in both. *)
Theorem calculate_total_carbon_sum :
  (forall data : gmap string Q,
     (forall k v, data !! k = Some v -> (0 <= v)%Q) ->
     (calculate_total_carbon data ==
        get_or_0 data "electricity_kwh" * 0.4
        + get_or_0 data "natural_gas_therms" * 5.3
        + get_or_0 data "water_gallons" * 0.0002
        + get_or_0 data "car_miles" / 25 * 8.887
        + get_or_0 data "public_transit_miles" * 0.17
        + (get_or_0 data "flights_short_haul" * 500
           + get_or_0 data "flights_long_haul" * 1600)
        + (get_or_0 data "meat_servings" * 3.0
           + get_or_0 data "dairy_servings" * 0.7
           + get_or_0 data "veg_servings" * 0.2))%Q) /\
  (forall (data : gmap string Q) (k : string) (v : Q),
     (v == 0)%Q ->
     (calculate_total_carbon (<[k := v]> data) == calculate_total_carbon (delete k data))%Q) /\
  ((calculate_electricity_carbon 0 == 0)%Q /\
   (calculate_natural_gas_carbon 0 == 0)%Q /\
   (calculate_water_carbon 0 == 0)%Q /\
   (calculate_car_carbon 0 25 == 0)%Q /\
   (calculate_public_transit_carbon 0 == 0)%Q /\
   (calculate_flight_carbon 0 0 == 0)%Q /\
   (calculate_food_carbon 0 0 0 == 0)%Q) /\
  (forall data : gmap string Q,
     (forall k v, data !! k = Some v -> (v == 0)%Q) ->
     (calculate_total_carbon data == 0)%Q) /\
  ((calculate_total_carbon (A := Q) {[ "electricity_kwh" := 100%Q ]} == 40.0)%Q /\
   (calculate_total_carbon (A := Q) {[ "car_miles" := 250%Q ]} == 88.87)%Q /\
   (calculate_total_carbon (A := Q)
      {[ "flights_short_haul" := 1%Q; "flights_long_haul" := 1%Q ]} == 2100)%Q) /\
  (forall data : gmap string spec_float,
     (forall k v, data !! k = Some v -> F64_nonneg v = true) ->
     calculate_total_carbon data = sum_of_categories data) /\
  (calculate_total_carbon {[ "electricity_kwh" := F64.of_int 100 ]} = F64.of_decimal 400 10 /\
   calculate_total_carbon {[ "car_miles" := F64.of_int 250 ]} = F64.of_decimal 8887 100 /\
   calculate_total_carbon
     {[ "flights_short_haul" := F64.of_int 1; "flights_long_haul" := F64.of_int 1 ]}
   = F64.of_int 2100).
Proof.
  split; [|split; [|split; [|split; [|split; [|split]]]]].
  - intros data _. by rewrite calculate_total_carbon_Q, sum_of_categories_Q.
  - apply calculate_total_carbon_zero_key.
  - by repeat split.
  - apply calculate_total_carbon_all_zero.
  - by repeat split.
  - apply calculate_total_carbon_F64.
  - repeat split; by vm_compute.
Qed.

Lemma calculate_total_carbon_sum_witness :
  let data : gmap string Q := {[ "electricity_kwh" := 100%Q ]} in
  (calculate_total_carbon data ==
     get_or_0 data "electricity_kwh" * 0.4
     + get_or_0 data "natural_gas_therms" * 5.3
     + get_or_0 data "water_gallons" * 0.0002
     + get_or_0 data "car_miles" / 25 * 8.887
     + get_or_0 data "public_transit_miles" * 0.17
     + (get_or_0 data "flights_short_haul" * 500
        + get_or_0 data "flights_long_haul" * 1600)
     + (get_or_0 data "meat_servings" * 3.0
        + get_or_0 data "dairy_servings" * 0.7
        + get_or_0 data "veg_servings" * 0.2))%Q.
Proof.
  intros data. apply (proj1 calculate_total_carbon_sum data).
  intros k v [<- <-]%lookup_singleton_Some. by vm_compute.
Defined.

(** ** No exception leaves the database functions *)

Lemma run_query_returns {A R} (stmt : statement A R) fetch (w : world A) :
  exists o, fst (run_query stmt fetch w) = Ret o.
Proof.
  destruct (run_query_any stmt fetch w) as (o & fs' & [-> | (r & d' & _ & ->)]);
    by eexists.
Qed.

Lemma run_query_bind_returns {A R R2} (stmt : statement A R) fetch (k : option R -> M A R2)
    (r2 : R2) (w : world A) :
  (forall o w', fst (k o w') = Ret r2) ->
  fst ((run_query stmt fetch ≫= k) w) = Ret r2.
Proof.
  intros Hk. unfold mbind, M_bind.
  destruct (run_query_returns stmt fetch w) as [o Ho].
  destruct (run_query stmt fetch w) as [o1 w1]. simpl in Ho. subst o1. apply Hk.
Qed.

Lemma update_user_streak_returns {A} (u e : Z) (w : world A) :
  fst (update_user_streak u e w) = Ret tt.
Proof.
  unfold update_user_streak. apply run_query_bind_returns. intros [[|r rows]|] w'.
  - by apply run_query_bind_returns.
  - destruct (last_entry_date r) as [last|].
    + destruct (e - last =? 1); [by apply run_query_bind_returns|].
      destruct (e - last =? 0); [done|]. by apply run_query_bind_returns.
    + by apply run_query_bind_returns.
  - by apply run_query_bind_returns.
Qed.

(** [save_carbon_footprint] is the [INSERT] followed by the streak update,
    started in the world the [INSERT] left; it returns [True] in every
    world, since [run_query] keeps every database error to itself. *)
Lemma save_carbon_footprint_steps {A} `{PyNum A} today u (data : footprint_data A) w :
  save_carbon_footprint today u data w =
    (Ret true,
     snd (update_user_streak u (default today (data_date data))
            (snd (run_query (insert_footprint (entry_row u today data)) false w)))).
Proof.
  unfold save_carbon_footprint, try_except, mbind, M_bind.
  destruct (run_query_returns (insert_footprint (entry_row u today data)) false w) as [o Ho].
  destruct (run_query _ _ w) as [o1 w1]. simpl in Ho. subst o1. simpl.
  pose proof (update_user_streak_returns u (default today (data_date data)) w1) as Hu.
  destruct (update_user_streak _ _ w1) as [o2 w2]. simpl in Hu. by subst o2.
Qed.

(** ** What a save writes *)

#[export] Instance only_streaks_preorder {A} : PreOrder (@only_streaks A).
Proof.
  split.
  - by intros d.
  - intros d1 d2 d3 [Hu12 Hc12] [Hu23 Hc23]. split; congruence.
Qed.

Lemma update_user_streak_only_streaks {A} (u e : Z) (w : world A) :
  only_streaks (db w) (db (snd (update_user_streak u e w))).
Proof.
  apply (update_user_streak_respects only_streaks).
  - by intros r _ d x d' [= _ <-].
  - by intros c l e' t u' _ d x d' [= _ <-].
Qed.

Lemma save_carbon_footprint_writes {A} `{PyNum A} today u (data : footprint_data A) d fs :
  head fs <> Some true ->
  let w' := snd (save_carbon_footprint today u data {| db := d; faults := fs |}) in
  carbon_footprint (db w') = carbon_footprint d ++ [entry_row u today data] /\
  users (db w') = users d.
Proof.
  intros Hfs w'. subst w'. rewrite save_carbon_footprint_steps. simpl.
  rewrite (run_query_commit_ok _ d (set_carbon_footprint
             (carbon_footprint d ++ [entry_row u today data]) d) tt) by done.
  simpl.
  destruct (update_user_streak_only_streaks u (default today (data_date data))
    {| db := set_carbon_footprint (carbon_footprint d ++ [entry_row u today data]) d;
       faults := tail (tail fs) |}) as [Hu Hc].
  by rewrite Hu, Hc.
Qed.

(** ** Negative quantities *)

(** The claim C4 fails on the entry [negative_data]: its total is negative,
    and [save_carbon_footprint] accepts it and stores that total. *)
Lemma negative_input_accepted :
  let w' := snd (save_carbon_footprint 5 1 negative_data
                   {| db := empty_database; faults := [] |}) in
  ~ (0 <= calculate_total_carbon (data_raw negative_data))%Q /\
  (calculate_total_carbon (data_raw negative_data) == -40)%Q /\
  calculate_total_carbon {[ "electricity_kwh" := F64.of_int (-100) ]}
    = F64.of_decimal (-400) 10 /\
  fst (save_carbon_footprint 5 1 negative_data {| db := empty_database; faults := [] |})
    = Ret true /\
  Exists (fun r => (total_carbon r < 0)%Q) (carbon_footprint (db w')).
Proof.
  intros w'. split; [|split; [|split; [|split]]].
  - by vm_compute.
  - by vm_compute.
  - by vm_compute.
  - by rewrite save_carbon_footprint_steps.
  - subst w'.
    destruct (save_carbon_footprint_writes 5 1 negative_data empty_database [])
      as [-> _]; [done|].
    simpl. apply Exists_cons_hd. by vm_compute.
Qed.

(** C4, amended.  [calculate_total_carbon] and [save_carbon_footprint] check
    nothing: for every dictionary, negative quantities included, the total
    is the sum of the seven category results of the raw values, so a negative
    quantity is neither rejected nor clamped; [save_carbon_footprint] returns
    [True] in every world and, when its [INSERT] is not made to fail, appends
    the row with that total.  The total is non-negative whenever every
    quantity is; over binary64 it then is a non-negative number as well,
    never NaN, and -100 kWh alone give -40.0. *)
Theorem calculate_total_carbon_unvalidated :
  (forall data : gmap string Q,
     (calculate_total_carbon data ==
        get_or_0 data "electricity_kwh" * 0.4
        + get_or_0 data "natural_gas_therms" * 5.3
        + get_or_0 data "water_gallons" * 0.0002
        + get_or_0 data "car_miles" / 25 * 8.887
        + get_or_0 data "public_transit_miles" * 0.17
        + (get_or_0 data "flights_short_haul" * 500
           + get_or_0 data "flights_long_haul" * 1600)
        + (get_or_0 data "meat_servings" * 3.0
           + get_or_0 data "dairy_servings" * 0.7
           + get_or_0 data "veg_servings" * 0.2))%Q) /\
  (forall (x : Q), (x < 0)%Q ->
     (calculate_total_carbon (A := Q) {[ "electricity_kwh" := x ]} == x * 0.4)%Q /\
     (calculate_total_carbon (A := Q) {[ "electricity_kwh" := x ]} < 0)%Q) /\
  (forall (today u : Z) (data : footprint_data Q) (w : world Q),
     fst (save_carbon_footprint today u data w) = Ret true) /\
  (forall (today u : Z) (data : footprint_data Q) (d : database Q) (fs : list bool),
     head fs <> Some true ->
     carbon_footprint (db (snd (save_carbon_footprint today u data {| db := d; faults := fs |})))
     = carbon_footprint d ++ [entry_row u today data] /\
     total_carbon (entry_row u today data) = calculate_total_carbon (data_raw data)) /\
  (forall data : gmap string Q,
     (forall k v, data !! k = Some v -> (0 <= v)%Q) ->
     (0 <= calculate_total_carbon data)%Q) /\
  (forall data : gmap string spec_float,
     (forall k v, data !! k = Some v -> F64_nonneg v = true) ->
     F64_nonneg (calculate_total_carbon data) = true) /\
  calculate_total_carbon {[ "electricity_kwh" := F64.of_int (-100) ]}
    = F64.of_decimal (-400) 10.
Proof.
  split; [|split; [|split; [|split; [|split; [|split]]]]];
    [| | | | |apply calculate_total_carbon_F64_nonneg|by vm_compute].
  - intros data. by rewrite calculate_total_carbon_Q, sum_of_categories_Q.
  - intros x Hx.
    assert (Ht : (calculate_total_carbon (A := Q) {[ "electricity_kwh" := x ]} == x * 0.4)%Q).
    { rewrite calculate_total_carbon_Q, sum_of_categories_Q.
      unfold get_or_0. rewrite lookup_singleton_eq.
      rewrite !lookup_singleton_ne by done. simpl.
      unfold Qdiv. change (/ 25)%Q with (1 # 25)%Q. change (inject_Z 0) with 0%Q. lra. }
    split; [exact Ht|]. rewrite Ht. lra.
  - intros today u data w. by rewrite save_carbon_footprint_steps.
  - intros today u data d fs Hfs. split; [|done].
    by destruct (save_carbon_footprint_writes today u data d fs Hfs) as [-> _].
  - apply calculate_total_carbon_Q_nonneg.
Qed.

Lemma calculate_total_carbon_unvalidated_witness :
  (calculate_total_carbon (A := Q) {[ "electricity_kwh" := (-100)%Q ]} < 0)%Q /\
  (0 <= calculate_total_carbon (A := Q) {[ "electricity_kwh" := 100%Q ]})%Q.
Proof.
  split.
  - apply (proj1 (proj2 calculate_total_carbon_unvalidated) (-100)%Q). by vm_compute.
  - apply (proj1 (proj2 (proj2 (proj2 (proj2 calculate_total_carbon_unvalidated))))).
    intros k v [<- <-]%lookup_singleton_Some. by vm_compute.
Defined.

(** ** The period comparison *)

(** The claim C3 fails on the code for as-of day 100: an entry dated day 105,
    after the as-of date, is averaged into the recent mean; an entry dated
    day 70, thirty days back, counts as recent and not as previous; and an
    entry dated day 40, sixty days back, counts as previous. *)
Lemma period_windows_differ :
  ~ (stats_recent_avg (dashboard_stats 100 [sample_row 105 10])
     == mean_or_0 (spec_recent_window 100 [sample_row 105 10]))%Q /\
  ~ (stats_recent_avg (dashboard_stats 100 [sample_row 70 10])
     == mean_or_0 (spec_recent_window 100 [sample_row 70 10]))%Q /\
  ~ (stats_previous_avg (dashboard_stats 100 [sample_row 70 10])
     == mean_or_0 (spec_previous_window 100 [sample_row 70 10]))%Q /\
  ~ (stats_previous_avg (dashboard_stats 100 [sample_row 40 10])
     == mean_or_0 (spec_previous_window 100 [sample_row 40 10]))%Q.
Proof. repeat split; by vm_compute. Qed.

Lemma get_dashboard_stats_ok {A} `{PyNum A} today u (d : database A) fs :
  head fs <> Some true ->
  let history := merge_sort date_desc
                   (filter (fun r => cf_user_id r = u) (carbon_footprint d)) in
  fst (get_dashboard_stats today u {| db := d; faults := fs |}) =
    Ret (match history with
         | [] => None
         | _ => Some (dashboard_stats today history)
         end).
Proof.
  intros Hfs history. unfold get_dashboard_stats, get_user_footprint_history, mbind, M_bind.
  rewrite (run_query_ok _ d d history) by done. simpl.
  by destruct history.
Qed.

(** C3, amended.  The recent mean is taken over exactly the entries dated
    [today - 30] or later, with no upper bound, and the previous mean over
    exactly the entries dated from [today - 60] to [today - 31]; entries
    dated before [today - 60] enter neither, and the mean of an empty window
    is 0.  [get_dashboard_stats] computes them from the rows of the user,
    latest first. *)
Theorem period_comparison_windows {A} `{PyNum A} (today : Z) (history : list (footprint_row A)) :
  (forall r, r ∈ recent_data today history <-> r ∈ history /\ today - 30 <= cf_date r) /\
  (forall r, r ∈ previous_data today history <->
             r ∈ history /\ (today - 60 <= cf_date r /\ cf_date r <= today - 31)) /\
  (forall r, r ∈ history -> cf_date r < today - 60 ->
             (r ∉ recent_data today history) /\ (r ∉ previous_data today history)) /\
  stats_recent_avg (dashboard_stats today history) =
    match recent_data today history with
    | [] => of_Z 0
    | rows => column_mean (total_carbon <$> rows)
    end /\
  stats_previous_avg (dashboard_stats today history) =
    match previous_data today history with
    | [] => of_Z 0
    | rows => column_mean (total_carbon <$> rows)
    end /\
  (forall u (d : database A) fs,
     head fs <> Some true ->
     fst (get_dashboard_stats today u {| db := d; faults := fs |}) =
       Ret (match merge_sort date_desc
                    (filter (fun r => cf_user_id r = u) (carbon_footprint d)) with
            | [] => None
            | rows => Some (dashboard_stats today rows)
            end)).
Proof.
  split; [|split; [|split; [|split; [|split]]]].
  - intros r. unfold recent_data. rewrite list_elem_of_filter. tauto.
  - intros r. unfold previous_data. rewrite list_elem_of_filter. split.
    + intros [[? ?] ?]. split; [done|lia].
    + intros [? [? ?]]. split; [|done]. split; lia.
  - intros r Hr Hold. unfold recent_data, previous_data.
    rewrite !list_elem_of_filter. split; intros [? _]; lia.
  - simpl. unfold mean_or_0. by destruct (recent_data today history).
  - simpl. unfold mean_or_0. by destruct (previous_data today history).
  - intros u d fs Hfs. rewrite get_dashboard_stats_ok by done.
    by destruct (merge_sort _ _).
Qed.

Lemma period_comparison_windows_witness :
  (sample_row 105 10 ∈ recent_data 100 [sample_row 105 10; sample_row 30 7]) /\
  (sample_row 30 7 ∉ previous_data 100 [sample_row 105 10; sample_row 30 7]).
Proof.
  destruct (period_comparison_windows 100 [sample_row 105 10; sample_row 30 7])
    as (Hrecent & _ & Hold & _).
  split.
  - apply Hrecent. split; [apply list_elem_of_here | by vm_compute].
  - apply Hold; [apply list_elem_of_further, list_elem_of_here | by vm_compute].
Defined.

(** ** The trend *)

Section SumsQ.
Local Open Scope Q_scope.

Lemma foldl_Qplus_acc (xs : list Q) : forall a b : Q,
  a == b -> foldl Qplus a xs == foldl Qplus b xs.
Proof.
  induction xs as [|x xs IH]; intros a b Hab; simpl; [done|].
  apply IH. by rewrite Hab.
Qed.

Lemma foldl_Qplus_shift (xs : list Q) : forall a : Q,
  foldl Qplus a xs == a + foldl Qplus 0 xs.
Proof.
  induction xs as [|x xs IH]; intros a; simpl; [lra|].
  rewrite (IH (a + x)), (IH (0 + x)). lra.
Qed.

Lemma column_sum_cons (x : Q) (xs : list Q) : column_sum (x :: xs) == x + column_sum xs.
Proof.
  unfold column_sum. cbn [foldl of_Z add Q_num].
  rewrite foldl_Qplus_shift. change (inject_Z 0) with 0. lra.
Qed.

Lemma column_sum_nil : column_sum (A := Q) [] == 0.
Proof. reflexivity. Qed.

(** Over exact arithmetic the mean the code computes for a window is the
    sum of its totals over their number, in whatever order they are added. *)
Lemma column_sum_foldr (xs : list Q) : column_sum xs == foldr Qplus 0 xs.
Proof.
  induction xs as [|x xs IH]; [reflexivity|].
  rewrite column_sum_cons, IH. reflexivity.
Qed.

Lemma mean_or_0_spec (rows : list (footprint_row Q)) :
  mean_or_0 rows == spec_window_mean rows.
Proof.
  destruct rows as [|r rows]; [reflexivity|].
  unfold mean_or_0, spec_window_mean, column_mean. cbn [div of_Z Q_num].
  rewrite column_sum_foldr, length_fmap. reflexivity.
Qed.
End SumsQ.

Section TrendQ.
Local Open Scope Q_scope.

Lemma ltb_Q (x y : Q) : ltb x y = true <-> x < y.
Proof.
  cbn [ltb Q_num]. rewrite negb_true_iff. split.
  - intros Hle. apply Qnot_le_lt. intros Hyx. apply Qle_bool_iff in Hyx. congruence.
  - intros Hlt. apply not_true_is_false. intros Hyx%Qle_bool_iff. lra.
Qed.

Lemma trend_of_Q (recent previous : Q) :
  (trend_of recent previous = "improving" <-> recent < previous) /\
  (trend_of recent previous = "worsening" <-> previous < recent) /\
  (trend_of recent previous = "stable" <-> recent == previous).
Proof.
  unfold trend_of.
  destruct (ltb recent previous) eqn:H1; [apply ltb_Q in H1|];
    (destruct (ltb previous recent) eqn:H2; [apply ltb_Q in H2|]).
  - lra.
  - repeat split; try done; intros; lra.
  - assert (~ recent < previous) by (intros ?%ltb_Q; congruence).
    repeat split; try done; intros; lra.
  - assert (~ recent < previous) by (intros ?%ltb_Q; congruence).
    assert (~ previous < recent) by (intros ?%ltb_Q; congruence).
    repeat split; try done; intros; lra.
Qed.
End TrendQ.

Section TrendF64.
Lemma SFcompare_antisym (x y : spec_float) :
  SFcompare y x = CompOpp <$> SFcompare x y.
Proof.
  destruct x as [sx|sx| |sx mx ex], y as [sy|sy| |sy my ey]; simpl; try done;
    try (by destruct sx); try (by destruct sy); try (by destruct sx, sy).
  destruct sx, sy; simpl; try done.
  - rewrite (Z.compare_antisym ex ey). destruct (ex ?= ey); simpl; try done.
    by rewrite (Pos.compare_cont_antisym mx my Eq).
  - rewrite (Z.compare_antisym ex ey). destruct (ex ?= ey); simpl; try done.
    by rewrite (Pos.compare_cont_antisym mx my Eq).
Qed.

Lemma SFcompare_nan (x y : spec_float) :
  x = S754_nan \/ y = S754_nan -> SFcompare x y = None.
Proof. intros [-> | ->]; [done|]. by destruct x. Qed.

Lemma trend_of_F64 (recent previous : spec_float) :
  (trend_of recent previous = "improving" <-> SFltb recent previous = true) /\
  (trend_of recent previous = "worsening" <-> SFltb previous recent = true) /\
  (trend_of recent previous = "stable" <->
     SFltb recent previous = false /\ SFltb previous recent = false) /\
  (recent <> S754_nan -> previous <> S754_nan ->
   (trend_of recent previous = "stable" <-> SFeqb recent previous = true)) /\
  (recent = S754_nan \/ previous = S754_nan ->
   trend_of recent previous = "stable" /\ SFeqb recent previous = false).
Proof.
  unfold trend_of. cbn [ltb F64_num]. unfold SFltb, SFeqb.
  rewrite (SFcompare_antisym recent previous).
  split; [|split; [|split; [|split]]].
  - destruct (SFcompare recent previous) as [[]|]; simpl; by split.
  - destruct (SFcompare recent previous) as [[]|]; simpl; by split.
  - destruct (SFcompare recent previous) as [[]|]; simpl; split; try done; by intros [? ?].
  - intros Hr Hp.
    destruct (SFcompare recent previous) as [[]|] eqn:Hc; simpl; try done.
    by destruct recent, previous.
  - intros Hnan. by rewrite (SFcompare_nan _ _ Hnan).
Qed.
End TrendF64.

(** C5.  The [trend] entry of the statistics is ['improving'] exactly when
    the mean of the recent window is below the mean of the previous window,
    ['worsening'] exactly when it is above, and ['stable'] exactly when the
    two are equal, where the mean of a window is the sum of the totals of
    its entries over their number and 0 for a window without entries, and
    the two windows are the entries dated from 30 days before today on and
    those dated from 60 days before today up to, not including, 30 days
    before today.  So with no entry in the previous window, whose mean is
    then 0, and a positive recent mean the trend is ['worsening'].  Over
    binary64 the trend is ['improving'] and ['worsening'] exactly when the
    floating-point comparisons of the two means say so, and ['stable'] when
    neither does: for means that are numbers that is their equality, and a
    mean that is not a number compares as neither. *)
Theorem trend_direction :
  (forall (today : Z) (history : list (footprint_row Q)),
     let s := dashboard_stats today history in
     let recent := filter (fun r => today - 30 <= cf_date r) history in
     let previous :=
       filter (fun r => today - 60 <= cf_date r /\ cf_date r < today - 30) history in
     (stats_recent_avg s == spec_window_mean recent)%Q /\
     (stats_previous_avg s == spec_window_mean previous)%Q /\
     (stats_trend s = "improving" <->
        (spec_window_mean recent < spec_window_mean previous)%Q) /\
     (stats_trend s = "worsening" <->
        (spec_window_mean previous < spec_window_mean recent)%Q) /\
     (stats_trend s = "stable" <->
        (spec_window_mean recent == spec_window_mean previous)%Q) /\
     (stats_trend s = "improving" <-> (stats_recent_avg s < stats_previous_avg s)%Q) /\
     (stats_trend s = "worsening" <-> (stats_previous_avg s < stats_recent_avg s)%Q) /\
     (stats_trend s = "stable" <-> (stats_recent_avg s == stats_previous_avg s)%Q) /\
     (previous = [] ->
      (0 < spec_window_mean recent)%Q ->
      (stats_previous_avg s == 0)%Q /\ stats_trend s = "worsening") /\
     (previous_data today history = [] ->
      (0 < stats_recent_avg s)%Q ->
      (stats_previous_avg s == 0)%Q /\ stats_trend s = "worsening")) /\
  (forall (today : Z) (history : list (footprint_row spec_float)),
     let s := dashboard_stats today history in
     let recent := filter (fun r => today - 30 <= cf_date r) history in
     let previous :=
       filter (fun r => today - 60 <= cf_date r /\ cf_date r < today - 30) history in
     stats_recent_avg s = mean_or_0 recent /\
     stats_previous_avg s = mean_or_0 previous /\
     (recent = [] -> stats_recent_avg s = F64.of_int 0) /\
     (previous = [] -> stats_previous_avg s = F64.of_int 0) /\
     (stats_trend s = "improving" <-> SFltb (stats_recent_avg s) (stats_previous_avg s) = true) /\
     (stats_trend s = "worsening" <-> SFltb (stats_previous_avg s) (stats_recent_avg s) = true) /\
     (stats_trend s = "stable" <->
        SFltb (stats_recent_avg s) (stats_previous_avg s) = false /\
        SFltb (stats_previous_avg s) (stats_recent_avg s) = false) /\
     (stats_recent_avg s <> S754_nan ->
      stats_previous_avg s <> S754_nan ->
      (stats_trend s = "stable" <->
         SFeqb (stats_recent_avg s) (stats_previous_avg s) = true)) /\
     (stats_recent_avg s = S754_nan \/ stats_previous_avg s = S754_nan ->
      stats_trend s = "stable" /\
      SFeqb (stats_recent_avg s) (stats_previous_avg s) = false)).
Proof.
  split.
  - intros today history s recent previous.
    destruct (trend_of_Q (stats_recent_avg s) (stats_previous_avg s)) as (Hi & Hw & Hs).
    assert (Hr : (stats_recent_avg s == spec_window_mean recent)%Q)
      by apply mean_or_0_spec.
    assert (Hp : (stats_previous_avg s == spec_window_mean previous)%Q)
      by apply mean_or_0_spec.
    assert (Hempty : previous = [] -> (stats_previous_avg s == 0)%Q).
    { intros Hnil. rewrite Hp, Hnil. reflexivity. }
    split; [exact Hr|]. split; [exact Hp|].
    split; [by rewrite <- Hr, <- Hp|]. split; [by rewrite <- Hr, <- Hp|].
    split; [by rewrite <- Hr, <- Hp|].
    split; [exact Hi|]. split; [exact Hw|]. split; [exact Hs|]. split.
    + intros Hnil Hpos. split; [by apply Hempty|].
      apply Hw. rewrite (Hempty Hnil), Hr. exact Hpos.
    + intros Hnil Hpos. split; [by apply Hempty|].
      apply Hw. by rewrite (Hempty Hnil).
  - intros today history s recent previous.
    destruct (trend_of_F64 (stats_recent_avg s) (stats_previous_avg s))
      as (Hi & Hw & Hs & He & Hn).
    split; [reflexivity|]. split; [reflexivity|].
    split; [by intros Hnil; change (stats_recent_avg s) with (mean_or_0 recent); rewrite Hnil|].
    split; [by intros Hnil; change (stats_previous_avg s) with (mean_or_0 previous);
               rewrite Hnil|].
    split; [exact Hi|]. split; [exact Hw|]. split; [exact Hs|]. split; [exact He|exact Hn].
Qed.

Lemma trend_direction_witness :
  stats_trend (dashboard_stats 100 [sample_row 95 10]) = "worsening".
Proof.
  destruct (proj1 trend_direction 100 [sample_row 95 10])
    as (_ & _ & _ & _ & _ & _ & _ & _ & Hempty & _).
  apply Hempty; by vm_compute.
Defined.

(** ** Saving, then listing *)

Section RoundTrip.
Context {A : Type} `{PyNum A}.

(** A stored quantity is truthy exactly when the dictionary entry was, and
    reads back as the same value. *)
Lemma truthy_get_or_0 (raw : gmap string A) k : truthy (get_or_0 raw k) = get_truthy raw k.
Proof.
  unfold get_or_0, get_truthy. destruct (raw !! k); simpl; [done|]. apply truthy_zero.
Qed.

Lemma calculate_total_carbon_row_raw today u (data : footprint_data A) :
  calculate_total_carbon (row_raw (entry_row u today data))
  = calculate_total_carbon (data_raw data).
Proof.
  set (raw := data_raw data). set (row := entry_row u today data).
  assert (Hg : forall k v, row_raw row !! k = Some v -> v = get_or_0 raw k ->
                 get_truthy (row_raw row) k = get_truthy raw k /\
                 get_or_0 (row_raw row) k = get_or_0 raw k).
  { intros k v Hk ->. unfold get_truthy at 1, get_or_0 at 1. rewrite Hk. simpl.
    split; [apply truthy_get_or_0 | done]. }
  destruct (Hg "electricity_kwh" _ eq_refl eq_refl) as [T1 V1].
  destruct (Hg "natural_gas_therms" _ eq_refl eq_refl) as [T2 V2].
  destruct (Hg "water_gallons" _ eq_refl eq_refl) as [T3 V3].
  destruct (Hg "car_miles" _ eq_refl eq_refl) as [T4 V4].
  destruct (Hg "public_transit_miles" _ eq_refl eq_refl) as [T5 V5].
  destruct (Hg "flights_short_haul" _ eq_refl eq_refl) as [T6 V6].
  destruct (Hg "flights_long_haul" _ eq_refl eq_refl) as [T7 V7].
  destruct (Hg "meat_servings" _ eq_refl eq_refl) as [T8 V8].
  destruct (Hg "dairy_servings" _ eq_refl eq_refl) as [T9 V9].
  destruct (Hg "veg_servings" _ eq_refl eq_refl) as [T10 V10].
  unfold calculate_total_carbon.
  by rewrite T1, T2, T3, T4, T5, T6, T7, T8, T9, T10, V1, V2, V3, V4, V5, V6, V7, V8, V9, V10.
Qed.

#[export] Instance date_desc_total : Total (@date_desc A).
Proof. intros r1 r2. unfold date_desc. lia. Qed.

Lemma get_user_footprint_history_ok u (d : database A) fs :
  head fs <> Some true ->
  get_user_footprint_history u {| db := d; faults := fs |} =
    (Ret (merge_sort date_desc (filter (fun r => cf_user_id r = u) (carbon_footprint d))),
     {| db := d; faults := tail fs |}).
Proof.
  intros Hfs. unfold get_user_footprint_history, mbind, M_bind.
  by rewrite (run_query_ok _ d d
    (merge_sort date_desc (filter (fun r => cf_user_id r = u) (carbon_footprint d)))).
Qed.

(** After a save in which nothing fails the world has no fault to come and
    holds the new row. *)
Lemma save_carbon_footprint_ok today u (data : footprint_data A) d fs :
  no_fault fs = true ->
  exists d' fs',
    no_fault fs' = true /\
    save_carbon_footprint today u data {| db := d; faults := fs |}
      = (Ret true, {| db := d'; faults := fs' |}) /\
    carbon_footprint d' = carbon_footprint d ++ [entry_row u today data].
Proof.
  intros Hfs.
  pose proof (save_carbon_footprint_writes today u data d fs (no_fault_head _ Hfs)) as [Hc _].
  rewrite save_carbon_footprint_steps in *. simpl in Hc.
  rewrite (run_query_commit_ok _ d (set_carbon_footprint
             (carbon_footprint d ++ [entry_row u today data]) d) tt) in *
    by fault_free.
  simpl in *.
  destruct (update_user_streak_next
              (set_carbon_footprint (carbon_footprint d ++ [entry_row u today data]) d)
              u (default today (data_date data)) (tail (tail fs))
              (no_fault_tail _ (no_fault_tail _ Hfs)))
    as (d' & fs' & Hfs' & Hrun & _).
  rewrite Hrun in *. simpl in *. by exists d', fs'.
Qed.
End RoundTrip.

(** ** Footprint rows are never changed *)

Lemma run_calls_append {A} `{PyNum A} (hash_password : string -> string)
    (cs : list (call A)) (w : world A) :
  carbon_footprint (db w) `prefix_of` carbon_footprint (db (run_calls hash_password cs w)).
Proof.
  apply (run_calls_respects appends_entries hash_password).
  - intros r _ d x d' [= _ <-]. unfold appends_entries. simpl. reflexivity.
  - intros c l e t u _ d x d' [= _ <-]. unfold appends_entries. simpl. reflexivity.
  - intros r d x d' [= _ <-]. unfold appends_entries. simpl. by apply prefix_app_r.
  - intros n p m f l a d x d' Hs. unfold insert_user in Hs.
    destruct (decide _); [done|]. simplify_eq. unfold appends_entries. simpl. reflexivity.
  - intros p u d x d' [= _ <-]. unfold appends_entries. simpl. reflexivity.
  - intros f l b p m u d x d' Hs. unfold update_profile in Hs.
    destruct (decide _); [done|]. simplify_eq. unfold appends_entries. simpl. reflexivity.
  - intros d. unfold appends_entries, init_database. destruct (decide _); [reflexivity|].
    unfold insert_user. destruct (decide _); simpl; reflexivity.
Qed.

(** C8.  When no statement fails, [save_carbon_footprint] followed by
    [get_user_footprint_history] for the same user returns a list that holds
    the saved row: the rows of that user, the new one included, latest
    first.  The total stored in the row is [calculate_total_carbon] of the
    dictionary that was saved, and also of the raw columns of the row, where
    a missing quantity was stored as 0.  No call changes or removes a stored
    row: after any run the table starts with the rows it had. *)
Theorem save_then_list_round_trip {A} `{PyNum A} :
  (forall (today u : Z) (data : footprint_data A) (d : database A) (fs : list bool),
     no_fault fs = true ->
     let row := entry_row u today data in
     let w1 := snd (save_carbon_footprint today u data {| db := d; faults := fs |}) in
     exists listed,
       fst (get_user_footprint_history u w1) = Ret listed /\
       row ∈ listed /\
       (forall r, r ∈ listed <-> (r ∈ carbon_footprint d \/ r = row) /\ cf_user_id r = u) /\
       Sorted date_desc listed /\
       total_carbon row = calculate_total_carbon (data_raw data) /\
       calculate_total_carbon (row_raw row) = total_carbon row) /\
  (forall (hash_password : string -> string) (cs : list (call A)) (w : world A),
     carbon_footprint (db w) `prefix_of` carbon_footprint (db (run_calls hash_password cs w))).
Proof.
  split; [|apply run_calls_append].
  intros today u data d fs Hfs row w1.
  destruct (save_carbon_footprint_ok today u data d fs Hfs) as (d' & fs' & Hfs' & Hrun & Hcf).
  subst w1. rewrite Hrun. simpl.
  rewrite get_user_footprint_history_ok by (by apply no_fault_head).
  eexists. split; [reflexivity|].
  assert (Hmem : forall r,
    r ∈ merge_sort date_desc (filter (fun r => cf_user_id r = u) (carbon_footprint d'))
    <-> (r ∈ carbon_footprint d \/ r = row) /\ cf_user_id r = u).
  { intros r. rewrite merge_sort_Permutation, list_elem_of_filter, Hcf, elem_of_app,
      list_elem_of_singleton. tauto. }
  split; [|split; [exact Hmem|split; [apply Sorted_merge_sort, _|split]]].
  - apply Hmem. split; [by right|done].
  - done.
  - apply calculate_total_carbon_row_raw.
Qed.

Lemma save_then_list_round_trip_witness :
  let w1 := snd (save_carbon_footprint 9 1 sample_data
                   {| db := empty_database; faults := [] |}) in
  exists listed,
    fst (get_user_footprint_history 1 w1) = Ret listed /\
    entry_row 1 9 sample_data ∈ listed.
Proof.
  intros w1.
  destruct (proj1 save_then_list_round_trip 9 1 sample_data empty_database [] eq_refl)
    as (listed & Hl & Hin & _).
  exists listed. by split.
Defined.

(** ** A failing streak update *)

Section StreakWrite.
Context {A : Type}.

(** Once the [SELECT] and the [cursor.execute] of the statement that writes
    the streak have gone through, the tables are those of a run without
    faults, whatever the commit does. *)
Lemma update_user_streak_written (d : database A) u e b rest :
  db (snd (update_user_streak u e {| db := d; faults := false :: false :: b :: rest |}))
  = db (snd (update_user_streak u e {| db := d; faults := [] |})).
Proof.
  unfold update_user_streak, mbind, M_bind.
  rewrite !(run_query_ok _ d d (streaks_of d u)) by done.
  destruct (streaks_of d u) as [|r rs].
  - by erewrite !run_query_commit_ok by done.
  - cbv zeta. destruct (last_entry_date r) as [last|].
    + destruct (e - last =? 1); [by erewrite !run_query_commit_ok by done|].
      destruct (e - last =? 0); [done|]. by erewrite !run_query_commit_ok by done.
    + by erewrite !run_query_commit_ok by done.
Qed.

(** When the [cursor.execute] of that statement raises, they are untouched. *)
Lemma update_user_streak_refused (d : database A) u e b rest :
  db (snd (update_user_streak u e {| db := d; faults := b :: true :: rest |})) = d.
Proof.
  unfold update_user_streak, mbind, M_bind.
  destruct b; [done|].
  rewrite (run_query_ok _ d d (streaks_of d u)) by done.
  destruct (streaks_of d u) as [|r rs]; [done|].
  cbv zeta. destruct (last_entry_date r) as [last|]; [|done].
  destruct (e - last =? 1); [done|]. by destruct (e - last =? 0).
Qed.
End StreakWrite.

(** The claim C9 fails on [sample_db]: the [INSERT] of the entry of user 7
    goes through, the [UPDATE] of the streak runs and its commit raises, so
    the streak update fails; the entry is stored, and the streak record is
    not what it was. *)
Lemma streak_changed_when_commit_fails :
  let w := {| db := sample_db; faults := [false; false; false; false; true] |} in
  let w1 := snd (run_query (insert_footprint (entry_row 7 9 sample_data)) false w) in
  let w2 := snd (run_query (select_streaks 7) true w1) in
  let w' := snd (save_carbon_footprint 9 7 sample_data w) in
  fst ((_ ← execute (insert_footprint (entry_row 7 9 sample_data)); commit) w) = Ret tt /\
  streak_of (db w2) 7 = Some sample_streak /\
  write_raises (update_streaks 1 4 5 6 7) w2 /\
  fst (save_carbon_footprint 9 7 sample_data w) = Ret true /\
  carbon_footprint (db w') = [entry_row 7 9 sample_data] /\
  user_streaks (db w') = [counted sample_streak 1 5] /\
  user_streaks (db w') <> user_streaks sample_db.
Proof.
  intros w w1 w2 w'.
  assert (Hw' : db w' = {| users := []; carbon_footprint := [entry_row 7 9 sample_data];
                           user_streaks := [counted sample_streak 1 5] |}).
  { subst w' w. by rewrite save_carbon_footprint_steps. }
  split; [reflexivity|]. split; [reflexivity|]. split; [reflexivity|].
  split; [subst w; by rewrite save_carbon_footprint_steps|].
  rewrite Hw'. split; [reflexivity|]. split; [reflexivity|]. discriminate.
Qed.

(** C9, amended.  [save_carbon_footprint] sends the [INSERT] of the entry
    and only then runs the streak update, in the world the [INSERT] left.
    When the [INSERT] runs the row is in the table at the end whatever
    fails afterwards, since nothing undoes it, and the call returns [True].
    When the [cursor.execute] of the statement that writes the streak
    raises, the streak table is what it was.  When that statement runs and
    its commit raises, [run_query] undoes nothing and the streak table is
    the one a save without any fault leaves: the record found carries the
    counted entry, or the first record of the user is there. *)
Theorem entry_kept_when_streak_fails {A} `{PyNum A} (today u : Z) (data : footprint_data A)
    (d : database A) :
  let row := entry_row u today data in
  let entry_date := default today (data_date data) in
  (forall fs,
     save_carbon_footprint today u data {| db := d; faults := false :: fs |}
     = (Ret true,
        snd (update_user_streak u entry_date
               {| db := set_carbon_footprint (carbon_footprint d ++ [row]) d;
                  faults := tail fs |}))) /\
  (forall fs,
     carbon_footprint
       (db (snd (save_carbon_footprint today u data {| db := d; faults := false :: fs |})))
     = carbon_footprint d ++ [row]) /\
  (forall (c b : bool) (rest : list bool),
     db (snd (save_carbon_footprint today u data
                {| db := d; faults := false :: c :: b :: true :: rest |}))
     = {| users := users d;
          carbon_footprint := carbon_footprint d ++ [row];
          user_streaks := user_streaks d |}) /\
  (forall (c : bool) (rest : list bool),
     let w := {| db := d; faults := false :: c :: false :: false :: true :: rest |} in
     let w' := snd (save_carbon_footprint today u data w) in
     db w' = db (snd (save_carbon_footprint today u data {| db := d; faults := [] |})) /\
     users (db w') = users d /\
     (streak_of d u = None ->
      user_streaks (db w') = user_streaks d ++ [first_streak u entry_date]) /\
     (forall r,
        streak_of d u = Some r ->
        last_entry_date r <> Some entry_date ->
        streak_of (db w') u = next_streak u entry_date (Some r) /\
        streak_of (db w') u <> Some r)).
Proof.
  intros row entry_date. split; [|split; [|split]].
  - intros fs. rewrite save_carbon_footprint_steps.
    by rewrite (run_query_commit_ok _ d (set_carbon_footprint (carbon_footprint d ++ [row]) d) tt).
  - intros fs.
    by destruct (save_carbon_footprint_writes today u data d (false :: fs)) as [-> _].
  - intros c b rest. rewrite save_carbon_footprint_steps.
    rewrite (run_query_commit_ok _ d (set_carbon_footprint (carbon_footprint d ++ [row]) d) tt)
      by done.
    cbn [snd tail]. fold entry_date. by rewrite update_user_streak_refused.
  - intros c rest w w'.
    set (d1 := set_carbon_footprint (carbon_footprint d ++ [row]) d).
    assert (Hw' : db w' = db (snd (update_user_streak u entry_date
                                     {| db := d1; faults := [] |}))).
    { subst w' w. rewrite save_carbon_footprint_steps.
      rewrite (run_query_commit_ok _ d d1 tt) by done.
      cbn [snd tail]. fold entry_date. apply update_user_streak_written. }
    split.
    { rewrite Hw'. rewrite save_carbon_footprint_steps.
      by rewrite (run_query_commit_ok _ d d1 tt) by done. }
    rewrite Hw'. split; [|split].
    + by destruct (update_user_streak_only_streaks u entry_date
                     {| db := d1; faults := [] |}) as [-> _].
    + intros Hnone.
      destruct (update_user_streak_create d1 u entry_date [] eq_refl Hnone)
        as (fs' & _ & ->). reflexivity.
    + intros r Hr Hlast.
      destruct (update_user_streak_next d1 u entry_date [] eq_refl)
        as (d' & fs' & _ & -> & Hnext).
      cbn [snd db]. change (streak_of d1 u) with (streak_of d u) in Hnext.
      rewrite Hr in Hnext. split; [exact Hnext|].
      rewrite Hnext. unfold next_streak.
      destruct (last_entry_date r) as [last|] eqn:Hl.
      * destruct (entry_date - last =? 1).
        { intros [= Heq]. rewrite <- Heq in Hl. by simpl in Hl. }
        destruct (entry_date - last =? 0) eqn:H0.
        { apply Z.eqb_eq in H0. exfalso. apply Hlast. f_equal. lia. }
        intros [= Heq]. rewrite <- Heq in Hl. by simpl in Hl.
      * intros [= Heq]. rewrite <- Heq in Hl. by simpl in Hl.
Qed.

Lemma entry_kept_when_streak_fails_witness :
  let w' := snd (save_carbon_footprint 9 7 sample_data
                   {| db := sample_db; faults := [false; false; false; false; true] |}) in
  streak_of (db w') 7 = Some (counted sample_streak 1 5) /\
  streak_of (db w') 7 <> Some sample_streak.
Proof.
  destruct (entry_kept_when_streak_fails 9 7 sample_data sample_db) as (_ & _ & _ & Hc).
  destruct (Hc false []) as (_ & _ & _ & Hr).
  apply (Hr sample_streak); [reflexivity|discriminate].
Defined.

(** * Further properties *)

(** ** What the total depends on *)

Local Ltac in_list :=
  repeat first [apply list_elem_of_here | apply list_elem_of_further].

Lemma calculate_total_carbon_ext {A} `{PyNum A} (d1 d2 : gmap string A) :
  (forall k, k ∈ raw_keys -> d1 !! k = d2 !! k) ->
  calculate_total_carbon d1 = calculate_total_carbon d2.
Proof.
  intros Hk.
  assert (Hg : forall k, k ∈ raw_keys ->
            get_truthy d1 k = get_truthy d2 k /\ get_or_0 d1 k = get_or_0 d2 k).
  { intros k Hin. unfold get_truthy, get_or_0. by rewrite (Hk k Hin). }
  unfold calculate_total_carbon.
  destruct (Hg "electricity_kwh") as [-> ->]; [unfold raw_keys; in_list|].
  destruct (Hg "natural_gas_therms") as [-> ->]; [unfold raw_keys; in_list|].
  destruct (Hg "water_gallons") as [-> ->]; [unfold raw_keys; in_list|].
  destruct (Hg "car_miles") as [-> ->]; [unfold raw_keys; in_list|].
  destruct (Hg "public_transit_miles") as [-> ->]; [unfold raw_keys; in_list|].
  destruct (Hg "flights_short_haul") as [-> ->]; [unfold raw_keys; in_list|].
  destruct (Hg "flights_long_haul") as [-> ->]; [unfold raw_keys; in_list|].
  destruct (Hg "meat_servings") as [-> ->]; [unfold raw_keys; in_list|].
  destruct (Hg "dairy_servings") as [-> ->]; [unfold raw_keys; in_list|].
  destruct (Hg "veg_servings") as [-> ->]; [unfold raw_keys; in_list|].
  done.
Qed.

(** X1.  The total depends on the ten named quantities only: dictionaries
    that agree on them have the same total, so setting or removing any other
    key (a ['date'], a misspelt name) changes nothing, in any arithmetic. *)
Theorem calculate_total_carbon_other_keys {A} `{PyNum A} (data : gmap string A)
    (k : string) (v : A) :
  k ∉ raw_keys ->
  calculate_total_carbon (<[k := v]> data) = calculate_total_carbon data /\
  calculate_total_carbon (delete k data) = calculate_total_carbon data.
Proof.
  intros Hk. split; apply calculate_total_carbon_ext; intros k' Hk'.
  - apply lookup_insert_ne. by intros ->.
  - apply lookup_delete_ne. by intros ->.
Qed.

Lemma calculate_total_carbon_other_keys_witness :
  calculate_total_carbon (<["electricity" := 500%Q]> (data_raw sample_data))
  = calculate_total_carbon (data_raw sample_data).
Proof.
  apply (calculate_total_carbon_other_keys (data_raw sample_data) "electricity" 500%Q).
  unfold raw_keys. intros Hin.
  repeat (apply elem_of_cons in Hin as [Hin|Hin]; [discriminate Hin|]).
  by apply elem_of_nil in Hin.
Defined.

(** ** The total is linear, with factors that are not negative *)

Section LinearQ.
Local Open Scope Q_scope.

Lemma get_or_0_data_plus (d1 d2 : gmap string Q) k :
  get_or_0 (data_plus d1 d2) k == get_or_0 d1 k + get_or_0 d2 k.
Proof.
  unfold get_or_0, data_plus. rewrite lookup_union_with.
  destruct (d1 !! k), (d2 !! k); simpl; change (inject_Z 0) with 0; lra.
Qed.

(** X2.  Over exact arithmetic the total of two dictionaries added key by
    key is the sum of their totals, and raising quantities never lowers the
    total: if every one of the ten quantities of one dictionary is at most
    that of another, so is its total. *)
Theorem calculate_total_carbon_linear (d1 d2 : gmap string Q) :
  calculate_total_carbon (data_plus d1 d2)
    == calculate_total_carbon d1 + calculate_total_carbon d2 /\
  ((forall k, k ∈ raw_keys -> get_or_0 d1 k <= get_or_0 d2 k) ->
   calculate_total_carbon d1 <= calculate_total_carbon d2).
Proof.
  split.
  - rewrite !calculate_total_carbon_Q, !sum_of_categories_Q.
    rewrite !get_or_0_data_plus. unfold Qdiv. change (/ 25) with (1 # 25). lra.
  - intros Hle. rewrite !calculate_total_carbon_Q, !sum_of_categories_Q.
    pose proof (Hle "electricity_kwh" ltac:(unfold raw_keys; in_list)).
    pose proof (Hle "natural_gas_therms" ltac:(unfold raw_keys; in_list)).
    pose proof (Hle "water_gallons" ltac:(unfold raw_keys; in_list)).
    pose proof (Hle "car_miles" ltac:(unfold raw_keys; in_list)).
    pose proof (Hle "public_transit_miles" ltac:(unfold raw_keys; in_list)).
    pose proof (Hle "flights_short_haul" ltac:(unfold raw_keys; in_list)).
    pose proof (Hle "flights_long_haul" ltac:(unfold raw_keys; in_list)).
    pose proof (Hle "meat_servings" ltac:(unfold raw_keys; in_list)).
    pose proof (Hle "dairy_servings" ltac:(unfold raw_keys; in_list)).
    pose proof (Hle "veg_servings" ltac:(unfold raw_keys; in_list)).
    unfold Qdiv. change (/ 25) with (1 # 25). lra.
Qed.
End LinearQ.

Lemma calculate_total_carbon_linear_witness :
  (calculate_total_carbon (A := Q) ∅ <= calculate_total_carbon (data_raw sample_data))%Q.
Proof.
  apply (proj2 (calculate_total_carbon_linear ∅ (data_raw sample_data))).
  intros k Hk. unfold get_or_0. rewrite lookup_empty. simpl.
  destruct (decide (k = "electricity_kwh")) as [->|Hne].
  - by vm_compute.
  - unfold sample_data. simpl. rewrite lookup_singleton_ne by done. by vm_compute.
Defined.

(** ** No exception reaches the pages *)

Section Returns.
Context {A : Type}.

Lemma returns_ret {R} (r : R) : returns (mret r : M A R).
Proof. intros w. by exists r. Qed.

Lemma returns_bind {R1 R2} (c : M A R1) (k : R1 -> M A R2) :
  returns c -> (forall r, returns (k r)) -> returns (c ≫= k).
Proof.
  intros Hc Hk w. unfold mbind, M_bind. destruct (Hc w) as [r Hr].
  destruct (c w) as [o w1]. simpl in Hr. subst o. apply Hk.
Qed.

Lemma returns_try_except {R} (body handler : M A R) :
  returns handler -> returns (try_except body handler).
Proof.
  intros Hh w. unfold try_except. destruct (body w) as [[r|] w1]; [by exists r|apply Hh].
Qed.

Lemma returns_run_query {R} (stmt : statement A R) fetch : returns (run_query stmt fetch).
Proof. intros w. apply run_query_returns. Qed.
End Returns.

(** X3.  None of the functions that talk to the database lets an exception
    out, whatever statement fails: each returns a value in every world. *)
Theorem database_functions_return {A} `{PyNum A} (hash_password : string -> string) :
  (forall n p, returns (login_user (A := A) hash_password n p)) /\
  (forall n p m f l, returns (register_user (A := A) hash_password n p m f l)) /\
  (forall u o n, returns (change_password (A := A) hash_password u o n)) /\
  (forall u f l b p m, returns (update_user_profile (A := A) u f l b p m)) /\
  (forall u pd, returns (update_user_profile_data (A := A) u pd)) /\
  (forall u, returns (get_user_profile (A := A) u)) /\
  (forall u e, returns (update_user_streak (A := A) u e)) /\
  (forall u, returns (get_user_streak (A := A) u)) /\
  (forall t u data, returns (save_carbon_footprint t u data)) /\
  (forall u, returns (get_user_footprint_history (A := A) u)) /\
  returns (get_all_carbon_entries (A := A)) /\
  (forall t u, returns (get_dashboard_stats t u)).
Proof.
  assert (Hprofile : forall u f l b p m, returns (update_user_profile (A := A) u f l b p m)).
  { intros. apply returns_try_except, returns_ret. }
  repeat split.
  - intros n p. apply returns_bind; [apply returns_run_query|].
    intros [[|u us]|]; apply returns_ret.
  - intros n p m f l. apply returns_bind; [apply returns_run_query|]. intros r.
    destruct (match r with Some count => 0 <? count | None => false end);
      [apply returns_ret|apply returns_try_except, returns_ret].
  - intros u o n. apply returns_bind; [apply returns_run_query|]. intros r.
    destruct (match r with Some count => count =? 0 | None => true end);
      [apply returns_ret|apply returns_try_except, returns_ret].
  - apply Hprofile.
  - intros u pd. unfold update_user_profile_data.
    destruct (pd !! "first_name"), (pd !! "last_name"), (pd !! "bio"),
      (pd !! "location"), (pd !! "email"); first [apply Hprofile | apply returns_ret].
  - intros u. apply returns_bind; [apply returns_run_query|]. intros r. apply returns_ret.
  - intros u e w. exists tt. apply update_user_streak_returns.
  - intros u. apply returns_bind; [apply returns_run_query|]. intros r. apply returns_ret.
  - intros t u data. apply returns_try_except, returns_ret.
  - intros u. apply returns_bind; [apply returns_run_query|]. intros r. apply returns_ret.
  - apply returns_bind; [apply returns_run_query|]. intros r. apply returns_ret.
  - intros t u. apply returns_bind.
    + apply returns_bind; [apply returns_run_query|]. intros r. apply returns_ret.
    + intros [|r rs]; apply returns_ret.
Qed.

(** ** Logging in *)

Section Login.
Context {A : Type}.
Variable hash_password : string -> string.

Lemma login_user_ok (d : database A) name pass fs :
  head fs <> Some true ->
  login_user hash_password name pass {| db := d; faults := fs |} =
    (Ret match filter (fun u => username u = name /\ password u = hash_password pass)
                 (users d) with
         | u :: _ => (true, Some u)
         | [] => (false, None)
         end,
     {| db := d; faults := tail fs |}).
Proof.
  intros Hfs. unfold login_user, mbind, M_bind.
  rewrite (run_query_ok _ d d
    (filter (fun u => username u = name /\ password u = hash_password pass) (users d)))
    by done.
  by destruct (filter _ _).
Qed.

Lemma login_user_reads (name pass : string) :
  respects (A := A) eq (login_user hash_password name pass).
Proof.
  apply respects_bind; [apply _|apply respects_run_query, query_respects; apply _|].
  intros [[|u us]|]; apply respects_ret; apply _.
Qed.
End Login.

(** X4.  [login_user] never changes the database.  When its query does not
    fail it succeeds exactly when some row has the user name and the hash of
    the password, and then returns the first such row; when the query fails
    it answers as for wrong credentials. *)
Theorem login_user_checks_credentials {A} (hash_password : string -> string)
    (d : database A) (name pass : string) :
  (forall fs, db (snd (login_user hash_password name pass {| db := d; faults := fs |})) = d) /\
  (forall fs u,
     head fs <> Some true ->
     fst (login_user hash_password name pass {| db := d; faults := fs |}) = Ret (true, Some u) ->
     u ∈ users d /\ username u = name /\ password u = hash_password pass) /\
  (forall fs,
     head fs <> Some true ->
     Exists (fun u => username u = name /\ password u = hash_password pass) (users d) ->
     exists u, fst (login_user hash_password name pass {| db := d; faults := fs |})
               = Ret (true, Some u)) /\
  (forall fs,
     ~ Exists (fun u => username u = name /\ password u = hash_password pass) (users d) ->
     fst (login_user hash_password name pass {| db := d; faults := fs |}) = Ret (false, None)) /\
  (forall fs,
     fst (login_user hash_password name pass {| db := d; faults := true :: fs |})
     = Ret (false, None)).
Proof.
  split; [|split; [|split; [|split]]].
  - intros fs. symmetry. apply (login_user_reads hash_password name pass {| db := d; faults := fs |}).
  - intros fs u Hfs. rewrite login_user_ok by done. simpl.
    destruct (filter _ (users d)) as [|u0 us] eqn:Hf; [done|]. intros [= <-].
    assert (Hin : u0 ∈ filter (fun u => username u = name /\ password u = hash_password pass)
                     (users d)) by (rewrite Hf; left).
    apply list_elem_of_filter in Hin. tauto.
  - intros fs Hfs Hex. rewrite login_user_ok by done. simpl.
    destruct (filter _ (users d)) as [|u0 us] eqn:Hf; [|by eexists].
    exfalso. apply Exists_exists in Hex as (u & Hin & Hu).
    assert (Hin' : u ∈ filter (fun u => username u = name /\ password u = hash_password pass)
                      (users d)) by (by apply list_elem_of_filter).
    rewrite Hf in Hin'. by apply elem_of_nil in Hin'.
  - intros fs Hno. destruct fs as [|[] fs]; [| reflexivity |];
      (rewrite login_user_ok by done; simpl; by rewrite (filter_none _ _ Hno)).
  - reflexivity.
Qed.

Lemma login_user_checks_credentials_witness :
  let d := db (snd (register_user (fun s => s) "ada" "secret" "ada@example.org" "Ada" "L"
                      {| db := empty_database (A := Q); faults := [] |})) in
  exists u, fst (login_user (fun s => s) "ada" "secret" {| db := d; faults := [] |})
            = Ret (true, Some u).
Proof.
  intros d.
  apply (proj1 (proj2 (proj2 (login_user_checks_credentials (fun s => s) d "ada" "secret")))).
  - done.
  - vm_compute. apply Exists_cons_hd. by split.
Defined.

(** X5.  Registering with a free name and email and then logging in with the
    same password, no statement failing, succeeds and returns the new
    account: the next free id, the given profile, not an administrator, the
    password kept as its hash.  A password with another hash is refused. *)
Theorem register_then_login {A} (hash_password : string -> string) (d : database A)
    (name pass mail first last : string) (fs : list bool) :
  no_fault fs = true ->
  ~ Exists (fun u => username u = name \/ email u = mail) (users d) ->
  let w1 := snd (register_user hash_password name pass mail first last
                   {| db := d; faults := fs |}) in
  fst (login_user hash_password name pass w1) =
    Ret (true, Some {| users_id := next_user_id d; username := name;
                       password := hash_password pass; email := mail;
                       first_name := first; last_name := last; bio := ""; location := "";
                       is_admin := false |}) /\
  (forall other, hash_password other <> hash_password pass ->
     fst (login_user hash_password name other w1) = Ret (false, None)).
Proof.
  intros Hfs Hfresh w1.
  destruct (register_user_fresh hash_password d name pass mail first last fs Hfs Hfresh)
    as (fs' & Hfs' & Hrun).
  subst w1. rewrite Hrun. simpl.
  assert (Hold : forall h, filter (fun u => username u = name /\ password u = h) (users d) = []).
  { intros h. apply filter_none. intros Hex. apply Hfresh.
    eapply Exists_impl; [exact Hex|]. intros u [Hu _]. by left. }
  split.
  - rewrite login_user_ok by (by apply no_fault_head). simpl.
    rewrite filter_app, Hold. simpl. by rewrite filter_cons, decide_True by done.
  - intros other Hother.
    rewrite login_user_ok by (by apply no_fault_head). simpl.
    rewrite filter_app, Hold. simpl.
    rewrite filter_cons, decide_False; [done|]. simpl. intros [_ Hp]. by apply Hother.
Qed.

Lemma register_then_login_witness :
  let w1 := snd (register_user (fun s => s) "ada" "secret" "ada@example.org" "Ada" "L"
                   {| db := empty_database (A := Q); faults := [] |}) in
  fst (login_user (fun s => s) "ada" "guess" w1) = Ret (false, None).
Proof.
  intros w1.
  apply (proj2 (register_then_login (fun s => s) empty_database
                  "ada" "secret" "ada@example.org" "Ada" "L" [] eq_refl
                  ltac:(by intros Hex%Exists_nil))).
  done.
Defined.

(** ** Registering a taken name *)

(** X6.  When the name or the email is already in the table and the
    duplicate check runs, [register_user] refuses with its message and
    leaves the database as it was.  When the check itself fails, the
    registration of a taken user name goes on: the [INSERT] is refused, yet
    the function reports success and gives the account that owns the name a
    second streak record. *)
Theorem register_user_taken {A} (hash_password : string -> string) (d : database A)
    (name pass mail first last : string) :
  (forall fs,
     head fs <> Some true ->
     Exists (fun u => username u = name \/ email u = mail) (users d) ->
     register_user hash_password name pass mail first last {| db := d; faults := fs |}
     = (Ret (false, "Username or email already exists"), {| db := d; faults := tail fs |})) /\
  (forall fs owner rest,
     no_fault fs = true ->
     filter (fun u => username u = name) (users d) = owner :: rest ->
     exists fs',
       register_user hash_password name pass mail first last
         {| db := d; faults := true :: fs |}
       = (Ret (true, "Registration successful"),
          {| db := set_user_streaks
                     (user_streaks d ++ [default_streak (users_id owner)]) d;
             faults := fs' |})).
Proof.
  split.
  - intros fs Hfs Hex. unfold register_user, mbind, M_bind.
    rewrite (run_query_ok _ d d
      (Z.of_nat (length (filter (fun u => username u = name \/ email u = mail) (users d)))))
      by done.
    destruct (filter _ (users d)) as [|u us] eqn:Hf.
    + exfalso. apply Exists_exists in Hex as (u & Hin & Hu).
      assert (Hin' : u ∈ filter (fun u => username u = name \/ email u = mail) (users d))
        by (by apply list_elem_of_filter).
      rewrite Hf in Hin'. by apply elem_of_nil in Hin'.
    + assert ((0 <? Z.of_nat (length (u :: us))) = true) as ->
        by (apply Z.ltb_lt; simpl; lia).
      done.
  - intros fs owner rest Hfs Hown.
    exists (tail (tail (tail (tail fs)))).
    assert (Hex : Exists (fun u => username u = name \/ email u = mail) (users d)).
    { apply Exists_exists. exists owner.
      assert (Hin : owner ∈ filter (fun u => username u = name) (users d))
        by (rewrite Hown; left).
      apply list_elem_of_filter in Hin as [Hn Hin]. split; [done|by left]. }
    unfold register_user, mbind, M_bind. rewrite run_query_fault. simpl.
    unfold try_except, mbind, M_bind.
    rewrite (run_query_refused (insert_user name (hash_password pass) mail first last false))
      by (unfold insert_user; by rewrite decide_True by done).
    simpl.
    rewrite (run_query_ok _ d d (users_id <$> (owner :: rest)));
      [|fault_free|by unfold select_user_id, query; rewrite Hown].
    simpl.
    by rewrite (run_query_commit_ok _ d _ tt) by fault_free.
Qed.

Lemma register_user_taken_witness :
  let d := db (snd (register_user (fun s => s) "ada" "secret" "ada@example.org" "Ada" "L"
                      {| db := empty_database (A := Q); faults := [] |})) in
  register_user (fun s => s) "ada" "other" "ada2@example.org" "A" "L"
    {| db := d; faults := [] |}
  = (Ret (false, "Username or email already exists"), {| db := d; faults := [] |}).
Proof.
  intros d.
  apply (proj1 (register_user_taken (fun s => s) d "ada" "other" "ada2@example.org" "A" "L") []).
  - done.
  - vm_compute. apply Exists_cons_hd. by left.
Defined.

(** ** Properties of the accounts kept by every run *)

#[export] Instance keeps_users_preorder {A} (P : list user_row -> Prop) :
  PreOrder (@keeps_users A P).
Proof.
  split.
  - intros d Hd. exact Hd.
  - intros d1 d2 d3 H12 H23 H1. apply H23, H12, H1.
Qed.

Section UserInvariant.
Context {A : Type} `{PyNum A} (P : list user_row -> Prop).
Variable hash_password : string -> string.
Hypothesis P_insert : forall n p m f l,
  statement_respects (keeps_users P) (insert_user (A := A) n (hash_password p) m f l false).
Hypothesis P_password : forall p u,
  statement_respects (keeps_users P) (update_password (A := A) (hash_password p) u).
Hypothesis P_profile : forall f l b p m u,
  statement_respects (keeps_users P) (update_profile (A := A) f l b p m u).
Hypothesis P_init : forall d : database A, keeps_users P d (init_database hash_password d).

Lemma streak_statements_keep_users :
  (forall r, streak_ok r -> statement_respects (keeps_users P) (insert_streak (A := A) r)) /\
  (forall c l e t u, c <= l ->
     statement_respects (keeps_users P) (update_streaks (A := A) c l e t u)) /\
  (forall r, statement_respects (keeps_users P) (insert_footprint (A := A) r)).
Proof.
  split; [|split].
  - intros r _ d x d' [= _ <-] Hd. exact Hd.
  - intros c l e t u _ d x d' [= _ <-] Hd. exact Hd.
  - intros r d x d' [= _ <-] Hd. exact Hd.
Qed.

Lemma run_call_keeps_users c (w : world A) :
  keeps_users P (db w) (db (run_call hash_password c w)).
Proof.
  destruct streak_statements_keep_users as (Hs & Hu & Hf).
  destruct c; simpl.
  - apply P_init.
  - unfold register_user.
    apply respects_bind; [apply _|apply respects_run_query, query_respects; apply _|intros r].
    destruct (match r with Some count => 0 <? count | None => false end);
      [apply respects_ret; apply _|].
    apply respects_try_except; [apply _| |apply respects_ret; apply _].
    apply respects_bind; [apply _|apply respects_run_query; [apply _|apply P_insert]|intros _].
    apply respects_bind; [apply _|apply respects_run_query, query_respects; apply _|].
    intros [[|uid ids]|]; try (apply respects_ret; apply _).
    apply respects_bind; [apply _| |intros; apply respects_ret; apply _].
    apply respects_run_query; [apply _|]. apply Hs. unfold streak_ok. simpl. lia.
  - unfold change_password.
    apply respects_bind; [apply _|apply respects_run_query, query_respects; apply _|intros r].
    destruct (match r with Some count => count =? 0 | None => true end);
      [apply respects_ret; apply _|].
    apply respects_try_except; [apply _| |apply respects_ret; apply _].
    apply respects_bind; [apply _|apply respects_run_query; [apply _|apply P_password]|intros _].
    apply respects_ret; apply _.
  - apply update_user_profile_respects; [apply _|apply P_profile].
  - apply save_carbon_footprint_respects; [apply _|exact Hs|exact Hu|exact Hf].
  - apply update_user_streak_respects; [apply _|exact Hs|exact Hu].
  - apply get_user_footprint_history_respects; apply _.
  - apply get_dashboard_stats_respects; apply _.
  - apply get_user_streak_respects; apply _.
Qed.

Lemma reachable_users (d : database A) : P [] -> reachable hash_password d -> P (users d).
Proof.
  intros Hnil (cs & fs & <-).
  assert (Hall : forall cs (w : world A), P (users (db w)) ->
                   P (users (db (run_calls hash_password cs w)))).
  { clear cs fs. intros cs. induction cs as [|c cs IH]; intros w Hw; [done|].
    simpl. apply IH. by apply run_call_keeps_users. }
  by apply Hall.
Qed.
End UserInvariant.

Section AccountsSafe.
Context {A : Type}.
Variable hash_password : string -> string.

Lemma insert_user_safe n p m f l (a : bool) :
  (a = true -> n = "admin") ->
  statement_respects (A := A) (keeps_users (accounts_safe hash_password))
    (insert_user n (hash_password p) m f l a).
Proof.
  intros Ha d uid d' Hs Hd. unfold insert_user in Hs.
  destruct (decide _); [done|]. simplify_eq. unfold accounts_safe in *. simpl.
  apply Forall_app. split; [done|]. apply Forall_singleton. simpl.
  split; [done|by exists p].
Qed.

Lemma update_password_safe p u :
  statement_respects (A := A) (keeps_users (accounts_safe hash_password))
    (update_password (hash_password p) u).
Proof.
  intros d x d' [= _ <-] Hd. unfold accounts_safe in *. simpl.
  apply Forall_fmap. eapply Forall_impl; [exact Hd|].
  intros r [Hadmin Hhash]. simpl. destruct (decide _); [|done].
  simpl. split; [done|by exists p].
Qed.

Lemma update_profile_safe f l b p m u :
  statement_respects (A := A) (keeps_users (accounts_safe hash_password))
    (update_profile f l b p m u).
Proof.
  intros d x d' Hs Hd. unfold update_profile in Hs.
  destruct (decide _); [done|]. simplify_eq. unfold accounts_safe in *. simpl.
  apply Forall_fmap. eapply Forall_impl; [exact Hd|].
  intros r [Hadmin Hhash]. simpl. by destruct (decide _).
Qed.

Lemma init_database_safe (d : database A) :
  keeps_users (accounts_safe hash_password) d (init_database hash_password d).
Proof.
  intros Hd. unfold init_database. destruct (decide _); [done|].
  destruct (insert_user _ _ _ _ _ _ d) as [[uid d1]|] eqn:Hi; [|done].
  simpl. by apply (insert_user_safe _ _ _ _ _ true ltac:(done) d uid d1 Hi).
Qed.
End AccountsSafe.

(** X7.  In every database a run can reach, whatever fails on the way, the
    only account that can be an administrator is the one named [admin] that
    [init_database] creates, and every stored password is the digest of some
    password, never the password as typed. *)
Theorem accounts_stay_safe {A} `{PyNum A} (hash_password : string -> string)
    (d : database A) (u : user_row) :
  reachable hash_password d ->
  u ∈ users d ->
  (is_admin u = true -> username u = "admin") /\
  (exists p, password u = hash_password p).
Proof.
  intros Hd Hu.
  assert (Hsafe : accounts_safe hash_password (users d)).
  { apply (reachable_users (accounts_safe hash_password) hash_password); [| | | |by constructor|done].
    - intros n p m f l. by apply insert_user_safe.
    - apply update_password_safe.
    - apply update_profile_safe.
    - apply init_database_safe. }
  unfold accounts_safe in Hsafe. rewrite Forall_forall in Hsafe. by apply Hsafe.
Qed.

Lemma accounts_stay_safe_witness :
  let d := db (run_calls (fun s => String.append "#" s)
                 [CInit; CRegister "ada" "secret" "ada@example.org" "Ada" "L"]
                 {| db := empty_database (A := Q); faults := [] |}) in
  let u := {| users_id := 2; username := "ada"; password := "#secret";
              email := "ada@example.org"; first_name := "Ada"; last_name := "L";
              bio := ""; location := ""; is_admin := false |} in
  u ∈ users d /\
  (is_admin u = true -> username u = "admin") /\
  (exists p, password u = String.append "#" p).
Proof.
  intros d u.
  assert (Hu : u ∈ users d) by (vm_compute; apply list_elem_of_further, list_elem_of_here).
  split; [exact Hu|].
  apply (accounts_stay_safe (fun s => String.append "#" s) d u); [|exact Hu].
  by exists [CInit; CRegister "ada" "secret" "ada@example.org" "Ada" "L"], [].
Defined.

Section UsersDistinct.
Context {A : Type}.

Lemma users_id_below_next (d : database A) u :
  u ∈ users d -> users_id u < next_user_id d.
Proof.
  unfold next_user_id. induction (users d) as [|x xs IH]; intros Hin.
  - by apply elem_of_nil in Hin.
  - rewrite fmap_cons. cbn [foldr].
    apply elem_of_cons in Hin as [->|Hin]; [lia|].
    specialize (IH Hin). lia.
Qed.

Lemma insert_user_distinct n p m f l (a : bool) :
  statement_respects (A := A) (keeps_users users_distinct) (insert_user n p m f l a).
Proof.
  intros d uid d' Hs (Hids & Hnames & Hmails). unfold insert_user in Hs.
  destruct (decide _) as [|Hfresh]; [done|]. simplify_eq. unfold users_distinct. simpl.
  rewrite !fmap_app. simpl.
  assert (Hno : forall u, u ∈ users d -> username u <> n /\ email u <> m).
  { intros u Hu. split; intros He; apply Hfresh, Exists_exists; exists u; tauto. }
  split; [|split]; apply NoDup_app; (split; [done|]); (split; [|apply NoDup_singleton]);
    intros x Hx Hx'; apply list_elem_of_singleton in Hx'; subst x;
    apply list_elem_of_fmap in Hx as (u & Hu & Hin).
  - pose proof (users_id_below_next d u Hin). lia.
  - by destruct (Hno u Hin).
  - by destruct (Hno u Hin).
Qed.

Lemma update_password_distinct p u :
  statement_respects (A := A) (keeps_users users_distinct) (update_password p u).
Proof.
  intros d x d' [= _ <-] (Hids & Hnames & Hmails). unfold users_distinct. simpl.
  rewrite <- !list_fmap_compose.
  split; [|split].
  - rewrite (list_fmap_ext _ users_id (users d)); [done|].
    intros i r _. simpl. by destruct (decide _).
  - rewrite (list_fmap_ext _ username (users d)); [done|].
    intros i r _. simpl. by destruct (decide _).
  - rewrite (list_fmap_ext _ email (users d)); [done|].
    intros i r _. simpl. by destruct (decide _).
Qed.

Lemma update_profile_distinct f l b p m u :
  statement_respects (A := A) (keeps_users users_distinct) (update_profile f l b p m u).
Proof.
  intros d x d' Hs (Hids & Hnames & Hmails). unfold update_profile in Hs.
  destruct (decide _) as [|Hfree]; [done|]. simplify_eq. unfold users_distinct. simpl.
  split; [|split].
  { rewrite <- list_fmap_compose. rewrite (list_fmap_ext _ users_id (users d)); [done|].
    intros i r _. simpl. by destruct (decide _). }
  { rewrite <- list_fmap_compose. rewrite (list_fmap_ext _ username (users d)); [done|].
    intros i r _. simpl. by destruct (decide _). }
  clear Hnames. revert Hids Hmails Hfree.
  induction (users d) as [|y ys IH]; intros Hids Hmails Hfree; [constructor|].
  rewrite fmap_cons in Hids. rewrite fmap_cons in Hmails. rewrite !fmap_cons.
  pose proof (NoDup_cons_1_1 _ _ Hids) as Hy. pose proof (NoDup_cons_1_2 _ _ Hids) as Hids'.
  pose proof (NoDup_cons_1_1 _ _ Hmails) as Hmy.
  pose proof (NoDup_cons_1_2 _ _ Hmails) as Hmails'.
  apply NoDup_cons_2.
  - intros Hin. apply list_elem_of_fmap in Hin as (z' & Hz & Hzin').
    apply list_elem_of_fmap in Hzin' as (z & -> & Hzin).
    assert (Hzid : users_id z <> users_id y).
    { intros He. apply Hy. apply list_elem_of_fmap. by exists z. }
    assert (Hzm : email z <> email y).
    { intros He. apply Hmy. apply list_elem_of_fmap. by exists z. }
    destruct (decide (users_id y = u)) as [Hyu|Hyu], (decide (users_id z = u)) as [Hzu|Hzu];
      cbn [email] in Hz.
    + congruence.
    + apply Hfree. split; [by apply Exists_cons_hd|].
      apply Exists_cons_tl, Exists_exists. exists z. split; [done|]. by split.
    + apply Hfree. split; [apply Exists_cons_tl, Exists_exists; by exists z|].
      apply Exists_cons_hd. by split.
    + congruence.
  - apply IH; [done|done|].
    intros [H1 H2]. apply Hfree. split; by apply Exists_cons_tl.
Qed.

Lemma init_database_distinct hash_password (d : database A) :
  keeps_users users_distinct d (init_database hash_password d).
Proof.
  intros Hd. unfold init_database. destruct (decide _); [done|].
  destruct (insert_user _ _ _ _ _ _ d) as [[uid d1]|] eqn:Hi; [|done].
  simpl. by apply (insert_user_distinct _ _ _ _ _ _ d uid d1 Hi).
Qed.
End UsersDistinct.

(** X8.  In every database a run can reach, whatever fails on the way, no
    two accounts share an id, a user name or an email. *)
Theorem accounts_stay_distinct {A} `{PyNum A} (hash_password : string -> string)
    (d : database A) :
  reachable hash_password d ->
  NoDup (users_id <$> users d) /\
  NoDup (username <$> users d) /\
  NoDup (email <$> users d).
Proof.
  intros Hd.
  apply (reachable_users users_distinct hash_password); [| | | | |done].
  - intros n p m f l. apply insert_user_distinct.
  - intros p u. apply update_password_distinct.
  - apply update_profile_distinct.
  - apply init_database_distinct.
  - unfold users_distinct. simpl. repeat split; constructor.
Qed.

Lemma accounts_stay_distinct_witness :
  let d := db (run_calls (fun s => s)
                 [CInit; CRegister "ada" "secret" "ada@example.org" "Ada" "L";
                  CRegister "ada" "again" "ada2@example.org" "Ada" "L"]
                 {| db := empty_database (A := Q); faults := [true] |}) in
  NoDup (users_id <$> users d) /\
  NoDup (username <$> users d) /\
  NoDup (email <$> users d).
Proof.
  intros d. apply (accounts_stay_distinct (fun s => s) d).
  by exists [CInit; CRegister "ada" "secret" "ada@example.org" "Ada" "L";
             CRegister "ada" "again" "ada2@example.org" "Ada" "L"], [true].
Defined.

(** ** Changing the password *)

Lemma filter_some {B} (P : B -> Prop) `{!forall x, Decision (P x)} (l : list B) :
  Exists P l -> exists x xs, filter P l = x :: xs.
Proof.
  intros Hex. destruct (filter P l) as [|x xs] eqn:Hf; [|by eexists _, _].
  exfalso. apply Exists_exists in Hex as (y & Hin & Hy).
  assert (Hin' : y ∈ filter P l) by (by apply list_elem_of_filter).
  rewrite Hf in Hin'. by apply elem_of_nil in Hin'.
Qed.

Lemma change_password_ok {A} (hash_password : string -> string) (d : database A)
    (user_id : Z) (old new : string) (fs : list bool) :
  no_fault fs = true ->
  Exists (fun u => users_id u = user_id /\ password u = hash_password old) (users d) ->
  exists d',
    change_password hash_password user_id old new {| db := d; faults := fs |}
      = (Ret (true, "Password updated successfully"),
         {| db := d'; faults := tail (tail (tail fs)) |}) /\
    update_password (hash_password new) user_id d = Some (tt, d').
Proof.
  intros Hfs Hex. eexists. split; [|reflexivity].
  unfold change_password, mbind, M_bind.
  rewrite (run_query_ok _ d d
    (Z.of_nat (length (filter (fun u => users_id u = user_id /\ password u = hash_password old)
                         (users d))))) by (by apply no_fault_head || done).
  destruct (filter_some _ _ Hex) as (x & xs & ->).
  assert ((Z.of_nat (length (x :: xs)) =? 0) = false) as -> by (apply Z.eqb_neq; simpl; lia).
  unfold try_except, mbind, M_bind.
  by erewrite run_query_commit_ok by fault_free.
Qed.

(** X9.  [change_password] changes nothing and reports a wrong current
    password when no row has the id with the digest of the old password, and
    also when the check itself fails.  When the old password is right and
    nothing fails, every row of that id gets the digest of the new password,
    no other column and no other account changes, and a login with the new
    password succeeds. *)
Theorem change_password_checks_old {A} (hash_password : string -> string) (d : database A)
    (user_id : Z) (old new : string) :
  (forall fs,
     ~ Exists (fun u => users_id u = user_id /\ password u = hash_password old) (users d) ->
     fst (change_password hash_password user_id old new {| db := d; faults := fs |})
       = Ret (false, "Current password is incorrect") /\
     db (snd (change_password hash_password user_id old new {| db := d; faults := fs |})) = d) /\
  (forall fs,
     change_password hash_password user_id old new {| db := d; faults := true :: fs |}
     = (Ret (false, "Current password is incorrect"), {| db := d; faults := fs |})) /\
  (forall fs u,
     no_fault fs = true ->
     u ∈ users d -> users_id u = user_id -> password u = hash_password old ->
     let res := change_password hash_password user_id old new {| db := d; faults := fs |} in
     fst res = Ret (true, "Password updated successfully") /\
     users (db (snd res)) =
       (fun v => if decide (users_id v = user_id)
                 then {| users_id := users_id v; username := username v;
                         password := hash_password new; email := email v;
                         first_name := first_name v; last_name := last_name v;
                         bio := bio v; location := location v; is_admin := is_admin v |}
                 else v) <$> users d /\
     carbon_footprint (db (snd res)) = carbon_footprint d /\
     user_streaks (db (snd res)) = user_streaks d /\
     exists v, fst (login_user hash_password (username u) new (snd res)) = Ret (true, Some v)).
Proof.
  split; [|split].
  - intros fs Hno. destruct fs as [|[] fs]; [|by split|];
      (unfold change_password, mbind, M_bind;
       rewrite (run_query_ok _ d d
         (Z.of_nat (length (filter (fun u => users_id u = user_id /\
                                              password u = hash_password old) (users d)))))
         by done;
       by rewrite (filter_none _ _ Hno)).
  - reflexivity.
  - intros fs u Hfs Hin Hid Hpw res.
    assert (Hex : Exists (fun u => users_id u = user_id /\ password u = hash_password old)
                    (users d)).
    { apply Exists_exists. by exists u. }
    destruct (change_password_ok hash_password d user_id old new fs Hfs Hex)
      as (d' & Hrun & Hupd).
    subst res. rewrite Hrun. simpl. injection Hupd as <-. simpl.
    split; [done|]. split; [done|]. split; [done|]. split; [done|].
    apply (proj1 (proj2 (proj2 (login_user_checks_credentials hash_password _ _ _)))).
    + fault_free.
    + simpl. apply Exists_exists. eexists. split.
      * apply list_elem_of_fmap. exists u. split; [reflexivity|done].
      * rewrite decide_True by done. by simpl.
Qed.

Lemma change_password_checks_old_witness :
  let d := db (snd (register_user (fun s => s) "ada" "secret" "ada@example.org" "Ada" "L"
                      {| db := empty_database (A := Q); faults := [] |})) in
  fst (change_password (fun s => s) 1 "guess" "new" {| db := d; faults := [] |})
    = Ret (false, "Current password is incorrect") /\
  db (snd (change_password (fun s => s) 1 "guess" "new" {| db := d; faults := [] |})) = d.
Proof.
  intros d.
  apply (proj1 (change_password_checks_old (fun s => s) d 1 "guess" "new") []).
  vm_compute. intros Hex. apply Exists_cons in Hex as [[_ Hp]|Hex]; [done|].
  by apply Exists_nil in Hex.
Defined.

(** ** Updating the profile *)

(** X10.  [update_user_profile] answers that the profile was updated in
    every world.  When another account holds the new email the [UPDATE] is
    refused and the database stays as it was, with that same answer.
    Otherwise, when the statement does not fail, the rows of that id get the
    five new fields and keep their id, user name, password and
    administrator flag; no other row or table changes, and
    [get_user_profile] then returns the updated row.  Called with a
    dictionary that lacks one of the five keys it fails without sending a
    statement. *)
Theorem update_user_profile_effect {A} (d : database A) (user_id : Z)
    (first last about place mail : string) :
  let updated v :=
    if decide (users_id v = user_id)
    then {| users_id := users_id v; username := username v; password := password v;
            email := mail; first_name := first; last_name := last;
            bio := about; location := place; is_admin := is_admin v |}
    else v in
  (forall w : world A,
     fst (update_user_profile user_id first last about place mail w)
     = Ret (true, "Profile updated successfully")) /\
  (forall fs,
     Exists (fun u => users_id u = user_id) (users d) ->
     Exists (fun u => users_id u <> user_id /\ email u = mail) (users d) ->
     db (snd (update_user_profile user_id first last about place mail
                {| db := d; faults := fs |})) = d) /\
  (forall fs u rest,
     no_fault fs = true ->
     ~ Exists (fun u => users_id u <> user_id /\ email u = mail) (users d) ->
     filter (fun u => users_id u = user_id) (users d) = u :: rest ->
     let w1 := snd (update_user_profile user_id first last about place mail
                      {| db := d; faults := fs |}) in
     db w1 = set_users (updated <$> users d) d /\
     fst (get_user_profile user_id w1) = Ret (Some (updated u))) /\
  (forall (profile_data : gmap string string) (w : world A),
     (exists k, k ∈ ["first_name"; "last_name"; "bio"; "location"; "email"] /\
                profile_data !! k = None) ->
     update_user_profile_data user_id profile_data w
     = (Ret (false, "Error updating profile"), w)).
Proof.
  intros updated. split; [|split; [|split]].
  - intros w. unfold update_user_profile, try_except, mbind, M_bind.
    by destruct (run_query_any (update_profile first last about place mail user_id) false w)
      as (o & fs' & [-> | (r & d' & _ & ->)]).
  - intros fs Hid Hmail. unfold update_user_profile, try_except, mbind, M_bind.
    rewrite (run_query_refused (update_profile first last about place mail user_id));
      [done|].
    unfold update_profile. by rewrite decide_True by done.
  - intros fs u rest Hfs Hfree Hu w1.
    assert (Hrun : update_user_profile user_id first last about place mail
                     {| db := d; faults := fs |}
                   = (Ret (true, "Profile updated successfully"),
                      {| db := set_users (updated <$> users d) d;
                         faults := tail (tail fs) |})).
    { unfold update_user_profile, try_except, mbind, M_bind.
      erewrite run_query_commit_ok; [reflexivity|fault_free|].
      unfold update_profile. rewrite decide_False by tauto. reflexivity. }
    subst w1. rewrite Hrun. simpl. split; [done|].
    unfold get_user_profile, mbind, M_bind.
    erewrite run_query_ok; [|fault_free|reflexivity].
    simpl.
    assert (Hf : filter (fun v => users_id v = user_id) (updated <$> users d)
                 = updated <$> filter (fun v => users_id v = user_id) (users d)).
    { clear. induction (users d) as [|y ys IH]; [done|].
      rewrite fmap_cons, !filter_cons.
      assert (Hy : users_id (updated y) = users_id y)
        by (unfold updated; by destruct (decide _)).
      destruct (decide (users_id y = user_id)) as [Hyu|Hyu].
      - rewrite decide_True by congruence. by rewrite fmap_cons, IH.
      - by rewrite decide_False by congruence. }
    by rewrite Hf, Hu.
  - intros profile_data w (k & Hk & Hnone). unfold update_user_profile_data.
    repeat (apply elem_of_cons in Hk as [->|Hk]; [rewrite Hnone|]).
    + done.
    + by destruct (profile_data !! "first_name").
    + by destruct (profile_data !! "first_name"), (profile_data !! "last_name").
    + by destruct (profile_data !! "first_name"), (profile_data !! "last_name"),
        (profile_data !! "bio").
    + by destruct (profile_data !! "first_name"), (profile_data !! "last_name"),
        (profile_data !! "bio"), (profile_data !! "location").
    + by apply elem_of_nil in Hk.
Qed.

Lemma update_user_profile_effect_witness :
  let d := db (run_calls (fun s => s)
                 [CInit; CRegister "ada" "secret" "ada@example.org" "Ada" "L"]
                 {| db := empty_database (A := Q); faults := [] |}) in
  db (snd (update_user_profile 2 "Ada" "L" "" "" "admin@carbontracker.com"
             {| db := d; faults := [] |})) = d.
Proof.
  intros d.
  apply (proj1 (proj2 (update_user_profile_effect d 2 "Ada" "L" "" ""
                          "admin@carbontracker.com")) []).
  - vm_compute. apply Exists_cons_tl, Exists_cons_hd. done.
  - vm_compute. apply Exists_cons_hd. done.
Defined.

(** ** Start-up *)

(** X11.  [init_database] can be run again and again: a second run changes
    nothing, and it never touches the footprint entries.  On a database
    without an account named [admin] and without the administrator's email,
    it adds the administrator with the next free id and a streak record of
    zeros for that id, after which logging in as [admin] with the default
    password succeeds. *)
Theorem init_database_idempotent {A} (hash_password : string -> string) (d : database A) :
  let admin :=
    {| users_id := next_user_id d; username := "admin";
       password := hash_password "admin123"; email := "admin@carbontracker.com";
       first_name := "System"; last_name := "Administrator"; bio := ""; location := "";
       is_admin := true |} in
  init_database hash_password (init_database hash_password d) = init_database hash_password d /\
  carbon_footprint (init_database hash_password d) = carbon_footprint d /\
  (~ Exists (fun u => username u = "admin" \/ email u = "admin@carbontracker.com") (users d) ->
   users (init_database hash_password d) = users d ++ [admin] /\
   user_streaks (init_database hash_password d)
     = user_streaks d ++ [default_streak (next_user_id d)] /\
   forall fs, head fs <> Some true ->
     fst (login_user hash_password "admin" "admin123"
            {| db := init_database hash_password d; faults := fs |})
     = Ret (true, Some admin)).
Proof.
  intros admin. split; [|split].
  - unfold init_database at 2 3.
    destruct (decide (Exists (fun u => username u = "admin") (users d))) as [Hex|Hno].
    + unfold init_database. by rewrite decide_True by done.
    + unfold insert_user.
      destruct (decide (Exists _ (users d))) as [Htaken|Hfree].
      * unfold init_database. rewrite decide_False by done.
        unfold insert_user. by rewrite decide_True by done.
      * unfold init_database. simpl. rewrite decide_True; [done|].
        apply Exists_app. right. by apply Exists_cons_hd.
  - unfold init_database. destruct (decide _); [done|].
    unfold insert_user. by destruct (decide _).
  - intros Hfree.
    assert (Hno : ~ Exists (fun u => username u = "admin") (users d)).
    { intros Hex. apply Hfree. eapply Exists_impl; [exact Hex|]. intros u Hu. by left. }
    assert (Hinit : init_database hash_password d
                    = {| users := users d ++ [admin];
                         carbon_footprint := carbon_footprint d;
                         user_streaks := user_streaks d ++ [default_streak (next_user_id d)] |}).
    { unfold init_database. rewrite decide_False by done.
      unfold insert_user. by rewrite decide_False by done. }
    rewrite Hinit. simpl. split; [done|]. split; [done|].
    intros fs Hfs. rewrite login_user_ok by done. simpl.
    rewrite filter_app, (filter_none _ (users d)).
    + simpl. by rewrite filter_cons, decide_True by done.
    + intros Hex. apply Hno. eapply Exists_impl; [exact Hex|]. by intros u [Hu _].
Qed.

Lemma init_database_idempotent_witness :
  fst (login_user (fun s => s) "admin" "admin123"
         {| db := init_database (fun s => s) (empty_database (A := Q)); faults := [] |})
  = Ret (true, Some {| users_id := 1; username := "admin"; password := "admin123";
                       email := "admin@carbontracker.com"; first_name := "System";
                       last_name := "Administrator"; bio := ""; location := "";
                       is_admin := true |}).
Proof.
  apply (proj2 (proj2 (init_database_idempotent (fun s => s) (empty_database (A := Q))))).
  - by intros Hex%Exists_nil.
  - done.
Defined.

(** ** What a streak update can do to the table *)

(** Whatever fails, [update_user_streak] leaves the table as it was, or
    appends the record of a first entry, or rewrites the rows of the user
    from the first of them. *)
Lemma update_user_streak_shape {A} (u e : Z) (w : world A) :
  let d := db w in
  let d' := db (snd (update_user_streak u e w)) in
  d' = d \/
  d' = set_user_streaks (user_streaks d ++ [first_streak u e]) d \/
  exists r c,
    r ∈ user_streaks d /\ streak_of d u = Some r /\
    (c = 1 \/ (c = current_streak r + 1 /\ last_entry_date r = Some (e - 1))) /\
    d' = set_user_streaks (rewritten u r c e (user_streaks d)) d.
Proof.
  intros d d'. subst d d'. unfold update_user_streak, mbind, M_bind.
  destruct (run_query_cases (select_streaks u) w) as [(rows & d1 & Hsel & ->) | ->].
  - injection Hsel as Hrows <-. simpl.
    destruct rows as [|r rows].
    + destruct (run_query_any (insert_streak (first_streak u e)) false
                  {| db := db w; faults := tail (faults w) |})
        as (o & fs' & [Hq | (x & d2 & Hd & Hq)]);
        unfold first_streak in Hq; rewrite Hq; simpl; [by left|].
      injection Hd as <-. by right; left.
    + assert (Hfirst : streak_of (db w) u = Some r)
        by (unfold streak_of, streaks_of; by rewrite Hrows).
      assert (Hin : r ∈ user_streaks (db w)).
      { assert (Hin' : r ∈ filter (fun r => streak_user_id r = u) (user_streaks (db w)))
          by (rewrite Hrows; left).
        by apply list_elem_of_filter in Hin' as [_ ?]. }
      assert (Hcase : forall c,
        (c = 1 \/ (c = current_streak r + 1 /\ last_entry_date r = Some (e - 1))) ->
        let w2 := snd (run_query
                    (update_streaks c (Z.max (longest_streak r) c) e (total_entries r + 1) u)
                    false {| db := db w; faults := tail (faults w) |}) in
        db w2 = db w \/
        db w2 = set_user_streaks (user_streaks (db w) ++ [first_streak u e]) (db w) \/
        exists r0 c0,
          r0 ∈ user_streaks (db w) /\ streak_of (db w) u = Some r0 /\
          (c0 = 1 \/ (c0 = current_streak r0 + 1 /\ last_entry_date r0 = Some (e - 1))) /\
          db w2 = set_user_streaks (rewritten u r0 c0 e (user_streaks (db w))) (db w)).
      { intros c Hc w2. subst w2.
        destruct (run_query_any
                    (update_streaks c (Z.max (longest_streak r) c) e (total_entries r + 1) u)
                    false {| db := db w; faults := tail (faults w) |})
          as (o & fs' & [-> | (x & d2 & Hd & ->)]); simpl; [by left|].
        injection Hd as <-. right; right. by exists r, c. }
      destruct (last_entry_date r) as [last|] eqn:Hl.
      * destruct (e - last =? 1) eqn:H1.
        { apply Z.eqb_eq in H1.
          specialize (Hcase (current_streak r + 1)
                        ltac:(right; split; [done|f_equal; lia])).
          simpl in Hcase. by destruct (run_query _ _ _) as [[?|] ?]. }
        destruct (e - last =? 0); [by left|].
        specialize (Hcase 1 ltac:(by left)). simpl in Hcase.
        by destruct (run_query _ _ _) as [[?|] ?].
      * specialize (Hcase 1 ltac:(by left)). simpl in Hcase.
        by destruct (run_query _ _ _) as [[?|] ?].
  - destruct (run_query_any (insert_streak (first_streak u e)) false
                {| db := db w; faults := tail (faults w) |})
      as (o & fs' & [Hq | (x & d2 & Hd & Hq)]);
      unfold first_streak in Hq; rewrite Hq; simpl; [by left|].
    injection Hd as <-. by right; left.
Qed.

(** ** Properties of the streak table kept by every run *)

#[export] Instance keeps_streaks_preorder {A} (P : list streak_row -> Prop) :
  PreOrder (@keeps_streaks A P).
Proof.
  split.
  - intros d Hd. exact Hd.
  - intros d1 d2 d3 H12 H23 H1. apply H23, H12, H1.
Qed.

Section StreakTableInvariant.
Context {A : Type} `{PyNum A} (P : list streak_row -> Prop).
Variable hash_password : string -> string.
Hypothesis P_default : forall rows uid, P rows -> P (rows ++ [default_streak uid]).
Hypothesis P_first : forall rows u e, P rows -> P (rows ++ [first_streak u e]).
Hypothesis P_rewritten : forall rows u r c e,
  P rows -> r ∈ rows -> head (filter (fun x => streak_user_id x = u) rows) = Some r ->
  (c = 1 \/ (c = current_streak r + 1 /\ last_entry_date r = Some (e - 1))) ->
  P (rewritten u r c e rows).

Lemma update_user_streak_keeps_streaks u e :
  respects (A := A) (keeps_streaks P) (update_user_streak u e).
Proof.
  intros w Hw.
  destruct (update_user_streak_shape u e w) as [-> | [-> | (r & c & Hin & Hr & Hc & ->)]].
  - done.
  - simpl. by apply P_first.
  - simpl. by apply P_rewritten.
Qed.

Lemma run_call_keeps_streaks c (w : world A) :
  keeps_streaks P (db w) (db (run_call hash_password c w)).
Proof.
  assert (Hdef : forall uid, statement_respects (A := A) (keeps_streaks P)
                               (insert_streak (default_streak uid))).
  { intros uid d x d' [= _ <-] Hd. simpl. by apply P_default. }
  assert (Huser : forall n p m f l a,
            statement_respects (A := A) (keeps_streaks P) (insert_user n p m f l a)).
  { intros n p m f l a d x d' Hs Hd. unfold insert_user in Hs.
    destruct (decide _); [done|]. by simplify_eq. }
  destruct c; simpl.
  - intros Hw. unfold init_database. destruct (decide _); [done|].
    destruct (insert_user _ _ _ _ _ _ (db w)) as [[uid d1]|] eqn:Hi; [|done].
    simpl. apply P_default. by apply (Huser _ _ _ _ _ _ _ _ _ Hi).
  - unfold register_user.
    apply respects_bind; [apply _|apply respects_run_query, query_respects; apply _|intros r].
    destruct (match r with Some count => 0 <? count | None => false end);
      [apply respects_ret; apply _|].
    apply respects_try_except; [apply _| |apply respects_ret; apply _].
    apply respects_bind; [apply _|apply respects_run_query; [apply _|apply Huser]|intros _].
    apply respects_bind; [apply _|apply respects_run_query, query_respects; apply _|].
    intros [[|uid ids]|]; try (apply respects_ret; apply _).
    apply respects_bind; [apply _| |intros; apply respects_ret; apply _].
    apply respects_run_query; [apply _|apply Hdef].
  - apply change_password_respects; [apply _|].
    intros p u d x d' [= _ <-] Hd. exact Hd.
  - apply update_user_profile_respects; [apply _|].
    intros f l b p m u d x d' Hs Hd. unfold update_profile in Hs.
    destruct (decide _); [done|]. by simplify_eq.
  - unfold save_carbon_footprint.
    apply respects_try_except; [apply _| |apply respects_ret; apply _].
    apply respects_bind; [apply _| |intros _].
    { apply respects_run_query; [apply _|]. intros d x d' [= _ <-] Hd. exact Hd. }
    apply respects_bind; [apply _|apply update_user_streak_keeps_streaks|intros _].
    apply respects_ret; apply _.
  - apply update_user_streak_keeps_streaks.
  - apply get_user_footprint_history_respects; apply _.
  - apply get_dashboard_stats_respects; apply _.
  - apply get_user_streak_respects; apply _.
Qed.

Lemma reachable_streaks (d : database A) :
  P [] -> reachable hash_password d -> P (user_streaks d).
Proof.
  intros Hnil (cs & fs & <-).
  assert (Hall : forall cs (w : world A), P (user_streaks (db w)) ->
                   P (user_streaks (db (run_calls hash_password cs w)))).
  { clear cs fs. intros cs. induction cs as [|c cs IH]; intros w Hw; [done|].
    simpl. apply IH. by apply run_call_keeps_streaks. }
  by apply Hall.
Qed.
End StreakTableInvariant.

(** X12.  In every database a run can reach, whatever fails on the way,
    each streak record has [0 <= current_streak <= longest_streak <=
    total_entries]; a record without a last entry date has counted no entry,
    and a record with one has a current streak of at least one day. *)
Theorem streak_counters_consistent {A} `{PyNum A} (hash_password : string -> string)
    (d : database A) (r : streak_row) :
  reachable hash_password d ->
  r ∈ user_streaks d ->
  0 <= current_streak r /\ current_streak r <= longest_streak r /\
  longest_streak r <= total_entries r /\
  (last_entry_date r = None -> total_entries r = 0) /\
  (last_entry_date r <> None -> 1 <= current_streak r).
Proof.
  intros Hd Hr.
  assert (Hall : Forall streak_counts_ok (user_streaks d)).
  { apply (reachable_streaks (Forall streak_counts_ok) hash_password); [| | |constructor|done].
    - intros rows uid Hrows. apply Forall_app. split; [done|].
      apply Forall_singleton. unfold streak_counts_ok. simpl. lia.
    - intros rows u e Hrows. apply Forall_app. split; [done|].
      apply Forall_singleton. unfold streak_counts_ok. simpl. lia.
    - intros rows u r0 c e Hrows Hin _ Hc. unfold rewritten.
      apply Forall_fmap. rewrite Forall_forall in Hrows.
      apply Forall_forall. intros x Hx. simpl. destruct (decide _); [|by apply Hrows].
      destruct (Hrows r0 Hin) as (H0 & H1 & H2 & H3).
      unfold streak_counts_ok. simpl.
      destruct Hc as [-> | [-> Hl]]; [lia|]. rewrite Hl in H3. lia. }
  rewrite Forall_forall in Hall. destruct (Hall r Hr) as (H0 & H1 & H2 & H3).
  repeat split; try done.
  - intros Hl. by rewrite Hl in H3.
  - intros Hl. by destruct (last_entry_date r).
Qed.

Lemma streak_counters_consistent_witness :
  let d := db (run_calls (fun s => s)
                 [CInit; CRecordEntry 1 5; CRecordEntry 1 6; CRecordEntry 1 9]
                 {| db := empty_database (A := Q); faults := [] |}) in
  let r := {| streak_user_id := 1; current_streak := 1; longest_streak := 2;
              last_entry_date := Some 9; total_entries := 3 |} in
  r ∈ user_streaks d /\
  0 <= current_streak r /\ current_streak r <= longest_streak r /\
  longest_streak r <= total_entries r /\
  (last_entry_date r = None -> total_entries r = 0) /\
  (last_entry_date r <> None -> 1 <= current_streak r).
Proof.
  intros d r.
  assert (Hr : r ∈ user_streaks d) by (vm_compute; apply list_elem_of_here).
  split; [exact Hr|].
  apply (streak_counters_consistent (fun s => s) d r); [|exact Hr].
  by exists [CInit; CRecordEntry 1 5; CRecordEntry 1 6; CRecordEntry 1 9], [].
Defined.

(** ** One user's saves and another user's data *)

Lemma rewritten_other (u v : Z) (r : streak_row) (c e : Z) (rows : list streak_row) :
  v <> u ->
  filter (fun x => streak_user_id x = v) (rewritten u r c e rows)
  = filter (fun x => streak_user_id x = v) rows.
Proof.
  intros Hv. unfold rewritten. induction rows as [|x xs IH]; [done|].
  rewrite fmap_cons, !filter_cons. destruct (decide (streak_user_id x = u)) as [Hx|Hx].
  - simpl. rewrite !decide_False by congruence. apply IH.
  - by rewrite IH.
Qed.

Lemma update_user_streak_other {A} (u e v : Z) (w : world A) :
  v <> u ->
  streaks_of (db (snd (update_user_streak u e w))) v = streaks_of (db w) v.
Proof.
  intros Hv. unfold streaks_of.
  destruct (update_user_streak_shape u e w) as [-> | [-> | (r & c & _ & _ & _ & ->)]].
  - done.
  - simpl. rewrite filter_app, filter_cons, decide_False by (simpl; congruence).
    by rewrite filter_nil, app_nil_r.
  - simpl. by apply rewritten_other.
Qed.

(** X13.  Whatever fails, [save_carbon_footprint] for one user leaves every
    other user's streak rows and stored entries exactly as they were, and
    does not touch the accounts. *)
Theorem save_leaves_other_users {A} `{PyNum A} (today u v : Z) (data : footprint_data A)
    (w : world A) :
  v <> u ->
  let d' := db (snd (save_carbon_footprint today u data w)) in
  streaks_of d' v = streaks_of (db w) v /\
  filter (fun r => cf_user_id r = v) (carbon_footprint d')
    = filter (fun r => cf_user_id r = v) (carbon_footprint (db w)) /\
  users d' = users (db w).
Proof.
  intros Hv d'. subst d'. rewrite save_carbon_footprint_steps. simpl.
  set (w1 := snd (run_query (insert_footprint (entry_row u today data)) false w)).
  destruct (update_user_streak_only_streaks u (default today (data_date data)) w1)
    as [Hu Hc].
  rewrite (update_user_streak_other u _ v w1 Hv), Hu, Hc. subst w1.
  destruct (run_query_any (insert_footprint (entry_row u today data)) false w)
    as (o & fs' & [-> | (x & d1 & Hd & ->)]); simpl; [done|].
  injection Hd as _ <-. unfold streaks_of. simpl. split; [done|]. split; [|done].
  rewrite filter_app, filter_cons, decide_False by (simpl; congruence).
  by rewrite filter_nil, app_nil_r.
Qed.

Lemma save_leaves_other_users_witness :
  streaks_of (db (snd (save_carbon_footprint 11 3 sample_data
                         {| db := sample_db; faults := [false; true] |}))) 7
  = [sample_streak].
Proof.
  apply (save_leaves_other_users 11 3 7 sample_data
           {| db := sample_db; faults := [false; true] |}).
  done.
Defined.

(** ** Streaks of any length *)

Lemma days_from_S (n : Z) (k : nat) : days_from n (S k) = n :: days_from (n + 1) k.
Proof.
  unfold days_from. rewrite <- cons_seq, fmap_cons, <- fmap_S_seq, <- list_fmap_compose.
  f_equal; [simpl; lia|]. apply list_fmap_ext. intros i x _. simpl. lia.
Qed.

Lemma next_streak_run (u : Z) (k : nat) : forall (r : streak_row) (n : Z),
  last_entry_date r = Some (n - 1) ->
  foldl (fun o e => next_streak u e o) (Some r) (days_from n (S k))
  = Some {| streak_user_id := streak_user_id r;
            current_streak := current_streak r + Z.of_nat (S k);
            longest_streak := Z.max (longest_streak r) (current_streak r + Z.of_nat (S k));
            last_entry_date := Some (n + Z.of_nat k);
            total_entries := total_entries r + Z.of_nat (S k) |}.
Proof.
  induction k as [|k IH]; intros r n Hl.
  - rewrite days_from_S. unfold days_from. simpl. rewrite Hl.
    replace (n - (n - 1) =? 1) with true by (symmetry; apply Z.eqb_eq; lia).
    change (Z.of_nat 1) with 1. change (Z.of_nat 0) with 0. by rewrite Z.add_0_r.
  - rewrite days_from_S. cbn [foldl]. unfold next_streak at 2. rewrite Hl.
    replace (n - (n - 1) =? 1) with true by (symmetry; apply Z.eqb_eq; lia).
    rewrite IH by (simpl; f_equal; lia). simpl. f_equal. f_equal; try lia.
    f_equal. lia.
Qed.

(** X14.  With no failing statement, entries on [k] days in a row count up:
    for a user without a record, or with the record made at registration,
    they give a current and a longest streak of [k] days and [k] entries;
    for a record whose last entry was the day before the first of them, the
    current streak and the entries grow by [k] and the longest streak is
    raised to the new current streak when that is larger. *)
Theorem consecutive_days_streak {A} (d : database A) (u n : Z) (k : nat) (fs : list bool) :
  no_fault fs = true ->
  let d' := db (record_entries u (days_from n (S k)) {| db := d; faults := fs |}) in
  (streak_of d u = None \/ streak_of d u = Some (default_streak u) ->
   streak_of d' u =
     Some {| streak_user_id := u; current_streak := Z.of_nat (S k);
             longest_streak := Z.of_nat (S k); last_entry_date := Some (n + Z.of_nat k);
             total_entries := Z.of_nat (S k) |}) /\
  (forall r, streak_of d u = Some r -> last_entry_date r = Some (n - 1) ->
   streak_of d' u =
     Some {| streak_user_id := u;
             current_streak := current_streak r + Z.of_nat (S k);
             longest_streak := Z.max (longest_streak r) (current_streak r + Z.of_nat (S k));
             last_entry_date := Some (n + Z.of_nat k);
             total_entries := total_entries r + Z.of_nat (S k) |}).
Proof.
  intros Hfs d'. subst d'. rewrite record_entries_next by done. split.
  - intros Hstart.
    assert (Hone : foldl (fun o e => next_streak u e o) (streak_of d u) [n]
                   = Some (first_streak u n))
      by (by destruct Hstart as [-> | ->]).
    rewrite days_from_S. cbn [foldl]. simpl in Hone. rewrite Hone.
    destruct k as [|k].
    { unfold days_from, first_streak. simpl. by rewrite Z.add_0_r. }
    rewrite next_streak_run by (simpl; f_equal; lia).
    cbn [first_streak streak_user_id current_streak longest_streak total_entries].
    replace (1 + Z.of_nat (S k)) with (Z.of_nat (S (S k))) by lia.
    replace (Z.max 1 (Z.of_nat (S (S k)))) with (Z.of_nat (S (S k))) by lia.
    replace (n + 1 + Z.of_nat k) with (n + Z.of_nat (S k)) by lia.
    reflexivity.
  - intros r Hr Hl. rewrite Hr, (next_streak_run u k r n Hl).
    by rewrite (streak_of_user _ _ _ Hr).
Qed.

Lemma consecutive_days_streak_witness :
  streak_of (db (record_entries 7 (days_from 11 3) {| db := sample_db; faults := [] |})) 7
  = Some {| streak_user_id := 7; current_streak := 5; longest_streak := 5;
            last_entry_date := Some 13; total_entries := 8 |}.
Proof.
  apply (proj2 (consecutive_days_streak sample_db 7 11 2 [] eq_refl) sample_streak);
    reflexivity.
Defined.

(** ** Failures in the middle of a save *)

(** X15.  When the [SELECT] of [update_user_streak] fails and the [INSERT]
    that follows does not, a user who already has a streak record gets a
    second one, for a first entry; the older record stays the one that
    [get_user_streak] returns. *)
Theorem failed_select_duplicates_record {A} (d : database A) (u e : Z) (r : streak_row)
    (fs : list bool) :
  no_fault fs = true ->
  streak_of d u = Some r ->
  let w1 := snd (update_user_streak u e {| db := d; faults := true :: fs |}) in
  user_streaks (db w1) = user_streaks d ++ [first_streak u e] /\
  streaks_of (db w1) u = streaks_of d u ++ [first_streak u e] /\
  (length (streaks_of (db w1) u) >= 2)%nat /\
  fst (get_user_streak u w1) = Ret (Some r).
Proof.
  intros Hfs Hr w1.
  assert (Hrun : update_user_streak u e {| db := d; faults := true :: fs |}
                 = (Ret tt, {| db := set_user_streaks (user_streaks d ++ [first_streak u e]) d;
                               faults := tail (tail fs) |})).
  { unfold update_user_streak, mbind, M_bind. rewrite run_query_fault.
    by rewrite (run_query_commit_ok _ d _ tt) by fault_free. }
  subst w1. rewrite Hrun. simpl.
  assert (Hrows : streaks_of (set_user_streaks (user_streaks d ++ [first_streak u e]) d) u
                  = streaks_of d u ++ [first_streak u e]).
  { unfold streaks_of. simpl. by rewrite filter_app, filter_cons, decide_True by done. }
  split; [done|]. split; [exact Hrows|]. split.
  - rewrite Hrows, length_app. unfold streak_of in Hr.
    destruct (streaks_of d u); [done|]. simpl. lia.
  - unfold get_user_streak, mbind, M_bind.
    erewrite run_query_ok; [|fault_free|reflexivity].
    simpl. unfold streaks_of in Hrows. simpl in Hrows. rewrite Hrows.
    unfold streak_of, streaks_of in Hr.
    destruct (filter _ (user_streaks d)) as [|x xs]; [done|]. by simplify_eq/=.
Qed.

Lemma failed_select_duplicates_record_witness :
  streaks_of (db (snd (update_user_streak 7 11
                         {| db := sample_db; faults := [true] |}))) 7
  = [sample_streak; first_streak 7 11].
Proof.
  apply (failed_select_duplicates_record sample_db 7 11 sample_streak [] eq_refl eq_refl).
Defined.

Lemma save_carbon_footprint_counts {A} `{PyNum A} today u (data : footprint_data A)
    (d : database A) (b : bool) fs :
  no_fault fs = true ->
  exists d' fs',
    no_fault fs' = true /\
    save_carbon_footprint today u data {| db := d; faults := b :: fs |}
      = (Ret true, {| db := d'; faults := fs' |}) /\
    carbon_footprint d'
      = (if b then carbon_footprint d else carbon_footprint d ++ [entry_row u today data]) /\
    users d' = users d /\
    streak_of d' u = next_streak u (default today (data_date data)) (streak_of d u) /\
    (forall r, streak_of d u = Some r ->
       last_entry_date r = Some (default today (data_date data)) ->
       user_streaks d' = user_streaks d).
Proof.
  intros Hfs. rewrite save_carbon_footprint_steps.
  set (d1 := if b then d
             else set_carbon_footprint (carbon_footprint d ++ [entry_row u today data]) d).
  set (fs1 := if b then fs else tail fs).
  assert (Hfs1 : no_fault fs1 = true) by (subst fs1; destruct b; [done|by apply no_fault_tail]).
  assert (Hq : snd (run_query (insert_footprint (entry_row u today data)) false
                      {| db := d; faults := b :: fs |}) = {| db := d1; faults := fs1 |}).
  { subst d1 fs1. destruct b; [done|]. by erewrite run_query_commit_ok by done. }
  rewrite Hq.
  destruct (update_user_streak_next d1 u (default today (data_date data)) fs1 Hfs1)
    as (d' & fs' & Hfs' & Hrun & Hnext).
  destruct (update_user_streak_only_streaks u (default today (data_date data))
              {| db := d1; faults := fs1 |}) as [Hu Hc].
  rewrite Hrun in *. simpl in *.
  assert (Hs1 : streak_of d1 u = streak_of d u) by (subst d1; by destruct b).
  exists d', fs'. split; [done|]. split; [done|].
  split; [rewrite Hc; subst d1; by destruct b|].
  split; [rewrite Hu; subst d1; by destruct b|].
  split; [by rewrite Hnext, Hs1|].
  intros r Hr Hl. rewrite <- Hs1 in Hr.
  rewrite (update_user_streak_same_day d1 u _ r fs1 Hfs1 Hr Hl) in Hrun.
  injection Hrun as <- _. subst d1. by destruct b.
Qed.

(** X16.  Two saves for the same date, with no failing statement, store two
    rows while the streak counts the day once: the second save appends its
    row and leaves the streak table as the first save left it. *)
Theorem same_day_saves {A} `{PyNum A} (today u : Z) (data1 data2 : footprint_data A)
    (d : database A) (fs : list bool) :
  no_fault fs = true ->
  default today (data_date data2) = default today (data_date data1) ->
  let w1 := snd (save_carbon_footprint today u data1 {| db := d; faults := fs |}) in
  let w2 := snd (save_carbon_footprint today u data2 w1) in
  carbon_footprint (db w2)
    = carbon_footprint d ++ [entry_row u today data1; entry_row u today data2] /\
  user_streaks (db w2) = user_streaks (db w1) /\
  streak_of (db w1) u = next_streak u (default today (data_date data1)) (streak_of d u).
Proof.
  intros Hfs Hdate w1 w2.
  assert (Hsave : forall (data : footprint_data A) (d0 : database A) fs0,
    no_fault fs0 = true ->
    exists d' fs',
      no_fault fs' = true /\
      save_carbon_footprint today u data {| db := d0; faults := fs0 |}
        = (Ret true, {| db := d'; faults := fs' |}) /\
      carbon_footprint d' = carbon_footprint d0 ++ [entry_row u today data] /\
      streak_of d' u = next_streak u (default today (data_date data)) (streak_of d0 u) /\
      (forall r, streak_of d0 u = Some r ->
         last_entry_date r = Some (default today (data_date data)) ->
         user_streaks d' = user_streaks d0)).
  { intros data d0 fs0 Hfs0'. destruct fs0 as [|[] fs1]; [|done|].
    - destruct (save_carbon_footprint_counts today u data d0 false [] eq_refl)
        as (d' & fs' & ? & Hrun & ? & _ & ? & ?).
      assert (Hsame : save_carbon_footprint today u data {| db := d0; faults := [] |}
                      = save_carbon_footprint today u data {| db := d0; faults := [false] |})
        by (by rewrite !save_carbon_footprint_steps).
      rewrite Hsame. by exists d', fs'.
    - destruct (save_carbon_footprint_counts today u data d0 false fs1 Hfs0')
        as (d' & fs' & ? & Hrun & ? & _ & ? & ?).
      by exists d', fs'. }
  destruct (Hsave data1 d fs Hfs) as (d1 & fs1 & Hfs1 & Hrun1 & Hc1 & Hs1 & _).
  subst w2 w1. rewrite Hrun1. simpl.
  destruct (Hsave data2 d1 fs1 Hfs1) as (d2 & fs2 & _ & Hrun2 & Hc2 & _ & Hsame).
  rewrite Hrun2. simpl. split; [|split; [|done]].
  - by rewrite Hc2, Hc1, <- app_assoc.
  - destruct (next_streak_last_date u (default today (data_date data1)) (streak_of d u))
      as (r1 & Hr1 & Hl1).
    apply (Hsame r1); [by rewrite Hs1|]. by rewrite Hdate.
Qed.

Lemma same_day_saves_witness :
  let w1 := snd (save_carbon_footprint 9 1 sample_data
                   {| db := empty_database; faults := [] |}) in
  let w2 := snd (save_carbon_footprint 9 1 negative_data w1) in
  length (carbon_footprint (db w2)) = 2%nat /\
  user_streaks (db w2) = [first_streak 1 5].
Proof.
  intros w1 w2.
  destruct (same_day_saves 9 1 sample_data negative_data empty_database [] eq_refl eq_refl)
    as (Hc & Hs & _).
  fold w1 w2 in Hc, Hs. split; [by rewrite Hc|by rewrite Hs].
Defined.

(** X17.  When the [cursor.execute] of the entry's [INSERT] raises and
    nothing after it fails, [save_carbon_footprint] still returns [True] and
    still updates the streak: no row is stored, yet the streak record counts
    the day.  When the [INSERT] runs and only its commit raises, nothing is
    undone: the row is in the table, the streak record counts the day, and
    the tables are those of a save in which nothing failed. *)
Theorem failed_insert_still_counted {A} `{PyNum A} (today u : Z) (data : footprint_data A)
    (d : database A) (fs : list bool) :
  no_fault fs = true ->
  let entry_date := default today (data_date data) in
  let refused := save_carbon_footprint today u data {| db := d; faults := true :: fs |} in
  let uncommitted :=
    save_carbon_footprint today u data {| db := d; faults := false :: true :: fs |} in
  (fst refused = Ret true /\
   carbon_footprint (db (snd refused)) = carbon_footprint d /\
   streak_of (db (snd refused)) u = next_streak u entry_date (streak_of d u) /\
   exists r, streak_of (db (snd refused)) u = Some r /\ last_entry_date r = Some entry_date) /\
  (fst uncommitted = Ret true /\
   carbon_footprint (db (snd uncommitted))
     = carbon_footprint d ++ [entry_row u today data] /\
   streak_of (db (snd uncommitted)) u = next_streak u entry_date (streak_of d u) /\
   db (snd uncommitted)
     = db (snd (save_carbon_footprint today u data
                  {| db := d; faults := false :: false :: fs |}))).
Proof.
  intros Hfs entry_date refused uncommitted. split.
  - destruct (save_carbon_footprint_counts today u data d true fs Hfs)
      as (d' & fs' & _ & Hrun & Hc & _ & Hs & _).
    subst refused. rewrite Hrun. simpl. split; [done|]. split; [done|]. split; [done|].
    rewrite Hs. apply next_streak_last_date.
  - assert (Hsame : uncommitted
                    = save_carbon_footprint today u data
                        {| db := d; faults := false :: false :: fs |}).
    { subst uncommitted. rewrite !save_carbon_footprint_steps.
      by erewrite !run_query_commit_ok by done. }
    rewrite Hsame.
    destruct (save_carbon_footprint_counts today u data d false (false :: fs) Hfs)
      as (d' & fs' & _ & Hrun & Hc & _ & Hs & _).
    rewrite Hrun. simpl. by repeat split.
Qed.

Lemma failed_insert_still_counted_witness :
  let refused := save_carbon_footprint 9 1 sample_data
                   {| db := empty_database; faults := [true] |} in
  let uncommitted := save_carbon_footprint 9 1 sample_data
                       {| db := empty_database; faults := [false; true] |} in
  (carbon_footprint (db (snd refused)) = [] /\
   streak_of (db (snd refused)) 1 = Some (first_streak 1 5)) /\
  (carbon_footprint (db (snd uncommitted)) = [entry_row 1 9 sample_data] /\
   streak_of (db (snd uncommitted)) 1 = Some (first_streak 1 5)).
Proof.
  intros refused uncommitted.
  destruct (failed_insert_still_counted 9 1 sample_data empty_database [] eq_refl)
    as ((_ & Hc & Hs & _) & (_ & Hc' & Hs' & _)).
  by repeat split.
Defined.

(** ** The history of a user *)

#[export] Instance date_desc_trans {A} : Transitive (@date_desc A).
Proof. intros r1 r2 r3. unfold date_desc. lia. Qed.

(** X18.  [get_user_footprint_history] never changes the database.  When its
    query does not fail it returns the stored rows of that user and no
    others, each as often as it is stored, ordered so that no row is dated
    later than a row before it; the first row therefore carries the latest
    date, the one [history_page] shows as the latest entry.  When the query
    fails it returns the empty frame, as for a user without entries. *)
Theorem get_user_footprint_history_lists {A} `{PyNum A} (u : Z) (d : database A) :
  (forall fs, db (snd (get_user_footprint_history u {| db := d; faults := fs |})) = d) /\
  (forall fs,
     head fs <> Some true ->
     exists listed,
       fst (get_user_footprint_history u {| db := d; faults := fs |}) = Ret listed /\
       listed ≡ₚ filter (fun r => cf_user_id r = u) (carbon_footprint d) /\
       (forall r, r ∈ listed <-> r ∈ carbon_footprint d /\ cf_user_id r = u) /\
       StronglySorted date_desc listed /\
       (forall r0 r, head listed = Some r0 -> r ∈ listed -> cf_date r <= cf_date r0)) /\
  (forall fs,
     fst (get_user_footprint_history u {| db := d; faults := true :: fs |}) = Ret []).
Proof.
  split; [|split].
  - intros fs. symmetry.
    apply (get_user_footprint_history_respects eq u {| db := d; faults := fs |}).
  - intros fs Hfs. rewrite get_user_footprint_history_ok by done. simpl.
    eexists. split; [reflexivity|].
    pose proof (merge_sort_Permutation date_desc
                  (filter (fun r => cf_user_id r = u) (carbon_footprint d))) as Hperm.
    pose proof (StronglySorted_merge_sort date_desc
                  (filter (fun r => cf_user_id r = u) (carbon_footprint d))) as Hsorted.
    split; [exact Hperm|]. split; [|split; [exact Hsorted|]].
    + intros r. rewrite Hperm, list_elem_of_filter. tauto.
    + intros r0 r Hhead Hin.
      destruct (merge_sort _ _) as [|x xs]; simplify_eq/=.
      apply StronglySorted_inv in Hsorted as [_ Hall].
      apply elem_of_cons in Hin as [->|Hin]; [lia|].
      rewrite Forall_forall in Hall. by apply Hall.
  - reflexivity.
Qed.

Lemma get_user_footprint_history_lists_witness :
  exists listed,
    fst (get_user_footprint_history 1
           {| db := {| users := []; carbon_footprint := [sample_row 3 10; sample_row 8 20];
                       user_streaks := [] |};
              faults := [] |}) = Ret listed /\
    head listed = Some (sample_row 8 20).
Proof.
  destruct (proj1 (proj2 (get_user_footprint_history_lists 1
              {| users := []; carbon_footprint := [sample_row 3 10; sample_row 8 20];
                 user_streaks := [] |})) [] ltac:(done))
    as (listed & Hl & _).
  exists listed. split; [exact Hl|].
  rewrite get_user_footprint_history_ok in Hl by done. simpl in Hl.
  injection Hl as <-. by vm_compute.
Defined.

(** ** Sums, means and extremes of a column, over exact arithmetic *)

Section ColumnsQ.
Local Open Scope Q_scope.

Lemma column_sum_app (xs ys : list Q) :
  column_sum (xs ++ ys) == column_sum xs + column_sum ys.
Proof.
  induction xs as [|x xs IH]; simpl.
  - rewrite column_sum_nil. lra.
  - rewrite !column_sum_cons, IH. lra.
Qed.

Lemma column_sum_perm (xs ys : list Q) : xs ≡ₚ ys -> column_sum xs == column_sum ys.
Proof.
  induction 1 as [|x xs ys _ IH|x y xs|xs ys zs _ IH1 _ IH2].
  - reflexivity.
  - by rewrite !column_sum_cons, IH.
  - rewrite !column_sum_cons. lra.
  - by rewrite IH1.
Qed.

Lemma ltb_Q_false (x y : Q) : ltb x y = false <-> y <= x.
Proof.
  cbn [ltb Q_num]. rewrite negb_false_iff. apply Qle_bool_iff.
Qed.

(** The smallest element found by the fold of [column_min]. *)
Lemma fold_min_spec (xs : list Q) : forall m0 : Q,
  let m := foldl (fun m y => if ltb y m then y else m) m0 xs in
  m ∈ m0 :: xs /\ m <= m0 /\ forall x, x ∈ xs -> m <= x.
Proof.
  induction xs as [|x xs IH]; intros m0; cbn [foldl].
  - split; [left|]. split; [lra|]. intros x Hx. by apply elem_of_nil in Hx.
  - destruct (ltb x m0) eqn:Hlt.
    + apply ltb_Q in Hlt. destruct (IH x) as (Hin & Hle & Hall).
      split; [by right|]. split; [lra|].
      intros y Hy. apply elem_of_cons in Hy as [->|Hy]; [done|by apply Hall].
    + apply ltb_Q_false in Hlt. destruct (IH m0) as (Hin & Hle & Hall).
      split; [|split; [done|]].
      * apply elem_of_cons in Hin as [->|Hin]; [left|by do 2 right].
      * intros y Hy. apply elem_of_cons in Hy as [->|Hy]; [lra|by apply Hall].
Qed.

Lemma fold_max_spec (xs : list Q) : forall m0 : Q,
  let m := foldl (fun m y => if ltb m y then y else m) m0 xs in
  m ∈ m0 :: xs /\ m0 <= m /\ forall x, x ∈ xs -> x <= m.
Proof.
  induction xs as [|x xs IH]; intros m0; cbn [foldl].
  - split; [left|]. split; [lra|]. intros x Hx. by apply elem_of_nil in Hx.
  - destruct (ltb m0 x) eqn:Hlt.
    + apply ltb_Q in Hlt. destruct (IH x) as (Hin & Hle & Hall).
      split; [by right|]. split; [lra|].
      intros y Hy. apply elem_of_cons in Hy as [->|Hy]; [done|by apply Hall].
    + apply ltb_Q_false in Hlt. destruct (IH m0) as (Hin & Hle & Hall).
      split; [|split; [done|]].
      * apply elem_of_cons in Hin as [->|Hin]; [left|by do 2 right].
      * intros y Hy. apply elem_of_cons in Hy as [->|Hy]; [lra|by apply Hall].
Qed.

Lemma column_sum_bounds (xs : list Q) (lo hi : Q) :
  (forall x, x ∈ xs -> lo <= x /\ x <= hi) ->
  inject_Z (Z.of_nat (length xs)) * lo <= column_sum xs /\
  column_sum xs <= inject_Z (Z.of_nat (length xs)) * hi.
Proof.
  induction xs as [|x xs IH]; intros Hall.
  - change (column_sum (A := Q) []) with 0.
    change (inject_Z (Z.of_nat (length (@nil Q)))) with 0. lra.
  - rewrite column_sum_cons. cbn [length]. rewrite Nat2Z.inj_succ, <- Z.add_1_r, inject_Z_plus.
    destruct (Hall x ltac:(left)) as [Hlo Hhi].
    destruct IH as [IHlo IHhi]; [intros y Hy; apply Hall; by right|].
    change (inject_Z 1) with 1. lra.
Qed.
End ColumnsQ.

(** X19.  For a user with entries, over exact arithmetic: the count of the
    statistics is the number of rows, the average times the count is the sum
    of the stored totals, the minimum and the maximum are stored totals that
    bound every stored total, and the average lies between them. *)
Theorem dashboard_basic_stats (today : Z) (history : list (footprint_row Q)) :
  history <> [] ->
  let s := dashboard_stats today history in
  stats_total_entries s = Z.of_nat (length history) /\
  (stats_avg_carbon s * inject_Z (stats_total_entries s) == stats_total_carbon s)%Q /\
  exists lo hi,
    stats_min_carbon history = Some lo /\
    stats_max_carbon history = Some hi /\
    lo ∈ total_carbon <$> history /\
    hi ∈ total_carbon <$> history /\
    (forall r, r ∈ history -> (lo <= total_carbon r)%Q /\ (total_carbon r <= hi)%Q) /\
    (lo <= stats_avg_carbon s)%Q /\ (stats_avg_carbon s <= hi)%Q.
Proof.
  intros Hne s.
  destruct history as [|r0 rest]; [done|]. clear Hne.
  set (history := r0 :: rest) in *.
  set (n := inject_Z (Z.of_nat (length history))).
  assert (Hn : (0 < n)%Q).
  { subst n history. cbn [length]. rewrite Nat2Z.inj_succ.
    change 0%Q with (inject_Z 0). rewrite <- Zlt_Qlt. lia. }
  assert (Havg : (stats_avg_carbon s == column_sum (total_carbon <$> history) / n)%Q).
  { subst s n. simpl. unfold column_mean. cbn [div Q_num of_Z].
    by rewrite length_fmap. }
  split; [done|]. split.
  { change (stats_total_carbon s) with (column_sum (total_carbon <$> history)).
    change (inject_Z (stats_total_entries s)) with n. rewrite Havg. field. lra. }
  pose proof (fold_min_spec (total_carbon <$> rest) (total_carbon r0)) as (Hmin & Hlo0 & Hlo).
  pose proof (fold_max_spec (total_carbon <$> rest) (total_carbon r0)) as (Hmax & Hhi0 & Hhi).
  set (lo := foldl (fun m y : Q => if ltb y m then y else m) (total_carbon r0)
               (total_carbon <$> rest)) in *.
  set (hi := foldl (fun m y : Q => if ltb m y then y else m) (total_carbon r0)
               (total_carbon <$> rest)) in *.
  assert (Hall : forall x, x ∈ total_carbon <$> history -> (lo <= x)%Q /\ (x <= hi)%Q).
  { intros x Hx. subst history. rewrite fmap_cons in Hx.
    apply elem_of_cons in Hx as [->|Hx]; [done|]. split; [by apply Hlo|by apply Hhi]. }
  exists lo, hi. split; [done|]. split; [done|]. split; [done|]. split; [done|]. split.
  { intros r Hr. apply Hall, list_elem_of_fmap. by exists r. }
  destruct (column_sum_bounds (total_carbon <$> history) lo hi Hall) as [Hsl Hsh].
  rewrite length_fmap in Hsl, Hsh. fold n in Hsl, Hsh. rewrite Havg. split.
  - apply Qle_shift_div_l; [done|]. lra.
  - apply Qle_shift_div_r; [done|]. lra.
Qed.

Lemma dashboard_basic_stats_witness :
  (stats_avg_carbon (dashboard_stats 100 [sample_row 95 10; sample_row 96 30])
   * inject_Z 2 == 40)%Q.
Proof.
  destruct (dashboard_basic_stats 100 [sample_row 95 10; sample_row 96 30] ltac:(done))
    as (_ & Havg & _).
  exact Havg.
Defined.

(** ** The statistics do not depend on the order of the rows *)

Section OrderQ.
Local Open Scope Q_scope.

Lemma mean_or_0_perm (rows1 rows2 : list (footprint_row Q)) :
  rows1 ≡ₚ rows2 -> mean_or_0 rows1 == mean_or_0 rows2.
Proof.
  intros Hperm. unfold mean_or_0.
  destruct rows1 as [|r1 rs1], rows2 as [|r2 rs2].
  - reflexivity.
  - by apply Permutation_nil_cons in Hperm.
  - symmetry in Hperm. by apply Permutation_nil_cons in Hperm.
  - unfold column_mean. cbn [div of_Z Q_num].
    rewrite !length_fmap, (Permutation_length Hperm).
    by rewrite (column_sum_perm _ _ (fmap_Permutation total_carbon _ _ Hperm)).
Qed.

Lemma trend_of_proper (r1 r2 p1 p2 : Q) :
  r1 == r2 -> p1 == p2 -> trend_of r1 p1 = trend_of r2 p2.
Proof.
  intros Hr Hp.
  assert (Hlt : forall a1 a2 b1 b2 : Q, a1 == a2 -> b1 == b2 -> ltb a1 b1 = ltb a2 b2).
  { intros a1 a2 b1 b2 Ha Hb.
    destruct (ltb a1 b1) eqn:H1, (ltb a2 b2) eqn:H2; try done.
    - apply ltb_Q in H1. apply ltb_Q_false in H2. lra.
    - apply ltb_Q in H2. apply ltb_Q_false in H1. lra. }
  unfold trend_of. by rewrite (Hlt r1 r2 p1 p2 Hr Hp), (Hlt p1 p2 r1 r2 Hp Hr).
Qed.
End OrderQ.

(** X20.  Over exact arithmetic the statistics of a frame are those of any
    reordering of it: the count, the total, the average, the two period
    means and the trend are the same, so the order SQLite gives to rows of
    the same date does not show in the dashboard. *)
Theorem dashboard_stats_order (today : Z) (h1 h2 : list (footprint_row Q)) :
  h1 ≡ₚ h2 ->
  let s1 := dashboard_stats today h1 in
  let s2 := dashboard_stats today h2 in
  stats_total_entries s1 = stats_total_entries s2 /\
  (stats_total_carbon s1 == stats_total_carbon s2)%Q /\
  (stats_avg_carbon s1 == stats_avg_carbon s2)%Q /\
  (stats_recent_avg s1 == stats_recent_avg s2)%Q /\
  (stats_previous_avg s1 == stats_previous_avg s2)%Q /\
  stats_trend s1 = stats_trend s2.
Proof.
  intros Hperm s1 s2.
  assert (Hsum : (column_sum (total_carbon <$> h1) == column_sum (total_carbon <$> h2))%Q)
    by (by apply column_sum_perm, fmap_Permutation).
  assert (Hrecent : (mean_or_0 (recent_data today h1) == mean_or_0 (recent_data today h2))%Q).
  { apply mean_or_0_perm. unfold recent_data. by apply filter_Permutation. }
  assert (Hprev : (mean_or_0 (previous_data today h1)
                   == mean_or_0 (previous_data today h2))%Q).
  { apply mean_or_0_perm. unfold previous_data. by apply filter_Permutation. }
  subst s1 s2. simpl. split; [by rewrite (Permutation_length Hperm)|].
  split; [done|]. split.
  { unfold column_mean. cbn [div of_Z Q_num].
    by rewrite !length_fmap, (Permutation_length Hperm), Hsum. }
  split; [done|]. split; [done|]. by apply trend_of_proper.
Qed.

Lemma dashboard_stats_order_witness :
  stats_trend (dashboard_stats 100 [sample_row 95 10; sample_row 60 30])
  = stats_trend (dashboard_stats 100 [sample_row 60 30; sample_row 95 10]).
Proof.
  apply (dashboard_stats_order 100 [sample_row 95 10; sample_row 60 30]
           [sample_row 60 30; sample_row 95 10]).
  apply perm_swap.
Defined.

(** ** The category breakdown *)

Section BreakdownQ.
Local Open Scope Q_scope.

Lemma row_total_Q (r : footprint_row Q) :
  calculate_total_carbon (row_raw r) ==
    electricity_kwh r * 0.4 + natural_gas_therms r * 5.3 + water_gallons r * 0.0002
    + car_miles r / 25 * 8.887 + public_transit_miles r * 0.17
    + (flights_short_haul r * 500 + flights_long_haul r * 1600)
    + (meat_servings r * 3.0 + dairy_servings r * 0.7 + veg_servings r * 0.2).
Proof. by rewrite calculate_total_carbon_Q, sum_of_categories_Q. Qed.

Lemma category_totals_cons (r : footprint_row Q) (history : list (footprint_row Q)) :
  column_sum (snd <$> category_totals (r :: history))
  == calculate_total_carbon (row_raw r) + column_sum (snd <$> category_totals history).
Proof.
  rewrite row_total_Q. unfold category_totals. cbv zeta.
  cbn [fmap list_fmap snd add mul div of_Z lit Q_num].
  rewrite !column_sum_cons. change (column_sum (A := Q) []) with 0.
  unfold Qdiv. change (/ inject_Z 25) with (1 # 25). change (/ 25) with (1 # 25).
  change (inject_Z 500) with 500. change (inject_Z 1600) with 1600. lra.
Qed.

Lemma category_totals_nil : column_sum (snd <$> category_totals (A := Q) []) == 0.
Proof. reflexivity. Qed.
End BreakdownQ.

(** X21.  Over exact arithmetic the seven entries of the category breakdown
    add up to the sum, over the rows, of the calculator's total of each
    row's raw columns; so for rows whose stored total is the calculator's,
    as [save_carbon_footprint] writes them, the breakdown adds up to the
    total of the statistics.  The breakdown of two frames put together is,
    category by category, the sum of their breakdowns. *)
Theorem category_breakdown_adds_up (today : Z) (history : list (footprint_row Q)) :
  (column_sum (snd <$> category_totals history)
   == column_sum ((fun r => calculate_total_carbon (row_raw r)) <$> history))%Q /\
  ((forall r, r ∈ history -> (total_carbon r == calculate_total_carbon (row_raw r))%Q) ->
   (column_sum (snd <$> category_totals history)
    == stats_total_carbon (dashboard_stats today history))%Q) /\
  (forall more : list (footprint_row Q),
     fst <$> category_totals (history ++ more) = fst <$> category_totals history /\
     Forall2 Qeq (snd <$> category_totals (history ++ more))
       (zip_with Qplus (snd <$> category_totals history) (snd <$> category_totals more))).
Proof.
  split; [|split].
  - induction history as [|r history IH]; [reflexivity|].
    by rewrite category_totals_cons, fmap_cons, column_sum_cons, IH.
  - change (stats_total_carbon (dashboard_stats today history))
      with (column_sum (total_carbon <$> history)).
    induction history as [|r history IH]; intros Hrows; [reflexivity|].
    rewrite category_totals_cons, fmap_cons, column_sum_cons.
    rewrite IH by (intros x Hx; apply Hrows; by right).
    by rewrite (Hrows r ltac:(left)).
  - intros more. split; [done|].
    unfold category_totals. cbv zeta. cbn [fmap list_fmap snd zip_with].
    rewrite !fmap_app.
    cbn [add mul div of_Z lit Q_num]. rewrite !column_sum_app.
    unfold Qdiv. change (/ inject_Z 25)%Q with (1 # 25)%Q.
    change (inject_Z 500) with 500%Q. change (inject_Z 1600) with 1600%Q.
    repeat (constructor; [lra|]). constructor.
Qed.

Lemma category_breakdown_adds_up_witness :
  let history := [entry_row 1 9 sample_data; entry_row 1 9 negative_data] in
  (column_sum (snd <$> category_totals history)
   == stats_total_carbon (dashboard_stats 100 history))%Q.
Proof.
  intros history.
  apply (proj1 (proj2 (category_breakdown_adds_up 100 history))).
  intros r Hr. subst history.
  apply elem_of_cons in Hr as [->|Hr];
    [|apply elem_of_cons in Hr as [->|Hr]; [|by apply elem_of_nil in Hr]];
    by rewrite calculate_total_carbon_row_raw.
Defined.

(** ** The slices of the pie chart *)

Section SlicesQ.
Local Open Scope Q_scope.

Lemma column_sum_nonneg (xs : list Q) : (forall x, x ∈ xs -> 0 <= x) -> 0 <= column_sum xs.
Proof.
  induction xs as [|x xs IH]; intros Hall.
  - change (column_sum (A := Q) []) with 0. lra.
  - rewrite column_sum_cons. pose proof (Hall x ltac:(left)).
    assert (0 <= column_sum xs) by (apply IH; intros y Hy; apply Hall; by right). lra.
Qed.

Lemma filtered_categories_sum (l : list (string * Q)) :
  (forall kv, kv ∈ l -> 0 <= snd kv) ->
  column_sum (snd <$> filtered_categories l) == column_sum (snd <$> l).
Proof.
  unfold filtered_categories. induction l as [|[k v] l IH]; intros Hall; [reflexivity|].
  rewrite filter_cons. pose proof (Hall (k, v) ltac:(left)) as Hv. simpl in Hv.
  assert (Hl : column_sum (snd <$> filter (fun kv => ltb (of_Z 0) (snd kv) = true) l)
               == column_sum (snd <$> l)) by (apply IH; intros kv Hkv; apply Hall; by right).
  destruct (decide (ltb (of_Z 0) (snd (k, v)) = true)) as [Hpos|Hzero].
  - by rewrite !fmap_cons, !column_sum_cons, Hl.
  - rewrite fmap_cons, column_sum_cons, Hl. simpl.
    apply not_true_is_false, ltb_Q_false in Hzero. simpl in Hzero.
    change (inject_Z 0) with 0 in Hzero. lra.
Qed.

Lemma column_nonneg (history : list (footprint_row Q)) (column : footprint_row Q -> Q) :
  (forall r, r ∈ history -> 0 <= column r) -> 0 <= column_sum (column <$> history).
Proof.
  intros Hall. apply column_sum_nonneg. intros x Hx.
  apply list_elem_of_fmap in Hx as (r & -> & Hr). by apply Hall.
Qed.
End SlicesQ.

(** X22.  Over exact arithmetic the pie chart of the dashboard shows exactly
    the categories of the breakdown whose value is positive; when no stored
    quantity is negative the values it shows add up to the whole breakdown,
    so leaving out the empty categories loses nothing. *)
Theorem pie_chart_slices (history : list (footprint_row Q)) :
  (forall kv, kv ∈ filtered_categories (category_totals history) <->
              kv ∈ category_totals history /\ (0 < snd kv)%Q) /\
  ((forall r, r ∈ history -> row_nonneg r) ->
   (column_sum (snd <$> filtered_categories (category_totals history))
    == column_sum (snd <$> category_totals history))%Q).
Proof.
  split.
  - intros kv. unfold filtered_categories. rewrite list_elem_of_filter.
    change (of_Z 0) with 0%Q. rewrite ltb_Q. tauto.
  - intros Hrows. apply filtered_categories_sum.
    assert (He := column_nonneg history electricity_kwh ltac:(intros r Hr; apply Hrows, Hr)).
    assert (Hg := column_nonneg history natural_gas_therms ltac:(intros r Hr; apply Hrows, Hr)).
    assert (Hw := column_nonneg history water_gallons ltac:(intros r Hr; apply Hrows, Hr)).
    assert (Hc := column_nonneg history car_miles ltac:(intros r Hr; apply Hrows, Hr)).
    assert (Hp := column_nonneg history public_transit_miles
                    ltac:(intros r Hr; apply Hrows, Hr)).
    assert (Hs := column_nonneg history flights_short_haul ltac:(intros r Hr; apply Hrows, Hr)).
    assert (Hl := column_nonneg history flights_long_haul ltac:(intros r Hr; apply Hrows, Hr)).
    assert (Hm := column_nonneg history meat_servings ltac:(intros r Hr; apply Hrows, Hr)).
    assert (Hd := column_nonneg history dairy_servings ltac:(intros r Hr; apply Hrows, Hr)).
    assert (Hv := column_nonneg history veg_servings ltac:(intros r Hr; apply Hrows, Hr)).
    intros kv Hkv. unfold category_totals in Hkv. cbv zeta in Hkv.
    cbn [add mul div of_Z lit Q_num] in Hkv.
    repeat (apply elem_of_cons in Hkv as [->|Hkv];
            [cbn [snd]; unfold Qdiv; change (/ inject_Z 25)%Q with (1 # 25)%Q;
             change (inject_Z 500) with 500%Q; change (inject_Z 1600) with 1600%Q; lra|]).
    by apply elem_of_nil in Hkv.
Qed.

Lemma pie_chart_slices_witness :
  (column_sum (snd <$> filtered_categories (category_totals [entry_row 1 9 sample_data]))
   == column_sum (snd <$> category_totals [entry_row 1 9 sample_data]))%Q.
Proof.
  apply (proj2 (pie_chart_slices [entry_row 1 9 sample_data])).
  intros r Hr. apply list_elem_of_singleton in Hr as ->.
  unfold row_nonneg. by vm_compute.
Defined.

(** ** The listing of the administrator *)

#[export] Instance joined_date_desc_total {A} : Total (@joined_date_desc A).
Proof. intros x y. unfold joined_date_desc. lia. Qed.

#[export] Instance joined_date_desc_trans {A} : Transitive (@joined_date_desc A).
Proof. intros x y z. unfold joined_date_desc. lia. Qed.

Lemma get_all_carbon_entries_ok {A} (d : database A) fs :
  head fs <> Some true ->
  get_all_carbon_entries {| db := d; faults := fs |} =
    (Ret (merge_sort joined_date_desc
            (r ← carbon_footprint d;
             u ← filter (fun u => users_id u = cf_user_id r) (users d);
             [(r, username u)])),
     {| db := d; faults := tail fs |}).
Proof.
  intros Hfs. by destruct fs as [|[] fs].
Qed.

Lemma NoDup_fmap_eq {B C} (f : B -> C) (l : list B) x y :
  NoDup (f <$> l) -> x ∈ l -> y ∈ l -> f x = f y -> x = y.
Proof.
  induction l as [|z l IH]; intros Hnd Hx Hy Hf; [by apply elem_of_nil in Hx|].
  rewrite fmap_cons in Hnd.
  pose proof (NoDup_cons_1_1 _ _ Hnd) as Hz. pose proof (NoDup_cons_1_2 _ _ Hnd) as Hl.
  apply elem_of_cons in Hx as [->|Hx]; apply elem_of_cons in Hy as [->|Hy].
  - done.
  - exfalso. apply Hz. rewrite Hf. by apply list_elem_of_fmap_2.
  - exfalso. apply Hz. rewrite <- Hf. by apply list_elem_of_fmap_2.
  - by apply IH.
Qed.

(** X23.  [get_all_carbon_entries] never changes the database.  When its
    query does not fail it lists a stored entry beside a name exactly when
    an account with the entry's user id carries that name, so the entries of
    an id without an account are left out, and no listed entry is dated
    later than one before it; when the ids of the accounts are distinct an
    entry is listed beside one name only.  When the query fails it returns
    the empty frame, as for a database without entries. *)
Theorem get_all_carbon_entries_joins {A} (d : database A) :
  (forall fs, db (snd (get_all_carbon_entries {| db := d; faults := fs |})) = d) /\
  (forall fs,
     head fs <> Some true ->
     exists listed,
       fst (get_all_carbon_entries {| db := d; faults := fs |}) = Ret listed /\
       (forall r n, (r, n) ∈ listed <->
                    r ∈ carbon_footprint d /\
                    exists u, u ∈ users d /\ users_id u = cf_user_id r /\ username u = n) /\
       (forall r, (cf_user_id r) ∉ (users_id <$> users d) -> forall n, (r, n) ∉ listed) /\
       StronglySorted joined_date_desc listed /\
       (NoDup (users_id <$> users d) ->
        forall r n n', (r, n) ∈ listed -> (r, n') ∈ listed -> n = n')) /\
  (forall fs,
     fst (get_all_carbon_entries {| db := d; faults := true :: fs |}) = Ret []).
Proof.
  split; [|split].
  - intros [|[] fs]; reflexivity.
  - intros fs Hfs. rewrite get_all_carbon_entries_ok by done. cbn [fst].
    eexists. split; [reflexivity|].
    set (joined := r ← carbon_footprint d;
                   u ← filter (fun u => users_id u = cf_user_id r) (users d);
                   [(r, username u)]).
    pose proof (merge_sort_Permutation joined_date_desc joined) as Hperm.
    assert (Hmem : forall r n, (r, n) ∈ merge_sort joined_date_desc joined <->
                     r ∈ carbon_footprint d /\
                     exists u, u ∈ users d /\ users_id u = cf_user_id r /\ username u = n).
    { intros r n. rewrite Hperm. unfold joined. rewrite list_elem_of_bind. split.
      - intros (r' & Hin & Hr'). apply list_elem_of_bind in Hin as (u & Hin & Hu).
        apply list_elem_of_singleton in Hin. injection Hin as -> ->.
        apply list_elem_of_filter in Hu as [Hid Hu]. split; [done|]. by exists u.
      - intros (Hr & u & Hu & Hid & <-). exists r. split; [|done].
        apply list_elem_of_bind. exists u. split; [by apply list_elem_of_singleton|].
        by apply list_elem_of_filter. }
    split; [exact Hmem|]. split; [|split].
    + intros r Hno n Hin. apply Hmem in Hin as (_ & u & Hu & Hid & _).
      apply Hno. rewrite <- Hid. by apply list_elem_of_fmap_2.
    + apply StronglySorted_merge_sort; apply _.
    + intros Hnd r n n' Hn Hn'.
      apply Hmem in Hn as (_ & u & Hu & Hid & <-).
      apply Hmem in Hn' as (_ & u' & Hu' & Hid' & <-).
      f_equal. apply (NoDup_fmap_eq users_id (users d)); [done..|congruence].
  - reflexivity.
Qed.

Lemma get_all_carbon_entries_joins_witness :
  exists listed,
    fst (get_all_carbon_entries
           {| db := {| users := [];
                       carbon_footprint := [sample_row 3 10]; user_streaks := [] |};
              faults := [] |}) = Ret listed /\
    forall n, (sample_row 3 10, n) ∉ listed.
Proof.
  destruct (proj1 (proj2 (get_all_carbon_entries_joins
              {| users := []; carbon_footprint := [sample_row 3 10];
                 user_streaks := [] |})) [] ltac:(done))
    as (listed & Hl & _ & Hno & _).
  exists listed. split; [exact Hl|].
  apply Hno. cbn. apply not_elem_of_nil.
Defined.
